(** * A shallow embedding of the block store of [index.js]

    The development follows the source function by function.  Asynchronous
    callbacks are run to completion: a function that calls back with
    [(err, value)] becomes a function returning a [result]; loops and
    recursions whose termination depends on the stored data take a [fuel]
    argument and return [None] only when the fuel runs out. *)

From Stdlib Require Import ZArith NArith String List Bool Lia.
From stdpp Require Import base option list gmap strings fin_maps.

Local Open Scope string_scope.
Local Open Scope Z_scope.
Local Open Scope list_scope.

(** ** Values *)

(** A block hash as the hex string [hash.toString('hex')]; a [Buffer] holding
    a hash is identified with that string ([Buffer.from(h, 'hex')]). *)
Abbreviation hex := string.

(** JavaScript truthiness of a string-or-null value: [null], [undefined] and
    the empty string are falsy. *)
Definition truthy (o : option hex) : option hex :=
  match o with
  | Some h => if decide (h = "") then None else Some h
  | None => None
  end.

(** [a || b] on such values. *)
Definition js_or (a b : option hex) : option hex :=
  match truthy a with
  | Some h => Some h
  | None => b
  end.

(** The block codec is an external collaborator; a block is the tuple of what
    this file reads from it.  [bufferToInt] throws from [2^53] on: [number]
    and [difficulty] are its values where it returns, and statements that a
    put calls back carry the bound as a hypothesis. *)
Module Block.
Record t := mk {
  hash : hex;          (* block.hash() *)
  parentHash : hex;    (* block.header.parentHash *)
  number : Z;          (* vapUtil.bufferToInt(block.header.number) *)
  difficulty : N;      (* vapUtil.bufferToInt(block.header.difficulty) *)
  isGenesis : bool     (* block.isGenesis() *)
}.
End Block.

(** Block details, stored at ['detail:' + hash].  [inChain] is absent until it
    is first assigned; only its truthiness is ever read, so absent and [false]
    are one value here.  [marks] holds the consumer names [n] for which the
    iterator has set [details[n] = true], [n] being none of the names of the
    fields. *)
Module Details.
Record t := mk {
  parent : hex;
  td : N;
  number : Z;
  child : option hex;
  staleChildren : list hex;
  genesis : bool;
  inChain : bool;
  marks : gset string
}.

Definition set_child (c : option hex) (d : t) : t :=
  mk (parent d) (td d) (number d) c (staleChildren d) (genesis d) (inChain d) (marks d).
Definition set_staleChildren (l : list hex) (d : t) : t :=
  mk (parent d) (td d) (number d) (child d) l (genesis d) (inChain d) (marks d).
Definition set_inChain (b : bool) (d : t) : t :=
  mk (parent d) (td d) (number d) (child d) (staleChildren d) (genesis d) b (marks d).
Definition set_mark (name : string) (d : t) : t :=
  mk (parent d) (td d) (number d) (child d) (staleChildren d) (genesis d) (inChain d)
     ({[ name ]} ∪ marks d).
End Details.

(** [self.meta]. *)
Module Meta.
Record t := mk {
  heads : gmap string hex;
  rawHead : option hex;
  height : option Z;
  td : N;
  genesis : option hex
}.

Definition set_heads (h : gmap string hex) (m : t) : t :=
  mk h (rawHead m) (height m) (td m) (genesis m).
Definition set_rawHead (r : option hex) (m : t) : t :=
  mk (heads m) r (height m) (td m) (genesis m).
Definition set_height (n : option Z) (m : t) : t :=
  mk (heads m) (rawHead m) n (td m) (genesis m).
Definition set_td (n : N) (m : t) : t :=
  mk (heads m) (rawHead m) (height m) n (genesis m).
Definition set_genesis (g : option hex) (m : t) : t :=
  mk (heads m) (rawHead m) (height m) (td m) g.

(** The default of [_init]: [{ heads: {}, td: new BN() }]. *)
Definition default : t := mk ∅ None None 0%N None.
End Meta.

(** ** Errors and results *)

Inductive error :=
| NoHeadFound                 (* new Error('No head found.') *)
| UnknownBlockTag             (* new Error('Unknown blockTag type') *)
| AlreadyHaveGenesis          (* new Error('already have genesis set') *)
| InvalidPOW                  (* new Error('invalid POW') *)
| ParentNotFound (h : hex)    (* new Error(`parent hash not found: ...`) *)
| NotFound                    (* the store has no entry under the key *)
| EncodingError               (* the store cannot decode the entry *)
| External (msg : string).    (* an error of the validator, the consumer or the store *)

(** What a call ends with: its callback receives a value, its callback
    receives an error, or an exception escapes (every exception met in this
    file is a [TypeError]). *)
Inductive result (A : Type) :=
| Ok (a : A)
| Err (e : error)
| Thrown.
Arguments Ok {A} a.
Arguments Err {A} e.
Arguments Thrown {A}.

(** ** The two stores *)

(** Keys of the block store.  [_putBlock] writes and [getBlock] reads under the
    hash as a [Buffer] with [keyEncoding: 'binary']; [_delBlock] deletes under
    the hex *string* with the default key encoding, a different byte string. *)
Inductive blockKey :=
| BufferKey (h : hex)
| StringKey (s : string).

#[global] Instance blockKey_eq_dec : EqDecision blockKey.
Proof. solve_decision. Defined.

#[global] Instance blockKey_countable : Countable blockKey.
Proof.
  refine (inj_countable'
            (λ k, match k with BufferKey h => inl h | StringKey s => inr s end)
            (λ x, match x with inl h => BufferKey h | inr s => StringKey s end) _).
  intros []; reflexivity.
Defined.

(** What the detail store holds under a ['detail:' + hash] key: a JSON record,
    or what is left by a [put] whose value was [undefined], which no later
    [get] with [valueEncoding: 'json'] can decode. *)
Inductive detailEntry :=
| Stored (d : Details.t)
| Undecodable.

(** The detail store, one field per family of keys, the families being
    pairwise disjoint as strings: the literal ['meta']; ['detail:' + hash];
    the decimal block numbers; and ['"meta"'], the key that [_saveMeta]
    produces by passing [keyEncoding: 'json'], holding the text of the meta
    object under the default value encoding. *)
Record DetailsDb := mkDetailsDb {
  metaEntry : option Meta.t;
  detailEntries : gmap hex detailEntry;
  numberIndex : gmap Z hex;
  quotedMetaEntry : option string
}.

Definition set_metaEntry (m : option Meta.t) (db : DetailsDb) : DetailsDb :=
  mkDetailsDb m (detailEntries db) (numberIndex db) (quotedMetaEntry db).
Definition set_detailEntries (e : gmap hex detailEntry) (db : DetailsDb) : DetailsDb :=
  mkDetailsDb (metaEntry db) e (numberIndex db) (quotedMetaEntry db).
Definition set_numberIndex (n : gmap Z hex) (db : DetailsDb) : DetailsDb :=
  mkDetailsDb (metaEntry db) (detailEntries db) n (quotedMetaEntry db).
Definition set_quotedMetaEntry (s : option string) (db : DetailsDb) : DetailsDb :=
  mkDetailsDb (metaEntry db) (detailEntries db) (numberIndex db) s.

Definition emptyDetailsDb : DetailsDb := mkDetailsDb None ∅ ∅ None.

(** The [Blockchain] object: [self.validate], [self.meta], [self.blockDb] and
    [self.detailsDb].  The block store holds encoded blocks; the codec is
    external and a stored value is identified with the block it decodes to. *)
Record Blockchain := mkBlockchain {
  validate : bool;
  meta : Meta.t;
  blockDb : gmap blockKey Block.t;
  detailsDb : DetailsDb
}.

Definition set_meta (m : Meta.t) (c : Blockchain) : Blockchain :=
  mkBlockchain (validate c) m (blockDb c) (detailsDb c).
Definition set_blockDb (b : gmap blockKey Block.t) (c : Blockchain) : Blockchain :=
  mkBlockchain (validate c) (meta c) b (detailsDb c).
Definition set_detailsDb (d : DetailsDb) (c : Blockchain) : Blockchain :=
  mkBlockchain (validate c) (meta c) (blockDb c) d.

(** ** Staged operations

    [dbOps] holds objects by reference and [_batchDbOps] encodes them when the
    batch is issued, so an assignment made to an object after it was pushed
    is written too.  The objects of one operation live in a heap (a list,
    addressed by position); a staged [put] of block details names a heap cell,
    or carries [None] for the value [undefined]. *)
Inductive dbOp :=
| PutDetail (h : hex) (v : option nat)  (* details, put, 'detail:' + h, json *)
| PutNumber (n : Z) (h : hex)           (* details, put, decimal n, binary *)
| PutMeta                               (* details, put, 'meta', json, self.meta *)
| PutBlock (h : hex) (b : Block.t)      (* block, put, Buffer h, binary *)
| DelDetail (h : hex)                   (* details, del, 'detail:' + h *)
| DelBlock (s : string).                (* block, del, the string s *)

Abbreviation heap := (list Details.t).

(** One staged operation applied to the stores, [m] being [self.meta] and [hp]
    the heap at the time of the batch. *)
Definition applyOp (hp : heap) (m : Meta.t) (c : Blockchain) (op : dbOp) : Blockchain :=
  match op with
  | PutDetail h v =>
      let e := match v ≫= (hp !!.) with Some d => Stored d | None => Undecodable end in
      set_detailsDb (set_detailEntries (<[h := e]> (detailEntries (detailsDb c))) (detailsDb c)) c
  | PutNumber n h =>
      set_detailsDb (set_numberIndex (<[n := h]> (numberIndex (detailsDb c))) (detailsDb c)) c
  | PutMeta =>
      set_detailsDb (set_metaEntry (Some m) (detailsDb c)) c
  | PutBlock h b =>
      set_blockDb (<[BufferKey h := b]> (blockDb c)) c
  | DelDetail h =>
      set_detailsDb (set_detailEntries (delete h (detailEntries (detailsDb c))) (detailsDb c)) c
  | DelBlock s =>
      set_blockDb (delete (StringKey s) (blockDb c)) c
  end.

(** [_batchDbOps]: the operations are split by store, each store applies its
    share in order; the two shares touch different stores, so applying the
    whole list in order is the same. *)
Definition _batchDbOps (hp : heap) (ops : list dbOp) (c : Blockchain) : Blockchain :=
  fold_left (applyOp hp (meta c)) ops c.

(** ** Lookups *)

(** [getDetails(hash, cb)]. *)
Definition getDetails (c : Blockchain) (h : hex) : result Details.t :=
  match detailEntries (detailsDb c) !! h with
  | Some (Stored d) => Ok d
  | Some Undecodable => Err EncodingError
  | None => Err NotFound
  end.

(** [putDetails(hash, val, cb)]. *)
Definition putDetails (c : Blockchain) (h : hex) (val : Details.t) : Blockchain :=
  set_detailsDb (set_detailEntries (<[h := Stored val]> (detailEntries (detailsDb c))) (detailsDb c)) c.

(** The argument of [getBlock]. *)
Inductive blockTag :=
| TagBuffer (h : hex)      (* Buffer.isBuffer(blockTag) *)
| TagInteger (n : Z)       (* Number.isInteger(blockTag) *)
| TagOther.

Definition lookupByHash (c : Blockchain) (h : hex) : result Block.t :=
  match blockDb c !! BufferKey h with
  | Some b => Ok b
  | None => Err NotFound
  end.

Definition lookupNumberToHash (c : Blockchain) (n : Z) : result hex :=
  match numberIndex (detailsDb c) !! n with
  | Some h => Ok h
  | None => Err NotFound
  end.

(** [getBlock(blockTag, cb)]. *)
Definition getBlock (c : Blockchain) (blockTag : blockTag) : result Block.t :=
  match blockTag with
  | TagBuffer h => lookupByHash c h
  | TagInteger n =>
      match lookupNumberToHash c n with
      | Ok blockHash => lookupByHash c blockHash
      | Err e => Err e
      | Thrown => Thrown
      end
  | TagOther => Err UnknownBlockTag
  end.

(** ** External collaborators

    The block validator, the proof-of-work verifier and the big-number
    library are not part of this file.  The verifier is built over the detail
    store, [new Vapash(self.detailsDb)]: it keeps the cache of an epoch there,
    under the number of the epoch, which is a key of the number index. *)
Record Externals := mkExternals {
  (* block.validate(self, next): the error passed to next, if any *)
  Block_validate : Blockchain → Block.t → option error;
  (* self.vapash.verifyPOW(block, cb): the boolean passed to cb *)
  vapash_verifyPOW : Block.t → bool;
  (* self.vapash.verifyPOW(block, cb): the entries under the decimal keys of
     the detail store when cb is called, from those it found there *)
  vapash_cache : gmap Z hex → Block.t → gmap Z hex;
  (* new BN(j), for j the JSON form of a stored total difficulty *)
  BN_ofJSON : N → N;
  (* new Block() after setGenesisParams() *)
  canonicalGenesis : Block.t
}.

(** [Array.prototype.indexOf] followed by [splice(i, 1)] when found: the first
    occurrence is removed. *)
Fixpoint spliceFirst (h : hex) (l : list hex) : list hex :=
  match l with
  | [] => []
  | x :: l' => if decide (x = h) then l' else x :: spliceFirst h l'
  end.

(** ** Ingestion *)

Section Ingestion.
Variable ext : Externals.

(** The head of [_rebuildBlockchain]: [hash] leaves [staleChildren], a
    different former [child] enters it, and [hash] becomes the [child]. *)
Definition relink (hash : hex) (parentDetails : Details.t) : Details.t :=
  let pd := Details.set_staleChildren
              (spliceFirst hash (Details.staleChildren parentDetails)) parentDetails in
  let pd :=
    match truthy (Details.child pd) with
    | Some ch =>
        if decide (ch = hash) then pd
        else Details.set_staleChildren (Details.staleChildren pd ++ [ch]) pd
    | None => pd
    end in
  Details.set_child (Some hash) pd.
Arguments relink : simpl never.

(** [_rebuildBlockchain(hash, parentHash, parentDetails, ops, cb)].
    [parentDetails] is a heap cell, or [None] for [undefined].  The stores are
    only read here: the staged operations are written after the recursion. *)
Fixpoint _rebuildBlockchain (fuel : nat) (c : Blockchain) (hash parentHash : hex)
    (parentDetails : option nat) (hp : heap) (ops : list dbOp)
  : option (result (heap * list dbOp)) :=
  match fuel with
  | O => None
  | S fuel =>
    match parentDetails with
    | None => Some Thrown
    | Some r =>
      match hp !! r with
      | None => Some Thrown
      | Some pd =>
        let pd := relink hash pd in
        let ops := ops ++ [PutDetail parentHash (Some r)] in
        (* exit early if parent is in chain *)
        if Details.inChain pd then Some (Ok (<[r := pd]> hp, ops))
        else
          let pd := Details.set_inChain true pd in
          let hp := <[r := pd]> hp in
          (* loadNumberIndex *)
          match lookupNumberToHash c (Details.number pd) with
          | Err e => Some (Err e)
          | Thrown => Some Thrown
          | Ok staleHash =>
            (* loadStaleDetails; staleHash is a Buffer, which is never falsy *)
            match getDetails c staleHash with
            | Err e => Some (Err e)
            | Thrown => Some Thrown
            | Ok staleDetails =>
              let staleDetails := Details.set_inChain false staleDetails in
              let sref := length hp in
              let hp := hp ++ [staleDetails] in
              let ops := ops ++ [PutNumber (Details.number staleDetails) parentHash;
                                 PutDetail staleHash (Some sref)] in
              (* getNextDetails *)
              match getDetails c (Details.parent pd) with
              | Err e => Some (Err e)
              | Thrown => Some Thrown
              | Ok ppDetails =>
                _rebuildBlockchain fuel c parentHash (Details.parent pd)
                                   (Some (length hp)) (hp ++ [ppDetails]) ops
              end
            end
          end
      end
    end
  end.

Definition verify (c : Blockchain) (block : Block.t) (isGenesis : bool) : option error :=
  if negb (validate c) then None
  else if negb isGenesis && Block.isGenesis block then Some AlreadyHaveGenesis
  else Block_validate ext c block.

(** [verifyPOW]: the object as the verifier leaves it, and the error of the
    step, if any.  The verifier calls back at once, with [true], for a
    genesis block; for any other block it may write its cache. *)
Definition verifyPOW (c : Blockchain) (block : Block.t) : Blockchain * option error :=
  if negb (validate c) then (c, None)
  else if Block.isGenesis block then (c, None)
  else
    (set_detailsDb
       (set_numberIndex (vapash_cache ext (numberIndex (detailsDb c)) block) (detailsDb c)) c,
     if vapash_verifyPOW ext block then None else Some InvalidPOW).

(** [lookupParentBlock]: [parentDetails] stays [undefined] for a genesis put. *)
Definition lookupParentBlock (c : Blockchain) (block : Block.t) (isGenesis : bool)
  : result (option Details.t) :=
  if isGenesis then Ok None
  else match getDetails c (Block.parentHash block) with
       | Ok parentDetails => Ok (Some parentDetails)
       | _ => Err (ParentNotFound (Block.parentHash block))
       end.

(** The total difficulty computed at the head of [rebuildInfo]. *)
Definition totalDifficulty (block : Block.t) (isGenesis : bool)
    (parentDetails : option Details.t) : N :=
  match isGenesis, parentDetails with
  | false, Some pd => (Block.difficulty block + Details.td pd)%N
  | _, _ => Block.difficulty block
  end.

(** [rebuildInfo]: the new [self.meta], and the heap and staged operations
    handed to [_batchDbOps] when the step succeeds. *)
Definition rebuildInfo (fuel : nat) (c : Blockchain) (block : Block.t) (isGenesis : bool)
    (parentDetails : option Details.t)
  : Meta.t * option (result (heap * list dbOp)) :=
  let blockHashHexString := Block.hash block in
  let totalDifficulty := totalDifficulty block isGenesis parentDetails in
  (* add this block as a child to the parent's block details *)
  let hp : heap :=
    match isGenesis, parentDetails with
    | false, Some pd =>
        [Details.set_staleChildren (Details.staleChildren pd ++ [blockHashHexString]) pd]
    | _, Some pd => [pd]
    | _, None => []
    end in
  let pref : option nat := match parentDetails with Some _ => Some 0%nat | None => None end in
  let blockDetails :=
    Details.mk (Block.parentHash block) totalDifficulty (Block.number block)
               None [] (Block.isGenesis block) false ∅ in
  let bref := length hp in
  let hp := hp ++ [blockDetails] in
  let ops := [PutDetail blockHashHexString (Some bref);
              PutBlock blockHashHexString block] in
  if Block.isGenesis block || (Meta.td (meta c) <? totalDifficulty)%N then
    let hp := <[bref := Details.set_inChain true blockDetails]> hp in
    let m := Meta.set_td totalDifficulty
               (Meta.set_height (Some (Block.number block))
                  (Meta.set_rawHead (Some blockHashHexString) (meta c))) in
    let ops := ops ++ [PutNumber (Block.number block) blockHashHexString; PutMeta] in
    if Block.isGenesis block then
      (Meta.set_genesis (Some blockHashHexString) m, Some (Ok (hp, ops)))
    else
      (m, _rebuildBlockchain fuel c blockHashHexString (Block.parentHash block) pref hp ops)
  else
    (meta c, Some (Ok (hp, ops ++ [PutDetail (Block.parentHash block) pref]))).

(** The last three tasks of the series in [_putBlock], and its callback:
    [lookupParentBlock], [rebuildInfo] and the batch. *)
Definition putVerified (fuel : nat) (block : Block.t) (isGenesis : bool) (c : Blockchain)
  : option (Blockchain * result unit) :=
  match lookupParentBlock c block isGenesis with
  | Err e => Some (c, Err e)
  | Thrown => Some (c, Thrown)
  | Ok parentDetails =>
    match rebuildInfo fuel c block isGenesis parentDetails with
    | (_, None) => None
    | (m, Some (Err e)) => Some (set_meta m c, Err e)
    | (m, Some Thrown) => Some (set_meta m c, Thrown)
    | (m, Some (Ok (hp, dbOps))) => Some (_batchDbOps hp dbOps (set_meta m c), Ok tt)
    end
  end.

(** [_putBlock(block, cb, isGenesis)]: the object after the call and what the
    callback receives. *)
Definition _putBlock (fuel : nat) (block : Block.t) (isGenesis : bool) (c : Blockchain)
  : option (Blockchain * result unit) :=
  match verify c block isGenesis with
  | Some e => Some (c, Err e)
  | None =>
    match verifyPOW c block with
    | (c, Some e) => Some (c, Err e)
    | (c, None) => putVerified fuel block isGenesis c
    end
  end.

End Ingestion.

(** ** Retrieval *)

Section GetBlocks.
(** [self.getBlock], as the loop sees it: a callback argument. *)
Variable getBlock_ : blockTag → result Block.t.
Variables (maxBlocks skip : Z) (reverse : bool).

(** [nextBlock(blockId)] with the two variables it closes over, [i] and
    [blocks].  [skip] is tested for truthiness; [%] is the remainder of
    truncated division ([i % 0] is [NaN], which differs from [0], and
    [Z.rem i 0] is [i], which differs from [0] where it is computed). *)
Fixpoint nextBlock (fuel : nat) (i : Z) (blocks : list Block.t) (blockId : blockTag)
  : option (result (list Block.t)) :=
  match fuel with
  | O => None
  | S fuel =>
    let i := i + 1 in
    match getBlock_ blockId with
    | Err _ => Some (Ok blocks)
    | Thrown => Some Thrown
    | Ok block =>
      let nextBlockNumber := Block.number block + (if reverse then -1 else 1) in
      if negb (i =? 0) && negb (skip =? 0) && negb (Z.rem i (skip + 1) =? 0) then
        nextBlock fuel i blocks (TagInteger nextBlockNumber)
      else
        let blocks := blocks ++ [block] in
        if Z.of_nat (length blocks) =? maxBlocks then Some (Ok blocks)
        else nextBlock fuel i blocks (TagInteger nextBlockNumber)
    end
  end.

Definition getBlocks_with (fuel : nat) (blockId : blockTag) : option (result (list Block.t)) :=
  nextBlock fuel (-1) [] blockId.

End GetBlocks.

(** [getBlocks(blockId, maxBlocks, skip, reverse, cb)]. *)
Definition getBlocks (fuel : nat) (c : Blockchain) (blockId : blockTag)
    (maxBlocks skip : Z) (reverse : bool) : option (result (list Block.t)) :=
  getBlocks_with (getBlock c) maxBlocks skip reverse fuel blockId.

(** [self.meta.heads] is a plain object: a name that it does not hold itself
    is looked up in [Object.prototype], which defines these. *)
Definition objectPrototype : list string :=
  ["constructor"; "__defineGetter__"; "__defineSetter__"; "hasOwnProperty";
   "__lookupGetter__"; "__lookupSetter__"; "isPrototypeOf"; "propertyIsEnumerable";
   "toString"; "valueOf"; "__proto__"; "toLocaleString"]%string.

(** The value of [heads[name]]: a hash that [heads] holds, what
    [Object.prototype] defines under the name (a function, or the prototype
    of [heads] for ['__proto__']: truthy, and no string), or [undefined]. *)
Inductive property :=
| Own (h : hex)
| Inherited
| Undefined.

Definition getProperty (heads : gmap string hex) (name : string) : property :=
  match heads !! name with
  | Some h => Own h
  | None => if decide (name ∈ objectPrototype) then Inherited else Undefined
  end.

(** The body of [getHead] that runs once the init lock is released.  For a
    value of [heads[name]] that is inherited, [Buffer.from(hash, 'hex')]
    throws. *)
Definition runGetHead (c : Blockchain) (name : string) : result Block.t :=
  match getProperty (Meta.heads (meta c)) name with
  | Inherited => Thrown
  | p =>
    let own := match p with Own h => Some h | _ => None end in
    match truthy (js_or own (Meta.rawHead (meta c))) with
    | None => Err NoHeadFound
    | Some hash => getBlock c (TagBuffer hash)
    end
  end.

(** The optional first argument of [getHead]: [None] stands for the call
    [getHead(cb)], where [name] becomes ['vm']. *)
Definition headName (name : option string) : string :=
  match name with
  | Some n => n
  | None => "vm"
  end.

Section SelectNeededHashes.
(** What [self.getBlockInfo] evaluates to: a function, or [None] for
    [undefined]. *)
Variable getBlockInfo : option (hex → result Details.t).
Variable hashes : list hex.

(** The [async.whilst] loop over [min], [max] and [mid]; it ends with the
    final [min]. *)
Fixpoint whilst (fuel : nat) (min max mid : Z) : option (result Z) :=
  match fuel with
  | O => None
  | S fuel =>
    if min <=? max then
      match getBlockInfo with
      | None => Some Thrown
      | Some f =>
        match (if 0 <=? mid then hashes !! Z.to_nat mid else None) with
        | None => Some Thrown
        | Some h =>
          match f h with
          | Thrown => Some Thrown
          | r =>
            let '(min, max) :=
              match r with
              | Ok _ => (mid + 1, max)
              | _ => (min, mid - 1)
              end in
            whilst fuel min max ((min + max) / 2)
          end
        end
      end
    else Some (Ok min)
  end.

Definition selectNeededHashes_with (fuel : nat) : option (result (list hex)) :=
  match whilst fuel 0 (Z.of_nat (length hashes) - 1) 0 with
  | None => None
  | Some (Ok min) => Some (Ok (drop (Z.to_nat min) hashes))
  | Some (Err e) => Some (Err e)
  | Some Thrown => Some Thrown
  end.

End SelectNeededHashes.

(** The properties assigned on [Blockchain.prototype] in the file, with the
    lookups among them that take a hash and call back with block details. *)
Definition prototype : list string :=
  ["_init"; "_setCanonicalGenesisBlock"; "putGenesis"; "getHead"; "putBlocks";
   "putBlock"; "_putBlock"; "getBlock"; "getBlocks"; "getDetails"; "putDetails";
   "selectNeededHashes"; "_saveMeta"; "_rebuildBlockchain"; "delBlock";
   "_delBlock"; "iterator"; "_iterator"; "_batchDbOps"]%string.

Definition detailsMethod (c : Blockchain) (name : string) : option (hex → result Details.t) :=
  if decide (name ∈ prototype) then
    if decide (name = "getDetails"%string) then Some (getDetails c) else None
  else None.

(** [selectNeededHashes(hashes, cb)]: the loop body calls
    [self.getBlockInfo]. *)
Definition selectNeededHashes (fuel : nat) (c : Blockchain) (hashes : list hex)
  : option (result (list hex)) :=
  selectNeededHashes_with (detailsMethod c "getBlockInfo") hashes fuel.

(** ** Deletion *)

(** [details.staleChildern], the property that [removeStaleChildren] hands to
    [async.each]: block details have no property of that name, so the value
    is [undefined] and nothing is iterated. *)
Definition staleChildern (d : Details.t) : list hex := [].

(** The names [head] with [self.meta.heads[head] === blockhash]. *)
Definition headsAt (m : Meta.t) (blockhash : hex) : list string :=
  (filter (λ kv, kv.2 = blockhash) (map_to_list (Meta.heads m))).*1.

(** [_delBlock(blockhash, dbOps, resetHeads, cb)]: the two arrays as left by
    the call. *)
Fixpoint _delBlock (fuel : nat) (c : Blockchain) (blockhash : hex)
    (dbOps : list dbOp) (resetHeads : list string)
  : option (result (list dbOp * list string)) :=
  match fuel with
  | O => None
  | S fuel =>
    let dbOps := dbOps ++ [DelDetail blockhash; DelBlock blockhash] in
    (* getDetails *)
    let resetHeads := resetHeads ++ headsAt (meta c) blockhash in
    match getDetails c blockhash with
    | Err e => Some (Err e)
    | Thrown => Some Thrown
    | Ok details =>
      (* removeChild *)
      let afterChild :=
        match truthy (Details.child details) with
        | Some child => _delBlock fuel c child dbOps resetHeads
        | None => Some (Ok (dbOps, resetHeads))
        end in
      (* removeStaleChildren *)
      fold_left
        (λ acc child,
           match acc with
           | Some (Ok (dbOps, resetHeads)) => _delBlock fuel c child dbOps resetHeads
           | other => other
           end)
        (staleChildern details) afterChild
    end
  end.

(** The argument of [delBlock]: a [Buffer], or a block whose [hash()] is
    taken. *)
Inductive hashOrBlock :=
| OfBuffer (h : hex)
| OfBlock (b : Block.t).

(** [delBlock(blockhash, cb)]. *)
Definition delBlock (fuel : nat) (c : Blockchain) (arg : hashOrBlock)
  : option (Blockchain * result unit) :=
  let blockhash := match arg with OfBuffer h => h | OfBlock b => Block.hash b end in
  (* buildDBops *)
  match _delBlock fuel c blockhash [] [] with
  | None => None
  | Some (Err e) => Some (c, Err e)
  | Some Thrown => Some (c, Thrown)
  | Some (Ok (dbOps, resetHeads)) =>
    (* getLastDeletesDetils *)
    match getDetails c blockhash with
    | Ok details =>
      let m := if Details.inChain details
               then Meta.set_rawHead (Some (Details.parent details)) (meta c)
               else meta c in
      let m := Meta.set_heads
                 (fold_left (λ hs head, <[head := Details.parent details]> hs)
                            resetHeads (Meta.heads m)) m in
      Some (_batchDbOps [] dbOps (set_meta m c), Ok tt)
    | _ => Some (c, Thrown)
    end
  end.

(** ** Iteration *)

(** [_saveMeta(cb)]: [keyEncoding: 'json'] turns the key into ['"meta"'], and
    the default value encoding turns the object into its string. *)
Definition _saveMeta (c : Blockchain) : Blockchain :=
  set_detailsDb (set_quotedMetaEntry (Some "[object Object]"%string) (detailsDb c)) c.

(** How a call of [_iterator] ends: [cb] is called once; or [cb(err)] is
    called and then a [TypeError] escapes (the first [getDetails] failed and
    [d.child] is read all the same). *)
Inductive iteratorEnd :=
| Returned (r : result unit)
| ErrorThenThrown (e : error).

Section Iterator.
(** The consumer [func(block, reorg, cb3)]: from its own state, the block and
    the flag, its next state and the error it passes to [cb3], if any. *)
Context {Consumer : Type}.
Variable func : Consumer → Block.t → bool → Consumer * option error.
Variable name : string.

(** The variables of one call of [_iterator]: the object, the consumer,
    [lastBlock], and the calls of [func] made so far. *)
Record iteration := mkIteration {
  it_self : Blockchain;
  it_consumer : Consumer;
  lastBlock : option Block.t;
  delivered : list (Block.t * bool)
}.

Definition with_self (c : Blockchain) (st : iteration) : iteration :=
  mkIteration c (it_consumer st) (lastBlock st) (delivered st).

(** [run(cb2)] for a truthy [blockhash]: the four steps, ending with the
    value assigned to [blockhash] ([details.child]) or with the error that
    sets it to [false]. *)
Definition run (st : iteration) (blockhash : hex) : iteration * result (option hex) :=
  (* getDetails *)
  match getDetails (it_self st) blockhash with
  | Err e => (st, Err e)
  | Thrown => (st, Thrown)
  | Ok details =>
    let c := it_self st in
    let c := set_meta (Meta.set_heads (<[name := blockhash]> (Meta.heads (meta c))) (meta c)) c in
    let st := with_self c st in
    (* getBlock *)
    match getBlock c (TagBuffer blockhash) with
    | Err e => (st, Err e)
    | Thrown => (st, Thrown)
    | Ok block =>
      (* runFunc *)
      let reorg :=
        match lastBlock st with
        | Some lb => negb (bool_decide (Block.hash lb = Block.parentHash block))
        | None => false
        end in
      let '(s, err) := func (it_consumer st) block reorg in
      let st := mkIteration c s (Some block) (delivered st ++ [(block, reorg)]) in
      match err with
      | Some e => (st, Err e)
      | None =>
        (* saveDetails *)
        let details := Details.set_mark name details in
        let c := _batchDbOps [details] [PutDetail blockhash (Some 0%nat); PutMeta] c in
        (with_self c st, Ok (Details.child details))
      end
    end
  end.

(** [async.whilst(() => blockhash, run, ...)]: the state when the loop is
    left, and [true] when it was left by the loop itself rather than by the
    fuel. *)
Fixpoint iterate (fuel : nat) (st : iteration) (blockhash : option hex)
  : iteration * bool :=
  match truthy blockhash with
  | None => (st, true)
  | Some h =>
    match fuel with
    | O => (st, false)
    | S fuel =>
      match run st h with
      | (st, Ok next) => iterate fuel st next
      | (st, _) => (st, true)
      end
    end
  end.

(** [_iterator(name, func, cb)].  The callback of [async.whilst] drops the
    error of the loop and calls [_saveMeta(cb)]. *)
Definition _iterator (fuel : nat) (c : Blockchain) (s : Consumer)
  : iteration * option iteratorEnd :=
  let st := mkIteration c s None [] in
  match truthy (js_or (Meta.heads (meta c) !! name) (Meta.genesis (meta c))) with
  | None => (st, Some (Returned (Ok tt)))
  | Some blockhash =>
    match getDetails c blockhash with
    | Err e => (st, Some (ErrorThenThrown e))
    | Thrown => (st, Some (Returned Thrown))
    | Ok d =>
      match iterate fuel st (Details.child d) with
      | (st, true) => (with_self (_saveMeta (it_self st)) st, Some (Returned (Ok tt)))
      | (st, false) => (st, None)
      end
    end
  end.

End Iterator.

(** ** The init lock and the public operations *)

Section Public.
Variable ext : Externals.
Context {Consumer : Type}.

(** A call of a public operation with its arguments. *)
Inductive call :=
| call_putGenesis (genesis : Block.t)
| call_putBlock (block : Block.t) (isGenesis : bool)
| call_putBlocks (blocks : list Block.t)
| call_getHead (name : option string)
| call_getBlock (blockTag : blockTag)
| call_getBlocks (blockId : blockTag) (maxBlocks skip : Z) (reverse : bool)
| call_getDetails (h : hex)
| call_putDetails (h : hex) (val : Details.t)
| call_selectNeededHashes (hashes : list hex)
| call_delBlock (arg : hashOrBlock)
| call_iterator (name : string)
                (onBlock : Consumer → Block.t → bool → Consumer * option error)
                (s : Consumer).

(** What the callback of a call receives. *)
Inductive answer :=
| Unit (r : result unit)
| OneBlock (r : result Block.t)
| Blocks (r : result (list Block.t))
| DetailsOf (r : result Details.t)
| Hashes (r : result (list hex))
| Iterated (delivered : list (Block.t * bool)) (e : iteratorEnd).

(** A call either has called back (or thrown: a [Thrown] result inside the
    answer), or its body waits, on the init lock or on the mutex of
    [putBlock]. *)
Inductive reply :=
| Pending
| Answered (a : answer).

(** A function handed to [self._initLock.await]: the body of [putBlock],
    with the blocks that [putBlocks] goes on with once this one is put
    (none for a call of [putBlock] itself); [runGetHead]; the body of
    [iterator]. *)
Inductive body :=
| body_putBlock (block : Block.t) (isGenesis : bool) (rest : list Block.t)
| body_runGetHead (name : string)
| body_iterator (name : string)
                (onBlock : Consumer → Block.t → bool → Consumer * option error)
                (s : Consumer).

(** The object with its init lock and its put mutex.  [metaIsNull] holds from
    the constructor until [_init] assigns [self.meta], and the [meta] field
    of [self] has no meaning while it holds; [initLock] is [true] once [go()]
    was called; [waiting] are the functions handed to [await] before that.
    [putSemaphore] is [true] when [self._putSemaphore] is taken: calls being
    run to completion, that is the case between two calls only when a put
    threw before it could leave the mutex, and then for ever. *)
Record Instance := mkInstance {
  self : Blockchain;
  metaIsNull : bool;
  initLock : bool;
  waiting : list body;
  putSemaphore : bool
}.

Definition with_chain (c : Blockchain) (i : Instance) : Instance :=
  mkInstance c (metaIsNull i) (initLock i) (waiting i) (putSemaphore i).

(** [async.eachSeries(blocks, (block, done) => self.putBlock(block, done), cb)]
    with the lock released and the mutex free: the first failure ends the
    series. *)
Fixpoint eachSeries_putBlock (fuel : nat) (blocks : list Block.t) (c : Blockchain)
  : option (Blockchain * result unit) :=
  match blocks with
  | [] => Some (c, Ok tt)
  | block :: blocks =>
    match _putBlock ext fuel block false c with
    | Some (c, Ok _) => eachSeries_putBlock fuel blocks c
    | other => other
    end
  end.

(** What the end of a put leaves of the mutex: [lockUnlock] leaves it in the
    callback that it hands to [_putBlock], so it stays taken when [_putBlock]
    throws. *)
Definition leftTaken (r : result unit) : bool :=
  match r with
  | Thrown => true
  | _ => false
  end.

(** A waiting function run on the object, [taken] telling whether the put
    mutex is taken: the object and the mutex after it, and the reply.  A put
    that finds the mutex taken waits for it. *)
Definition released (fuel : nat) (b : body) (c : Blockchain) (taken : bool)
  : option (Blockchain * bool * reply) :=
  match b with
  | body_putBlock block isGenesis rest =>
      if taken then Some (c, taken, Pending)
      else
        match _putBlock ext fuel block isGenesis c with
        | Some (c, Ok _) =>
            '(c, r) ← eachSeries_putBlock fuel rest c;
            Some (c, leftTaken r, Answered (Unit r))
        | Some (c, r) => Some (c, leftTaken r, Answered (Unit r))
        | None => None
        end
  | body_runGetHead name =>
      Some (c, taken, Answered (OneBlock (runGetHead c name)))
  | body_iterator name onBlock s =>
      match _iterator onBlock name fuel c s with
      | (st, Some e) => Some (it_self st, taken, Answered (Iterated (delivered st) e))
      | (_, None) => None
      end
  end.

(** [self._initLock.await(fn)]. *)
Definition await (fuel : nat) (fn : body) (i : Instance) : option (Instance * reply) :=
  if initLock i then
    '(c, taken, r) ← released fuel fn (self i) (putSemaphore i);
    Some (mkInstance c (metaIsNull i) (initLock i) (waiting i) taken, r)
  else
    Some (mkInstance (self i) (metaIsNull i) (initLock i) (waiting i ++ [fn])
                     (putSemaphore i), Pending).

(** The public operations that wait. *)
Definition putBlock (fuel : nat) (block : Block.t) (isGenesis : bool) (i : Instance) :=
  await fuel (body_putBlock block isGenesis []) i.

Definition putGenesis (fuel : nat) (genesis : Block.t) (i : Instance) :=
  putBlock fuel genesis true i.

(** [putBlocks] calls [putBlock] for the first block, and calls back at once
    when there is none. *)
Definition putBlocks (fuel : nat) (blocks : list Block.t) (i : Instance) :=
  match blocks with
  | [] => Some (i, Answered (Unit (Ok tt)))
  | block :: rest => await fuel (body_putBlock block false rest) i
  end.

(** [getHead(name, cb)]; [None] stands for the call [getHead(cb)], where
    [name] becomes ['vm']. *)
Definition getHead (fuel : nat) (name : option string) (i : Instance) :=
  await fuel (body_runGetHead (headName name)) i.

Definition iterator (fuel : nat) (name : string)
    (onBlock : Consumer → Block.t → bool → Consumer * option error) (s : Consumer)
    (i : Instance) :=
  await fuel (body_iterator name onBlock s) i.

(** A call made on the object.  The operations below [iterator] do not
    mention the lock; of them only [delBlock] reads [self.meta], which throws
    while it is [null]. *)
Definition invoke (fuel : nat) (cl : call) (i : Instance) : option (Instance * reply) :=
  match cl with
  | call_putGenesis genesis => putGenesis fuel genesis i
  | call_putBlock block isGenesis => putBlock fuel block isGenesis i
  | call_putBlocks blocks => putBlocks fuel blocks i
  | call_getHead name => getHead fuel name i
  | call_iterator name onBlock s => iterator fuel name onBlock s i
  | call_getBlock blockTag =>
      Some (i, Answered (OneBlock (getBlock (self i) blockTag)))
  | call_getBlocks blockId maxBlocks skip reverse =>
      r ← getBlocks fuel (self i) blockId maxBlocks skip reverse;
      Some (i, Answered (Blocks r))
  | call_getDetails h =>
      Some (i, Answered (DetailsOf (getDetails (self i) h)))
  | call_putDetails h val =>
      Some (with_chain (putDetails (self i) h val) i, Answered (Unit (Ok tt)))
  | call_selectNeededHashes hashes =>
      r ← selectNeededHashes fuel (self i) hashes;
      Some (i, Answered (Hashes r))
  | call_delBlock arg =>
      if metaIsNull i then Some (i, Answered (Unit Thrown))
      else '(c, r) ← delBlock fuel (self i) arg; Some (with_chain c i, Answered (Unit r))
  end.

(** [_setCanonicalGenesisBlock(cb)]. *)
Definition _setCanonicalGenesisBlock (fuel : nat) (c : Blockchain) :=
  _putBlock ext fuel (canonicalGenesis ext) true c.

(** [_init(cb)], from the answer of [detailsDb.get('meta')] on. *)
Definition _init (fuel : nat) (c : Blockchain) : option (Blockchain * result unit) :=
  match metaEntry (detailsDb c) with
  | None => _setCanonicalGenesisBlock fuel (set_meta Meta.default c)
  | Some m => Some (set_meta (Meta.set_td (BN_ofJSON ext (Meta.td m)) m) c, Ok tt)
  end.

(** A waiting function that throws before it returns: [runGetHead] at
    [Buffer.from].  The other functions throw, when they do, from a callback
    of a store. *)
Definition throwsAtOnce (r : reply) : bool :=
  match r with
  | Answered (OneBlock Thrown) => true
  | _ => false
  end.

(** [_initLock.go()]: the lock emits ['unlock'] and the waiting functions,
    its listeners, run in the order they came; when one of them throws at
    once the exception leaves [go()] and those behind it are not run.  The
    result holds the replies of those that ran, and [true] when one threw
    that way. *)
Fixpoint go (fuel : nat) (fns : list body) (c : Blockchain) (taken : bool)
  : option (Blockchain * bool * list reply * bool) :=
  match fns with
  | [] => Some (c, taken, [], false)
  | fn :: fns =>
    '(c, taken, r) ← released fuel fn c taken;
    if throwsAtOnce r then Some (c, taken, [r], true)
    else
      '(c, taken, replies, thrown) ← go fuel fns c taken;
      Some (c, taken, r :: replies, thrown)
  end.

(** The constructor: the options, [self.meta = null], a free mutex, a locked
    stoplight. *)
Definition construct (blockDb : gmap blockKey Block.t) (detailsDb : DetailsDb)
    (validate : option bool) : Instance :=
  mkInstance
    (mkBlockchain (match validate with Some v => v | None => true end)
                  Meta.default blockDb detailsDb)
    true false [] false.

(** The end of the constructor's [_init]: on an error the callback throws and
    the lock stays as it is; otherwise it is released, and the callback
    throws when [go()] does. *)
Definition initDone (fuel : nat) (i : Instance) : option (Instance * result (list reply)) :=
  match _init fuel (self i) with
  | None => None
  | Some (c, Ok _) =>
      '(c, taken, replies, thrown) ← go fuel (waiting i) c (putSemaphore i);
      Some (mkInstance c false true [] taken, if thrown : bool then Thrown else Ok replies)
  | Some (c, _) =>
      Some (mkInstance c false (initLock i) (waiting i) (putSemaphore i), Thrown)
  end.

End Public.

(** ** Vocabulary of the statements *)

(** The staged operation [op] writes or deletes the details of [h]. *)
Definition touchesDetail (h : hex) (op : dbOp) : Prop :=
  match op with
  | PutDetail k _ | DelDetail k => k = h
  | _ => False
  end.


(** The total difficulty that [_putBlock] computes for [block] on [c]. *)
Definition ingestedTd (c : Blockchain) (block : Block.t) (isGenesis : bool) : N :=
  totalDifficulty block isGenesis
    (match getDetails c (Block.parentHash block) with
     | Ok pd => Some pd
     | _ => None
     end).

(** The details that [rebuildInfo] builds for [block], before fork choice. *)
Definition freshDetails (c : Blockchain) (block : Block.t) (isGenesis : bool) : Details.t :=
  Details.mk (Block.parentHash block) (ingestedTd c block isGenesis) (Block.number block)
             None [] (Block.isGenesis block) false ∅.

(** What the rebuilder may stage: details of the given parent or of blocks
    that the detail store already has, and number index entries. *)
Definition rebuildOp (c : Blockchain) (parentHash : hex) (op : dbOp) : Prop :=
  match op with
  | PutDetail k (Some _) => k = parentHash ∨ is_Some (detailEntries (detailsDb c) !! k)
  | PutNumber _ _ => True
  | _ => False
  end.

(** Whether [rebuildInfo] takes the branch that moves the head. *)
Definition becomesHead (c : Blockchain) (block : Block.t) (isGenesis : bool) : bool :=
  Block.isGenesis block || (Meta.td (meta c) <? ingestedTd c block isGenesis)%N.

(** What a reorganization changes in the details of a block: its [child]
    and its [inChain] flag. *)
Definition links (c : Blockchain) (h : hex) : option (option hex * bool) :=
  match detailEntries (detailsDb c) !! h with
  | Some (Stored d) => Some (Details.child d, Details.inChain d)
  | _ => None
  end.

Section Sequences.
Variable ext : Externals.

(** Puts made one after the other, each with its [isGenesis] argument, all
    of them successful: the object at the end and the total difficulty
    computed for each block, in order. *)
Fixpoint ingestAll (fuel : nat) (puts : list (Block.t * bool)) (c : Blockchain)
  : option (Blockchain * list N) :=
  match puts with
  | [] => Some (c, [])
  | (block, isGenesis) :: rest =>
    match _putBlock ext fuel block isGenesis c with
    | Some (c', Ok _) =>
      match ingestAll fuel rest c' with
      | Some (c'', tds) => Some (c'', ingestedTd c block isGenesis :: tds)
      | None => None
      end
    | _ => None
    end
  end.

(** [meta.td] is the largest total difficulty among the blocks put. *)
Definition tdIsMaximum (fuel : nat) (puts : list (Block.t * bool)) (c : Blockchain) : Prop :=
  ∀ c' tds, ingestAll fuel puts c = Some (c', tds) →
            Meta.td (meta c') = foldr N.max 0%N tds.

End Sequences.

(** ** Example data *)

(** Collaborators that accept every block; the default genesis block has the
    difficulty of [setGenesisParams()]. *)
Definition acceptAll : Externals :=
  mkExternals (λ _ _, None) (λ _, true) (λ index _, index) (λ n, n)
              (Block.mk "d4e5" "0000" 0 17179869184 true).

Definition emptyChain : Blockchain := mkBlockchain false Meta.default ∅ emptyDetailsDb.

Definition blockG : Block.t := Block.mk "0a" "00" 0 10 true.
Definition blockG' : Block.t := Block.mk "0b" "00" 0 3 true.
Definition blockA : Block.t := Block.mk "a1" "0a" 1 5 false.
Definition blockB : Block.t := Block.mk "b1" "0a" 1 5 false.
Definition blockB' : Block.t := Block.mk "b2" "0a" 1 7 false.
Definition blockC : Block.t := Block.mk "c1" "a1" 2 4 false.

(** The object after the given puts on an empty one. *)
Definition chainAfter (puts : list (Block.t * bool)) : Blockchain :=
  match ingestAll acceptAll 8 puts emptyChain with
  | Some (c, _) => c
  | None => emptyChain
  end.

Definition chainG : Blockchain := Eval vm_compute in chainAfter [(blockG, true)].
Definition chainGA : Blockchain :=
  Eval vm_compute in chainAfter [(blockG, true); (blockA, false)].
Definition chainGAB : Blockchain :=
  Eval vm_compute in chainAfter [(blockG, true); (blockA, false); (blockB, false)].
Definition chainGAB' : Blockchain :=
  Eval vm_compute in chainAfter [(blockG, true); (blockA, false); (blockB', false)].
Definition chainGAC : Blockchain :=
  Eval vm_compute in chainAfter [(blockG, true); (blockA, false); (blockC, false)].

Section Walk.
Variable getBlock_ : blockTag → result Block.t.
Variable reverse : bool.

(** The ids that the walk of [getBlocks] looks up from a starting id on: the
    id itself, and after each block found, its number plus or minus one.
    The walk passes only through lookups that succeed, so a failing lookup
    that it reaches is the first one. *)
Inductive visits : blockTag → blockTag → Prop :=
| visits_here blockId : visits blockId blockId
| visits_next blockId block blockId' :
    getBlock_ blockId = Ok block →
    visits (TagInteger (Block.number block + (if reverse then -1 else 1))) blockId' →
    visits blockId blockId'.

End Walk.



(** An object whose init lock is released. *)
Definition opened (c : Blockchain) : @Instance unit := mkInstance c false true [] false.


Definition blockD : Block.t := Block.mk "d1" "a1" 2 4 false.

(** Genesis, A, then C and D as children of A with equal total difficulty:
    C is the [child] of A and D is in its [staleChildren]. *)
Definition chainGACD : Blockchain :=
  Eval vm_compute in
    chainAfter [(blockG, true); (blockA, false); (blockC, false); (blockD, false)].

Section Gate.
Variable ext : Externals.
Context {Consumer : Type}.


End Gate.


(** The details stored for [h], if any. *)
Definition getDetails_stored (c : Blockchain) (h : hex) : option Details.t :=
  match getDetails c h with
  | Ok d => Some d
  | _ => None
  end.

(** A staged operation that deletes. *)
Definition isDelete (op : dbOp) : Prop :=
  match op with
  | DelDetail _ | DelBlock _ => True
  | _ => False
  end.

(** ** Further vocabulary *)

(** A staged operation that leaves the block store alone. *)
Definition detailsOnly (op : dbOp) : Prop :=
  match op with
  | PutDetail _ _ | PutNumber _ _ | PutMeta => True
  | _ => False
  end.

Definition isPutMeta (op : dbOp) : bool :=
  match op with
  | PutMeta => true
  | _ => false
  end.

(** From [h], following [parent] through the stored details, a block with
    [inChain] set is met after [n] steps; the blocks before it have it
    unset. *)
Inductive reachesChain (c : Blockchain) : hex → nat → Prop :=
| reachesChain_here h d :
    getDetails c h = Ok d → Details.inChain d = true → reachesChain c h 0
| reachesChain_up h d n :
    getDetails c h = Ok d → Details.inChain d = false →
    reachesChain c (Details.parent d) n → reachesChain c h (S n).

(** [k] is [h] or is met from [h] by following [child] through the stored
    details. *)
Inductive onChildChain (c : Blockchain) : hex → hex → Prop :=
| onChildChain_here h : onChildChain c h h
| onChildChain_down h d child k :
    getDetails c h = Ok d → truthy (Details.child d) = Some child →
    onChildChain c child k → onChildChain c h k.

(** [staleChildren] has no hash twice and does not hold the [child]. *)
Definition tidy (d : Details.t) : Prop :=
  NoDup (Details.staleChildren d)
  ∧ ∀ ch, Details.child d = Some ch → ch ∉ Details.staleChildren d.

(** Collaborators that reject every block. *)
Definition rejectAll : Externals :=
  mkExternals (λ _ _, Some (External "invalid")) (λ _, false) (λ index _, index) (λ n, n)
              (Block.mk "d4e5" "0000" 0 17179869184 true).

(** [chainGAC] with the named head ['vm'] at block A. *)
Definition chainNamed : Blockchain :=
  Eval vm_compute in
    set_meta (Meta.set_heads (<["vm"%string := "a1"%string]> (Meta.heads (meta chainGAC)))
                             (meta chainGAC)) chainGAC.

(** A validator that passes every block and a verifier that refuses every
    proof of work. *)
Definition refusePOW : Externals :=
  mkExternals (λ _ _, None) (λ _, false) (λ index _, index) (λ n, n)
              (Block.mk "d4e5" "0000" 0 17179869184 true).

(** [chainG] with [validate] on. *)
Definition validatingChain : Blockchain :=
  mkBlockchain true (meta chainG) (blockDb chainG) (detailsDb chainG).

Definition blockE : Block.t := Block.mk "e1" "c1" 3 1 false.

(** [chainNamed] after the put of E, a child of C. *)
Definition chainNamedE : Blockchain :=
  Eval vm_compute in
    match _putBlock acceptAll 8 blockE false chainNamed with
    | Some (c, _) => c
    | None => chainNamed
    end.

(** [chainGACD] with the named head ['vm'] at block C. *)
Definition chainGACDNamed : Blockchain :=
  Eval vm_compute in
    set_meta (Meta.set_heads (<["vm"%string := "c1"%string]> (Meta.heads (meta chainGACD)))
                             (meta chainGACD)) chainGACD.

(** [chainGACDNamed] after [delBlock] of block A. *)
Definition chainDeleted : Blockchain :=
  Eval vm_compute in
    match delBlock 8 chainGACDNamed (OfBuffer "a1") with
    | Some (c, _) => c
    | None => chainGACDNamed
    end.


Definition blockF : Block.t := Block.mk "f1" "b1" 2 4 false.

(** [chainGAB] after the put of F, a child of the stale block B that makes
    the branch of B the heaviest. *)
Definition chainGABF : Blockchain :=
  Eval vm_compute in
    match _putBlock acceptAll 8 blockF false chainGAB with
    | Some (c, _) => c
    | None => chainGAB
    end.

(** ** Vocabulary of the amended statements *)

(** The object as the proof-of-work verifier leaves it. *)
Definition afterPOW (ext : Externals) (c : Blockchain) (block : Block.t) : Blockchain :=
  (verifyPOW ext c block).1.

(** The keys of block details that the chain rebuilder writes when it is
    started at the parent [p]: [p] itself; while the details met have
    [inChain] unset, the hash that the number index holds at their number,
    once its details are loaded; and what it writes from the next parent
    on. *)
Inductive rebuilderWrites (c : Blockchain) : hex → hex → Prop :=
| rebuilderWrites_parent p : rebuilderWrites c p p
| rebuilderWrites_stale p d staleHash sd :
    getDetails c p = Ok d → Details.inChain d = false →
    lookupNumberToHash c (Details.number d) = Ok staleHash →
    getDetails c staleHash = Ok sd →
    rebuilderWrites c p staleHash
| rebuilderWrites_up p d ppd k :
    getDetails c p = Ok d → Details.inChain d = false →
    getDetails c (Details.parent d) = Ok ppd →
    rebuilderWrites c (Details.parent d) k →
    rebuilderWrites c p k.

(** The frame of a put that does not move the head, in the words of the
    claim: for a block that is no genesis block, put with whatever
    [isGenesis], accepted, and not heavier than the head, [self.meta] and
    the number index are as before and the parent's details are the former
    ones with the hash appended to [staleChildren]. *)
Definition siblingFrame (ext : Externals) (fuel : nat) (block : Block.t)
    (isGenesis : bool) (c : Blockchain) : Prop :=
  ∀ c', Block.isGenesis block = false →
        _putBlock ext fuel block isGenesis c = Some (c', Ok tt) →
        (ingestedTd c block isGenesis ≤ Meta.td (meta c))%N →
        meta c' = meta c
        ∧ numberIndex (detailsDb c') = numberIndex (detailsDb c)
        ∧ ∃ pd, getDetails c (Block.parentHash block) = Ok pd
                ∧ getDetails c' (Block.parentHash block)
                  = Ok (Details.mk (Details.parent pd) (Details.td pd) (Details.number pd)
                          (Details.child pd)
                          (Details.staleChildren pd ++ [Block.hash block])
                          (Details.genesis pd) (Details.inChain pd) (Details.marks pd)).

(** The recorded total difficulty, in the words of the claim: the block's
    difficulty plus the [td] of the parent's details, the parent term being
    zero for a genesis block. *)
Definition tdFromParent (ext : Externals) (fuel : nat) (block : Block.t)
    (isGenesis : bool) (c : Blockchain) : Prop :=
  ∀ c', _putBlock ext fuel block isGenesis c = Some (c', Ok tt) →
        ∃ d, getDetails c' (Block.hash block) = Ok d
             ∧ Details.td d
               = (Block.difficulty block
                  + (if Block.isGenesis block then 0
                     else match getDetails c (Block.parentHash block) with
                          | Ok pd => Details.td pd
                          | _ => 0
                          end))%N.

(** [getHead(name, cb)] on an object whose lock is released, in the words of
    the claim: the block at [heads[name]] when that is set, else the block
    at [rawHead] when that is set, else the error 'No head found.'. *)
Definition headOrRawHead (ext : Externals) (fuel : nat) (name : string)
    (i : @Instance unit) : Prop :=
  getHead ext fuel (Some name) i
  = Some (i, Answered (OneBlock
       match truthy (Meta.heads (meta (self i)) !! name),
             truthy (Meta.rawHead (meta (self i))) with
       | Some h, _ => getBlock (self i) (TagBuffer h)
       | None, Some h => getBlock (self i) (TagBuffer h)
       | None, None => Err NoHeadFound
       end)).

(** The properties of block details that the file reads and writes. *)
Definition detailsFields : list string :=
  ["parent"; "td"; "number"; "child"; "staleChildren"; "genesis"; "inChain"]%string.

(** How far [bufferToInt] goes: from [2^53] on it throws. *)
Definition maxSafe : Z := 2 ^ 53.

(** A call that goes to the put mutex. *)
Definition isPut {Consumer : Type} (cl : @call Consumer) : bool :=
  match cl with
  | call_putGenesis _ | call_putBlock _ _ | call_putBlocks (_ :: _) => true
  | _ => false
  end.

(** ** Further example data *)

(** What is read back, as bytes, from a cache entry of the verifier: the text
    of a JSON object, which is the hash of no block. *)
Definition epochCache : hex := "7b7d".

(** Collaborators that pass every block, the verifier leaving the cache of
    the block's epoch, of 30000 numbers, under the number of the epoch. *)
Definition cachingVerifier : Externals :=
  mkExternals (λ _ _, None) (λ _, true)
              (λ index block, <[Block.number block / 30000 := epochCache]> index)
              (λ n, n) (Block.mk "d4e5" "0000" 0 17179869184 true).

(** [chainGA] with [validate] on. *)
Definition validatingChainGA : Blockchain :=
  mkBlockchain true (meta chainGA) (blockDb chainGA) (detailsDb chainGA).

(** A block whose parent was put off the chain at a number that the number
    index does not hold. *)
Definition blockP : Block.t := Block.mk "p5" "0a" 5 1 false.
Definition blockQ : Block.t := Block.mk "q6" "p5" 6 10 false.

(** [chainGA] after the put of P, a light child of the genesis block. *)
Definition chainGAP : Blockchain :=
  Eval vm_compute in
    match _putBlock acceptAll 8 blockP false chainGA with
    | Some (c, _) => c
    | None => chainGA
    end.

(** A child of A heavier than the head of [chainGA]. *)
Definition blockH : Block.t := Block.mk "h1" "a1" 2 20 false.

(** A validator that passes every block and a verifier that refuses every
    proof of work, leaving its cache as [cachingVerifier] does. *)
Definition refusingVerifier : Externals :=
  mkExternals (λ _ _, None) (λ _, false)
              (λ index block, <[Block.number block / 30000 := epochCache]> index)
              (λ n, n) (Block.mk "d4e5" "0000" 0 17179869184 true).
(** * Properties *)

(** ** The batch writer *)

Lemma applyOp_meta hp m c op : meta (applyOp hp m c op) = meta c.
Proof. destruct op; reflexivity. Qed.

Lemma fold_applyOp_meta hp m ops c : meta (fold_left (applyOp hp m) ops c) = meta c.
Proof.
  revert c. induction ops as [|op ops IH]; intros c; simpl; [reflexivity|].
  rewrite IH. apply applyOp_meta.
Qed.

Lemma _batchDbOps_meta hp ops c : meta (_batchDbOps hp ops c) = meta c.
Proof. apply fold_applyOp_meta. Qed.

Lemma fold_applyOp_detail_frame hp m ops c h :
  Forall (λ op, ¬ touchesDetail h op) ops →
  detailEntries (detailsDb (fold_left (applyOp hp m) ops c)) !! h
  = detailEntries (detailsDb c) !! h.
Proof.
  revert c. induction ops as [|op ops IH]; intros c Hall; simpl; [reflexivity|].
  inversion Hall as [|? ? Hop Hrest]; subst.
  rewrite IH by assumption.
  destruct op; simpl in *; try reflexivity.
  - rewrite lookup_insert_ne; [reflexivity | congruence].
  - rewrite lookup_delete_ne; [reflexivity | congruence].
Qed.

(** ** Ingestion *)

Section IngestionFacts.
Variable ext : Externals.

(** The verifier writes under the decimal keys only, and only for a block
    that is no genesis block on an object that validates. *)
Lemma afterPOW_validate c block : validate (afterPOW ext c block) = validate c.
Proof.
  unfold afterPOW, verifyPOW.
  destruct (validate c) eqn:Hv; [destruct (Block.isGenesis block)|];
    simpl; rewrite ?Hv; reflexivity.
Qed.

Lemma afterPOW_meta c block : meta (afterPOW ext c block) = meta c.
Proof.
  unfold afterPOW, verifyPOW.
  destruct (validate c) eqn:Hv; [destruct (Block.isGenesis block)|];
    simpl; rewrite ?Hv; reflexivity.
Qed.

Lemma afterPOW_blockDb c block : blockDb (afterPOW ext c block) = blockDb c.
Proof.
  unfold afterPOW, verifyPOW.
  destruct (validate c) eqn:Hv; [destruct (Block.isGenesis block)|];
    simpl; rewrite ?Hv; reflexivity.
Qed.

Lemma afterPOW_metaEntry c block :
  metaEntry (detailsDb (afterPOW ext c block)) = metaEntry (detailsDb c).
Proof.
  unfold afterPOW, verifyPOW.
  destruct (validate c) eqn:Hv; [destruct (Block.isGenesis block)|];
    simpl; rewrite ?Hv; reflexivity.
Qed.

Lemma afterPOW_detailEntries c block :
  detailEntries (detailsDb (afterPOW ext c block)) = detailEntries (detailsDb c).
Proof.
  unfold afterPOW, verifyPOW.
  destruct (validate c) eqn:Hv; [destruct (Block.isGenesis block)|];
    simpl; rewrite ?Hv; reflexivity.
Qed.

Lemma afterPOW_quotedMetaEntry c block :
  quotedMetaEntry (detailsDb (afterPOW ext c block)) = quotedMetaEntry (detailsDb c).
Proof.
  unfold afterPOW, verifyPOW.
  destruct (validate c) eqn:Hv; [destruct (Block.isGenesis block)|];
    simpl; rewrite ?Hv; reflexivity.
Qed.

Lemma afterPOW_numberIndex c block :
  numberIndex (detailsDb (afterPOW ext c block))
  = if validate c && negb (Block.isGenesis block)
    then vapash_cache ext (numberIndex (detailsDb c)) block
    else numberIndex (detailsDb c).
Proof.
  unfold afterPOW, verifyPOW.
  destruct (validate c) eqn:Hv; [destruct (Block.isGenesis block)|];
    simpl; rewrite ?Hv; reflexivity.
Qed.

Lemma afterPOW_off c block : validate c = false → afterPOW ext c block = c.
Proof. intros H. unfold afterPOW, verifyPOW. rewrite H. reflexivity. Qed.

Lemma afterPOW_genesis c block : Block.isGenesis block = true → afterPOW ext c block = c.
Proof.
  intros H. unfold afterPOW, verifyPOW. rewrite H. destruct (validate c); reflexivity.
Qed.

Lemma afterPOW_getDetails c block h : getDetails (afterPOW ext c block) h = getDetails c h.
Proof. unfold getDetails. rewrite afterPOW_detailEntries. reflexivity. Qed.

Lemma afterPOW_ingestedTd c block b isGenesis :
  ingestedTd (afterPOW ext c block) b isGenesis = ingestedTd c b isGenesis.
Proof. unfold ingestedTd. rewrite afterPOW_getDetails. reflexivity. Qed.

Lemma afterPOW_freshDetails c block b isGenesis :
  freshDetails (afterPOW ext c block) b isGenesis = freshDetails c b isGenesis.
Proof. unfold freshDetails. rewrite afterPOW_ingestedTd. reflexivity. Qed.

Lemma afterPOW_becomesHead c block b isGenesis :
  becomesHead (afterPOW ext c block) b isGenesis = becomesHead c b isGenesis.
Proof. unfold becomesHead. rewrite afterPOW_meta, afterPOW_ingestedTd. reflexivity. Qed.

Lemma afterPOW_links c block h : links (afterPOW ext c block) h = links c h.
Proof. unfold links. rewrite afterPOW_detailEntries. reflexivity. Qed.

(** A successful [_putBlock] is a successful run of the last three tasks on
    the object as the verifier left it. *)
Lemma _putBlock_verified fuel block isGenesis c c' :
  _putBlock ext fuel block isGenesis c = Some (c', Ok tt) →
  putVerified fuel block isGenesis (afterPOW ext c block) = Some (c', Ok tt).
Proof.
  unfold _putBlock, afterPOW. intros H.
  destruct (verify ext c block isGenesis); [discriminate|].
  destruct (verifyPOW ext c block) as [c1 [e|]]; [discriminate|exact H].
Qed.

(** How a [_putBlock] that does not succeed ends: at [verify], at
    [verifyPOW], or in the last three tasks. *)
Lemma _putBlock_cases fuel block isGenesis c :
  (∃ e, verify ext c block isGenesis = Some e
        ∧ _putBlock ext fuel block isGenesis c = Some (c, Err e))
  ∨ (verify ext c block isGenesis = None
     ∧ validate c = true ∧ Block.isGenesis block = false
     ∧ vapash_verifyPOW ext block = false
     ∧ _putBlock ext fuel block isGenesis c = Some (afterPOW ext c block, Err InvalidPOW))
  ∨ (verify ext c block isGenesis = None
     ∧ _putBlock ext fuel block isGenesis c
       = putVerified fuel block isGenesis (afterPOW ext c block)).
Proof.
  unfold _putBlock, afterPOW.
  destruct (verify ext c block isGenesis) as [e|]; [left; eauto|]. right.
  unfold verifyPOW.
  destruct (validate c); [|right; split; reflexivity].
  destruct (Block.isGenesis block); [right; split; reflexivity|].
  cbn [negb fst].
  destruct (vapash_verifyPOW ext block); [right; split; reflexivity|].
  left. repeat split; reflexivity.
Qed.

End IngestionFacts.

Create Rewrite HintDb afterPOW.
#[local] Hint Rewrite afterPOW_validate afterPOW_meta afterPOW_blockDb afterPOW_metaEntry
  afterPOW_detailEntries afterPOW_quotedMetaEntry afterPOW_getDetails afterPOW_ingestedTd
  afterPOW_freshDetails afterPOW_becomesHead afterPOW_links : afterPOW.

Section VerifiedFacts.

(** A successful run of the last three tasks went through [rebuildInfo] and
    the batch. *)
Lemma putVerified_Ok fuel block isGenesis c c' :
  putVerified fuel block isGenesis c = Some (c', Ok tt) →
  ∃ parentDetails m hp ops,
    lookupParentBlock c block isGenesis = Ok parentDetails
    ∧ rebuildInfo fuel c block isGenesis parentDetails = (m, Some (Ok (hp, ops)))
    ∧ c' = _batchDbOps hp ops (set_meta m c).
Proof.
  unfold putVerified. intros H.
  destruct (lookupParentBlock c block isGenesis) as [pd| |]; try discriminate.
  destruct (rebuildInfo fuel c block isGenesis pd) as [m [[[hp ops]| |]|]] eqn:E;
    try discriminate.
  injection H as <-. eauto 10.
Qed.

Lemma lookupParentBlock_false c block pd :
  lookupParentBlock c block false = Ok pd →
  ∃ d, pd = Some d ∧ getDetails c (Block.parentHash block) = Ok d.
Proof.
  unfold lookupParentBlock. destruct (getDetails c (Block.parentHash block)) as [d| |];
    try discriminate.
  intros [= <-]. eauto.
Qed.

End VerifiedFacts.

Section ForkChoice.

Lemma ingestedTd_parent c block pd :
  getDetails c (Block.parentHash block) = Ok pd →
  ingestedTd c block false = (Block.difficulty block + Details.td pd)%N.
Proof. unfold ingestedTd. intros ->. reflexivity. Qed.

(** The state after a run of the last three tasks that does not move the
    head, [isGenesis] unset. *)
Lemma sibling_put_core fuel block c c' :
  Block.isGenesis block = false →
  putVerified fuel block false c = Some (c', Ok tt) →
  (ingestedTd c block false ≤ Meta.td (meta c))%N →
  ∃ pd,
    getDetails c (Block.parentHash block) = Ok pd
    ∧ meta c' = meta c
    ∧ metaEntry (detailsDb c') = metaEntry (detailsDb c)
    ∧ numberIndex (detailsDb c') = numberIndex (detailsDb c)
    ∧ quotedMetaEntry (detailsDb c') = quotedMetaEntry (detailsDb c)
    ∧ blockDb c' = <[BufferKey (Block.hash block) := block]> (blockDb c)
    ∧ detailEntries (detailsDb c')
      = <[Block.parentHash block :=
            Stored (Details.mk (Details.parent pd) (Details.td pd) (Details.number pd)
                      (Details.child pd)
                      (Details.staleChildren pd ++ [Block.hash block])
                      (Details.genesis pd) (Details.inChain pd) (Details.marks pd))]>
          (<[Block.hash block :=
               Stored (Details.mk (Block.parentHash block)
                         (Block.difficulty block + Details.td pd) (Block.number block)
                         None [] false false ∅)]>
             (detailEntries (detailsDb c))).
Proof.
  intros Hgen Hput Hle.
  apply putVerified_Ok in Hput as (parentDetails & m & hp & ops & Hpar & Hinfo & ->).
  apply lookupParentBlock_false in Hpar as (pd & -> & Hpd).
  exists pd. split; [exact Hpd|].
  rewrite (ingestedTd_parent _ _ _ Hpd) in *.
  unfold rebuildInfo in Hinfo. rewrite Hgen in Hinfo. simpl in Hinfo.
  apply N.ltb_ge in Hle. rewrite Hle in Hinfo.
  injection Hinfo as <- <- <-.
  repeat split; reflexivity.
Qed.

(** The state after a successful run of the last three tasks with
    [isGenesis] set, for a block that is no genesis block: the block is not
    heavier than the head, and the put of [parentDetails], which is
    [undefined], leaves the details of the parent hash undecodable. *)
Lemma flagged_put_core fuel block c c' :
  Block.isGenesis block = false →
  putVerified fuel block true c = Some (c', Ok tt) →
  (Block.difficulty block ≤ Meta.td (meta c))%N
  ∧ meta c' = meta c
  ∧ metaEntry (detailsDb c') = metaEntry (detailsDb c)
  ∧ numberIndex (detailsDb c') = numberIndex (detailsDb c)
  ∧ quotedMetaEntry (detailsDb c') = quotedMetaEntry (detailsDb c)
  ∧ blockDb c' = <[BufferKey (Block.hash block) := block]> (blockDb c)
  ∧ detailEntries (detailsDb c')
    = <[Block.parentHash block := Undecodable]>
        (<[Block.hash block :=
             Stored (Details.mk (Block.parentHash block) (Block.difficulty block)
                       (Block.number block) None [] false false ∅)]>
           (detailEntries (detailsDb c))).
Proof.
  intros Hgen Hput.
  apply putVerified_Ok in Hput as (parentDetails & m & hp & ops & Hpar & Hinfo & ->).
  unfold lookupParentBlock in Hpar. injection Hpar as <-.
  unfold rebuildInfo in Hinfo. rewrite Hgen in Hinfo.
  cbn [totalDifficulty orb] in Hinfo.
  destruct (Meta.td (meta c) <? Block.difficulty block)%N eqn:Hlt.
  - destruct fuel; discriminate.
  - injection Hinfo as <- <- <-. apply N.ltb_ge in Hlt.
    repeat split; solve [reflexivity | exact Hlt].
Qed.

End ForkChoice.

(** ** The chain rebuilder *)

Lemma getDetails_Ok c h d :
  getDetails c h = Ok d → detailEntries (detailsDb c) !! h = Some (Stored d).
Proof.
  unfold getDetails. destruct (detailEntries (detailsDb c) !! h) as [[d'|]|];
    try discriminate.
  intros [= ->]. reflexivity.
Qed.

Lemma relink_fields hash d :
  Details.inChain (relink hash d) = Details.inChain d
  ∧ Details.parent (relink hash d) = Details.parent d
  ∧ Details.number (relink hash d) = Details.number d
  ∧ Details.child (relink hash d) = Some hash.
Proof.
  unfold relink. cbn.
  destruct (truthy (Details.child d)) as [ch|]; [destruct (decide (ch = hash))|];
    repeat split; reflexivity.
Qed.

Lemma rebuildOp_stored c p q op :
  is_Some (detailEntries (detailsDb c) !! p) → rebuildOp c p op → rebuildOp c q op.
Proof.
  intros Hp. destruct op as [k [v|]| | | | |]; simpl; try tauto.
  intros [->|H]; right; assumption.
Qed.

(** The rebuilder appends to the staged operations, stages only what
    [rebuildOp] allows, and leaves alone every heap cell but the parent's. *)
Lemma _rebuildBlockchain_inv fuel c :
  ∀ hash parentHash r (hp : heap) ops hp' ops',
    _rebuildBlockchain fuel c hash parentHash (Some r) hp ops = Some (Ok (hp', ops')) →
    ∃ new,
      ops' = ops ++ new
      ∧ Forall (rebuildOp c parentHash) new
      ∧ ∀ j, j ≠ r → (j < length hp)%nat → hp' !! j = hp !! j.
Proof.
  induction fuel as [|fuel IH]; intros hash parentHash r hp ops hp' ops' H;
    cbn [_rebuildBlockchain] in H; [discriminate|].
  destruct (hp !! r) as [pd|] eqn:Hr; [|discriminate].
  destruct (Details.inChain (relink hash pd)) eqn:Hin.
  - injection H as <- <-.
    exists [PutDetail parentHash (Some r)]. split; [reflexivity|]. split.
    + constructor; [left; reflexivity | constructor].
    + intros j Hj _. apply list_lookup_insert_ne. congruence.
  - destruct (lookupNumberToHash c _) as [staleHash| |]; try discriminate.
    destruct (getDetails c staleHash) as [sd| |] eqn:Hs; try discriminate.
    destruct (getDetails c (Details.parent _)) as [ppd| |] eqn:Hpp; try discriminate.
    apply IH in H as (new & -> & Hnew & Hframe).
    eexists (_ :: _ :: _ :: new). split; [by rewrite <- !app_assoc|]. split.
    + constructor; [left; reflexivity|].
      constructor; [exact I|].
      constructor; [right; erewrite getDetails_Ok by exact Hs; eauto|].
      eapply Forall_impl; [exact Hnew|]. intros op.
      apply rebuildOp_stored. erewrite getDetails_Ok by exact Hpp. eauto.
    + intros j Hj Hlt. rewrite Hframe.
      * rewrite lookup_app_l by (rewrite length_app, length_insert; lia).
        rewrite lookup_app_l by (rewrite length_insert; lia).
        apply list_lookup_insert_ne. congruence.
      * rewrite length_app, length_insert. simpl. lia.
      * rewrite !length_app, length_insert. simpl. lia.
Qed.

(** The details that the rebuilder stages are those of [rebuilderWrites],
    when it starts from a heap cell that agrees with the stored details of
    the parent on [inChain], [parent] and [number]. *)
Lemma _rebuildBlockchain_writes fuel c :
  ∀ hash parentHash r (hp : heap) ops hp' ops' pd d,
    hp !! r = Some pd →
    getDetails c parentHash = Ok d →
    Details.inChain pd = Details.inChain d →
    Details.parent pd = Details.parent d →
    Details.number pd = Details.number d →
    _rebuildBlockchain fuel c hash parentHash (Some r) hp ops = Some (Ok (hp', ops')) →
    ∃ new,
      ops' = ops ++ new
      ∧ Forall (λ op, ∀ k, touchesDetail k op → rebuilderWrites c parentHash k) new.
Proof.
  induction fuel as [|fuel IH];
    intros hash parentHash r hp ops hp' ops' pd d Hr Hd Hin Hpar Hnum H;
    cbn [_rebuildBlockchain] in H; [discriminate|].
  rewrite Hr in H.
  destruct (relink_fields hash pd) as (Hri & Hrp & Hrn & _).
  destruct (Details.inChain (relink hash pd)) eqn:Hin'.
  - injection H as <- <-.
    exists [PutDetail parentHash (Some r)]. split; [reflexivity|].
    constructor; [|constructor]. intros k Hk. simpl in Hk. subst k. constructor.
  - assert (Hd_in : Details.inChain d = false) by congruence.
    cbn [Details.number Details.parent Details.set_inChain] in H.
    rewrite Hrn, Hnum, Hrp, Hpar in H.
    destruct (lookupNumberToHash c (Details.number d)) as [staleHash| |] eqn:Hn;
      try discriminate.
    destruct (getDetails c staleHash) as [sd| |] eqn:Hs; try discriminate.
    destruct (getDetails c (Details.parent d)) as [ppd| |] eqn:Hpp; try discriminate.
    eapply IH in H as (new & -> & Hnew);
      [|rewrite lookup_app_r by lia; rewrite Nat.sub_diag; reflexivity
       |exact Hpp|reflexivity|reflexivity|reflexivity].
    eexists (_ :: _ :: _ :: new). split; [by rewrite <- !app_assoc|].
    constructor; [intros k Hk; simpl in Hk; subst k; constructor|].
    constructor; [intros k Hk; destruct Hk|].
    constructor.
    + intros k Hk. simpl in Hk. subst k.
      eapply rebuilderWrites_stale; eassumption.
    + eapply Forall_impl; [exact Hnew|]. intros op Hop k Hk.
      eapply rebuilderWrites_up; eauto.
Qed.

(** A block without stored details is none of those whose details the
    rebuilder writes, unless it is the parent it starts from. *)
Lemma fresh_not_written c p k :
  detailEntries (detailsDb c) !! k = None → k ≠ p → ¬ rebuilderWrites c p k.
Proof.
  intros Hfresh Hne Hw. induction Hw as [p|p d s sd Hd Hin Hn Hs|p d ppd k Hd Hin Hpp Hw IH].
  - contradiction.
  - apply getDetails_Ok in Hs. congruence.
  - apply IH; [assumption|]. intros ->. apply getDetails_Ok in Hpp. congruence.
Qed.

Section OwnRecord.

Lemma ingestedTd_genesis c block : ingestedTd c block true = Block.difficulty block.
Proof. reflexivity. Qed.

Lemma own_detail_written hp m c hash v rest :
  Forall (λ op, ¬ touchesDetail hash op) rest →
  detailEntries (detailsDb (fold_left (applyOp hp m) (PutDetail hash v :: rest) c)) !! hash
  = Some (match v ≫= (hp !!.) with Some d => Stored d | None => Undecodable end).
Proof.
  intros Hrest. simpl. rewrite fold_applyOp_detail_frame by assumption.
  simpl. apply lookup_insert_eq.
Qed.

(** What a successful run of the last three tasks leaves under the block's
    own key when the rebuilder does not write there: the details built by
    [rebuildInfo], with [inChain] set exactly when the head moved. *)
Lemma own_record_core fuel block isGenesis c c' :
  putVerified fuel block isGenesis c = Some (c', Ok tt) →
  ¬ rebuilderWrites c (Block.parentHash block) (Block.hash block) →
  detailEntries (detailsDb c') !! Block.hash block
  = Some (Stored (Details.set_inChain (becomesHead c block isGenesis)
                                      (freshDetails c block isGenesis))).
Proof.
  intros Hput Hnw.
  assert (Hne : Block.hash block ≠ Block.parentHash block).
  { intros Heq. apply Hnw. rewrite Heq. constructor. }
  apply putVerified_Ok in Hput as (parentDetails & m & hp & ops & Hpar & Hinfo & ->).
  unfold becomesHead, freshDetails.
  destruct isGenesis.
  - unfold lookupParentBlock in Hpar. injection Hpar as <-.
    unfold rebuildInfo in Hinfo. cbn [totalDifficulty] in Hinfo. rewrite ingestedTd_genesis.
    destruct (Block.isGenesis block) eqn:Hg; cbn [orb] in *.
    + injection Hinfo as <- <- <-. unfold _batchDbOps.
      rewrite own_detail_written; [reflexivity|].
      repeat constructor; simpl; tauto.
    + destruct (Meta.td (meta c) <? Block.difficulty block)%N eqn:Hlt.
      * destruct fuel; discriminate.
      * injection Hinfo as <- <- <-. unfold _batchDbOps.
        rewrite own_detail_written; [reflexivity|].
        repeat constructor; simpl; try tauto. congruence.
  - apply lookupParentBlock_false in Hpar as (pd & -> & Hpd).
    rewrite (ingestedTd_parent _ _ _ Hpd).
    unfold rebuildInfo in Hinfo. cbn [totalDifficulty] in Hinfo.
    destruct (Block.isGenesis block) eqn:Hg; cbn [orb] in *.
    + injection Hinfo as <- <- <-. unfold _batchDbOps.
      rewrite own_detail_written; [reflexivity|].
      repeat constructor; simpl; tauto.
    + destruct (Meta.td (meta c) <? Block.difficulty block + Details.td pd)%N eqn:Hlt.
      * injection Hinfo as <- Hre.
        pose proof Hre as Hre'.
        apply _rebuildBlockchain_inv in Hre as (new & -> & Hnew & Hframe).
        eapply _rebuildBlockchain_writes in Hre' as (new' & Heq & Hw);
          [|reflexivity|exact Hpd|reflexivity|reflexivity|reflexivity].
        apply app_inv_head in Heq. subst new'.
        unfold _batchDbOps. cbn [app]. rewrite own_detail_written.
        -- cbn [mbind option_bind]. rewrite (Hframe 1%nat) by (simpl; lia). reflexivity.
        -- repeat (constructor; [simpl; tauto|]).
           eapply Forall_impl; [exact Hw|]. intros op Hop Htouch.
           apply Hnw, Hop, Htouch.
      * injection Hinfo as <- <- <-. unfold _batchDbOps.
        rewrite own_detail_written; [reflexivity|].
        repeat constructor; simpl; try tauto. congruence.
Qed.

End OwnRecord.

(** ** Fork choice *)

Section ForkChoiceCore.

(** [self.meta] after a successful run of the last three tasks, [isGenesis]
    unset, for a block that is not a genesis block. *)
Lemma put_meta_core fuel block c c' :
  Block.isGenesis block = false →
  putVerified fuel block false c = Some (c', Ok tt) →
  meta c' =
    if (Meta.td (meta c) <? ingestedTd c block false)%N then
      Meta.set_td (ingestedTd c block false)
        (Meta.set_height (Some (Block.number block))
           (Meta.set_rawHead (Some (Block.hash block)) (meta c)))
    else meta c.
Proof.
  intros Hgen Hput.
  apply putVerified_Ok in Hput as (parentDetails & m & hp & ops & Hpar & Hinfo & ->).
  apply lookupParentBlock_false in Hpar as (pd & -> & Hpd).
  rewrite _batchDbOps_meta. cbn [meta set_meta].
  rewrite (ingestedTd_parent _ _ _ Hpd).
  unfold rebuildInfo in Hinfo. rewrite Hgen in Hinfo.
  cbn [totalDifficulty orb] in Hinfo.
  destruct (Meta.td (meta c) <? Block.difficulty block + Details.td pd)%N;
    injection Hinfo as <- _; reflexivity.
Qed.

Lemma put_td_core fuel block isGenesis c c' :
  Block.isGenesis block = false →
  putVerified fuel block isGenesis c = Some (c', Ok tt) →
  Meta.td (meta c') = N.max (Meta.td (meta c)) (ingestedTd c block isGenesis).
Proof.
  intros Hgen Hput. destruct isGenesis.
  - destruct (flagged_put_core _ _ _ _ Hgen Hput) as (Hle & -> & _).
    rewrite ingestedTd_genesis. lia.
  - rewrite (put_meta_core _ _ _ _ Hgen Hput).
    generalize (ingestedTd c block false). intros td.
    destruct (Meta.td (meta c) <? td)%N eqn:Hlt.
    + apply N.ltb_lt in Hlt. cbn [Meta.td Meta.set_td]. lia.
    + apply N.ltb_ge in Hlt. lia.
Qed.

(** A genesis block always moves the head. *)
Lemma genesis_put_td_core fuel block isGenesis c c' :
  Block.isGenesis block = true →
  putVerified fuel block isGenesis c = Some (c', Ok tt) →
  Meta.td (meta c') = ingestedTd c block isGenesis.
Proof.
  intros Hgen Hput.
  apply putVerified_Ok in Hput as (parentDetails & m & hp & ops & Hpar & Hinfo & ->).
  rewrite _batchDbOps_meta. cbn [meta set_meta].
  destruct isGenesis.
  - unfold lookupParentBlock in Hpar. injection Hpar as <-.
    unfold rebuildInfo in Hinfo. rewrite Hgen in Hinfo. cbn [orb] in Hinfo.
    injection Hinfo as <- _. reflexivity.
  - apply lookupParentBlock_false in Hpar as (pd & -> & Hpd).
    rewrite (ingestedTd_parent _ _ _ Hpd).
    unfold rebuildInfo in Hinfo. rewrite Hgen in Hinfo. cbn [orb] in Hinfo.
    injection Hinfo as <- _. reflexivity.
Qed.

End ForkChoiceCore.

Section ForkChoiceClaims.
Variable ext : Externals.

(** What a successful put leaves under the block's own key when the
    rebuilder does not write there. *)
Lemma own_record fuel block isGenesis c c' :
  _putBlock ext fuel block isGenesis c = Some (c', Ok tt) →
  ¬ rebuilderWrites (afterPOW ext c block) (Block.parentHash block) (Block.hash block) →
  detailEntries (detailsDb c') !! Block.hash block
  = Some (Stored (Details.set_inChain (becomesHead c block isGenesis)
                                      (freshDetails c block isGenesis))).
Proof.
  intros Hput Hnw. apply _putBlock_verified in Hput.
  rewrite (own_record_core _ _ _ _ _ Hput Hnw).
  autorewrite with afterPOW. reflexivity.
Qed.

(** A block that was not stored before has its own key to itself (when
    [isGenesis] is set: provided it is not given as its own parent). *)
Lemma fresh_own_key fuel block isGenesis c c' :
  _putBlock ext fuel block isGenesis c = Some (c', Ok tt) →
  detailEntries (detailsDb c) !! Block.hash block = None →
  (isGenesis = true → Block.hash block ≠ Block.parentHash block) →
  ¬ rebuilderWrites (afterPOW ext c block) (Block.parentHash block) (Block.hash block).
Proof.
  intros Hput Hfresh Hne.
  apply fresh_not_written; [rewrite afterPOW_detailEntries; exact Hfresh|].
  destruct isGenesis; [auto|].
  intros Heq.
  apply _putBlock_verified, putVerified_Ok in Hput
    as (parentDetails & _ & _ & _ & Hpar & _).
  apply lookupParentBlock_false in Hpar as (pd & _ & Hpd).
  apply getDetails_Ok in Hpd. rewrite afterPOW_detailEntries in Hpd. congruence.
Qed.

(** The number index as the verifier leaves it for a block that is no
    genesis block. *)
Lemma afterPOW_index c block :
  Block.isGenesis block = false →
  numberIndex (detailsDb (afterPOW ext c block))
  = if validate c then vapash_cache ext (numberIndex (detailsDb c)) block
    else numberIndex (detailsDb c).
Proof. intros Hgen. rewrite afterPOW_numberIndex, Hgen, andb_true_r. reflexivity. Qed.

(** C7, as amended: a block that is not a genesis block, put with
    [isGenesis] unset, whose total difficulty does not exceed [meta.td],
    leaves [self.meta], the stored meta and the key of [_saveMeta] as they
    were; the block store gains the block; the detail store gains the
    block's own details and the parent's details, which are the former ones
    with the hash appended to [staleChildren], and no other details change.
    The put itself writes no entry of the number index: the index is as
    before when [validate] is off, and as the proof-of-work verifier left it
    when [validate] is on. *)
Theorem sibling_put_frame fuel block c c' :
  Block.isGenesis block = false →
  _putBlock ext fuel block false c = Some (c', Ok tt) →
  (ingestedTd c block false ≤ Meta.td (meta c))%N →
  ∃ pd,
    getDetails c (Block.parentHash block) = Ok pd
    ∧ meta c' = meta c
    ∧ metaEntry (detailsDb c') = metaEntry (detailsDb c)
    ∧ quotedMetaEntry (detailsDb c') = quotedMetaEntry (detailsDb c)
    ∧ numberIndex (detailsDb c')
      = (if validate c then vapash_cache ext (numberIndex (detailsDb c)) block
         else numberIndex (detailsDb c))
    ∧ blockDb c' = <[BufferKey (Block.hash block) := block]> (blockDb c)
    ∧ detailEntries (detailsDb c')
      = <[Block.parentHash block :=
            Stored (Details.mk (Details.parent pd) (Details.td pd) (Details.number pd)
                      (Details.child pd)
                      (Details.staleChildren pd ++ [Block.hash block])
                      (Details.genesis pd) (Details.inChain pd) (Details.marks pd))]>
          (<[Block.hash block :=
               Stored (Details.mk (Block.parentHash block)
                         (Block.difficulty block + Details.td pd) (Block.number block)
                         None [] false false ∅)]>
             (detailEntries (detailsDb c))).
Proof.
  intros Hgen Hput Hle. apply _putBlock_verified in Hput.
  rewrite <- (afterPOW_ingestedTd ext c block), <- (afterPOW_meta ext c block) in Hle.
  destruct (sibling_put_core _ _ _ _ Hgen Hput Hle)
    as (pd & Hpd & Hm & He & Hn & Hq & Hb & Hd).
  autorewrite with afterPOW in *. rewrite (afterPOW_index _ _ Hgen) in Hn.
  exists pd. repeat (split; [assumption|]). assumption.
Qed.

(** C8, as amended: after a successful put of a block that was not stored
    before (and is not given as its own parent), the [td] of its stored
    details is its own difficulty when [isGenesis] was passed, whether the
    block is a genesis block or not, and its own difficulty plus the [td] of
    the parent's stored details when it was not. *)
Theorem recorded_td fuel block isGenesis c c' :
  _putBlock ext fuel block isGenesis c = Some (c', Ok tt) →
  detailEntries (detailsDb c) !! Block.hash block = None →
  Block.hash block ≠ Block.parentHash block →
  ∃ d,
    detailEntries (detailsDb c') !! Block.hash block = Some (Stored d)
    ∧ if isGenesis then Details.td d = Block.difficulty block
      else ∃ pd, getDetails c (Block.parentHash block) = Ok pd
                 ∧ Details.td d = (Block.difficulty block + Details.td pd)%N.
Proof.
  intros Hput Hfresh Hne.
  pose proof (own_record _ _ _ _ _ Hput
                (fresh_own_key _ _ _ _ _ Hput Hfresh (λ _, Hne))) as Hown.
  eexists. split; [exact Hown|].
  destruct isGenesis; [reflexivity|].
  apply _putBlock_verified, putVerified_Ok in Hput
    as (parentDetails & _ & _ & _ & Hpar & _).
  apply lookupParentBlock_false in Hpar as (pd & _ & Hpd).
  rewrite afterPOW_getDetails in Hpd.
  exists pd. split; [exact Hpd|].
  cbn. apply ingestedTd_parent, Hpd.
Qed.


(** ** The head's total difficulty over a sequence of puts *)

Lemma put_td fuel block isGenesis c c' :
  Block.isGenesis block = false →
  _putBlock ext fuel block isGenesis c = Some (c', Ok tt) →
  Meta.td (meta c') = N.max (Meta.td (meta c)) (ingestedTd c block isGenesis).
Proof.
  intros Hgen Hput. apply _putBlock_verified in Hput.
  rewrite (put_td_core _ _ _ _ _ Hgen Hput). autorewrite with afterPOW. reflexivity.
Qed.

(** A genesis block always moves the head. *)
Lemma genesis_put_td fuel block isGenesis c c' :
  Block.isGenesis block = true →
  _putBlock ext fuel block isGenesis c = Some (c', Ok tt) →
  Meta.td (meta c') = ingestedTd c block isGenesis.
Proof.
  intros Hgen Hput. apply _putBlock_verified in Hput.
  rewrite (genesis_put_td_core _ _ _ _ _ Hgen Hput). autorewrite with afterPOW. reflexivity.
Qed.

Lemma ingestAll_later_puts fuel puts :
  Forall (λ p : Block.t * bool, Block.isGenesis p.1 = false) puts →
  ∀ c c' tds,
    ingestAll ext fuel puts c = Some (c', tds) →
    Meta.td (meta c') = N.max (Meta.td (meta c)) (foldr N.max 0%N tds).
Proof.
  induction 1 as [|[block flag] puts Hgen _ IH]; intros c c' tds Hall; simpl in *.
  - injection Hall as <- <-. simpl. lia.
  - destruct (_putBlock ext fuel block flag c) as [[c1 [[]| |]]|] eqn:Hput;
      try discriminate.
    destruct (ingestAll ext fuel puts c1) as [[c2 tds2]|] eqn:Hrest; try discriminate.
    injection Hall as <- <-.
    rewrite (IH _ _ _ Hrest), (put_td _ _ _ _ _ Hgen Hput). simpl. lia.
Qed.

(** C2, as amended: over every sequence of successful puts that begins with
    a genesis block and holds no other genesis block, [meta.td] at the end is
    the largest total difficulty among the blocks put.  (Every prefix of such
    a sequence is one, which gives the statement at every point.) *)
Theorem td_is_maximum_after_genesis fuel genesis isGenesis puts c :
  Block.isGenesis genesis = true →
  Forall (λ p : Block.t * bool, Block.isGenesis p.1 = false) puts →
  tdIsMaximum ext fuel ((genesis, isGenesis) :: puts) c.
Proof.
  intros Hgen Hputs c' tds Hall. simpl in Hall.
  destruct (_putBlock ext fuel genesis isGenesis c) as [[c1 [[]| |]]|] eqn:Hput;
    try discriminate.
  destruct (ingestAll ext fuel puts c1) as [[c2 tds2]|] eqn:Hrest; try discriminate.
  injection Hall as <- <-.
  rewrite (ingestAll_later_puts _ _ Hputs _ _ _ Hrest).
  rewrite (genesis_put_td _ _ _ _ _ Hgen Hput). reflexivity.
Qed.

End ForkChoiceClaims.

Lemma sibling_put_frame_witness :
  Block.isGenesis blockB = false
  ∧ _putBlock acceptAll 8 blockB false chainGA = Some (chainGAB, Ok tt)
  ∧ (ingestedTd chainGA blockB false ≤ Meta.td (meta chainGA))%N
  ∧ meta chainGAB = meta chainGA
  ∧ numberIndex (detailsDb chainGAB) = numberIndex (detailsDb chainGA)
  ∧ getDetails chainGAB "0a"
    = Ok (Details.mk "00" 10 0 (Some "a1") ["b1"] true true ∅)%string.
Proof.
  assert (H1 : Block.isGenesis blockB = false) by reflexivity.
  assert (H2 : _putBlock acceptAll 8 blockB false chainGA = Some (chainGAB, Ok tt))
    by (vm_compute; reflexivity).
  assert (H3 : (ingestedTd chainGA blockB false ≤ Meta.td (meta chainGA))%N)
    by (vm_compute; discriminate).
  destruct (sibling_put_frame acceptAll 8 blockB chainGA chainGAB H1 H2 H3)
    as (pd & Hpd & Hm & _ & _ & Hn & _ & Hd).
  split; [exact H1|]. split; [exact H2|]. split; [exact H3|]. split; [exact Hm|].
  split; [exact Hn|].
  unfold getDetails. rewrite Hd, lookup_insert_eq.
  vm_compute in Hpd. injection Hpd as <-. reflexivity.
Defined.

(** C7, as stated, fails in two ways.  A block that is no genesis block is
    accepted with [isGenesis] passed, and the details of its parent are then
    overwritten with [undefined], not updated.  And with [validate] on, the
    verifier that the put calls writes its cache under a key of the number
    index. *)
Lemma sibling_put_breaks_parent_and_index :
  ¬ siblingFrame acceptAll 8 blockB true chainGA
  ∧ ¬ siblingFrame cachingVerifier 8 blockB false validatingChainGA.
Proof.
  split.
  - intros H.
    destruct (_putBlock acceptAll 8 blockB true chainGA) as [[c' r]|] eqn:E;
      [|vm_compute in E; discriminate].
    assert (Hr : r = Ok tt) by (vm_compute in E; congruence). subst r.
    destruct (H c' eq_refl E) as (_ & _ & pd & _ & Hpd); [vm_compute; discriminate|].
    vm_compute in E. injection E as <-. vm_compute in Hpd. discriminate.
  - intros H.
    destruct (_putBlock cachingVerifier 8 blockB false validatingChainGA)
      as [[c' r]|] eqn:E; [|vm_compute in E; discriminate].
    assert (Hr : r = Ok tt) by (vm_compute in E; congruence). subst r.
    destruct (H c' eq_refl E) as (_ & Hn & _); [vm_compute; discriminate|].
    vm_compute in E. injection E as <-.
    apply (f_equal (λ index : gmap Z hex, index !! 0)) in Hn.
    vm_compute in Hn. discriminate.
Qed.

Lemma recorded_td_witness :
  _putBlock acceptAll 8 blockC false chainGA = Some (chainGAC, Ok tt)
  ∧ detailEntries (detailsDb chainGA) !! Block.hash blockC = None
  ∧ Block.hash blockC ≠ Block.parentHash blockC
  ∧ ∃ d, detailEntries (detailsDb chainGAC) !! "c1"%string = Some (Stored d)
         ∧ ∃ pd, getDetails chainGA "a1"%string = Ok pd
                 ∧ Details.td d = (4 + Details.td pd)%N.
Proof.
  assert (H1 : _putBlock acceptAll 8 blockC false chainGA = Some (chainGAC, Ok tt))
    by (vm_compute; reflexivity).
  assert (H2 : detailEntries (detailsDb chainGA) !! Block.hash blockC = None)
    by (vm_compute; reflexivity).
  assert (H3 : Block.hash blockC ≠ Block.parentHash blockC) by (vm_compute; discriminate).
  split; [exact H1|]. split; [exact H2|]. split; [exact H3|].
  exact (recorded_td acceptAll 8 blockC false chainGA chainGAC H1 H2 H3).
Defined.

(** C8, as stated, fails: block C, a child of A and no genesis block, is
    accepted with [isGenesis] passed, and the [td] recorded for it is its
    own difficulty, 4, where the claim has 4 plus the 15 recorded for A. *)
Lemma td_under_flag_ignores_parent :
  ¬ tdFromParent acceptAll 8 blockC true chainGA.
Proof.
  intros H.
  destruct (_putBlock acceptAll 8 blockC true chainGA) as [[c' r]|] eqn:E;
    [|vm_compute in E; discriminate].
  assert (Hr : r = Ok tt) by (vm_compute in E; congruence). subst r.
  destruct (H c' E) as (d & Hd & Htd).
  vm_compute in E. injection E as <-.
  vm_compute in Hd. injection Hd as <-. vm_compute in Htd. discriminate.
Qed.


Lemma td_is_maximum_after_genesis_witness :
  Block.isGenesis blockG = true
  ∧ Forall (λ p : Block.t * bool, Block.isGenesis p.1 = false)
           [(blockA, false); (blockB', false)]
  ∧ ingestAll acceptAll 8 [(blockG, true); (blockA, false); (blockB', false)] emptyChain
    = Some (chainGAB', [10; 15; 17]%N)
  ∧ Meta.td (meta chainGAB') = 17%N.
Proof.
  assert (H1 : Block.isGenesis blockG = true) by reflexivity.
  assert (H2 : Forall (λ p : Block.t * bool, Block.isGenesis p.1 = false)
                      [(blockA, false); (blockB', false)])
    by (repeat constructor).
  assert (H3 : ingestAll acceptAll 8 [(blockG, true); (blockA, false); (blockB', false)]
                 emptyChain = Some (chainGAB', [10; 15; 17]%N))
    by (vm_compute; reflexivity).
  split; [exact H1|]. split; [exact H2|]. split; [exact H3|].
  exact (td_is_maximum_after_genesis acceptAll 8 blockG true _ emptyChain H1 H2 _ _ H3).
Defined.

(** C2, as stated, fails: a genesis block always takes the head, also when
    a heavier block was put before it. *)
Lemma td_is_not_maximum_after_second_genesis :
  ¬ tdIsMaximum acceptAll 8 [(blockG, true); (blockA, false); (blockG', true)] emptyChain.
Proof.
  intros H.
  destruct (ingestAll acceptAll 8 [(blockG, true); (blockA, false); (blockG', true)]
              emptyChain) as [[c' tds]|] eqn:E; [|vm_compute in E; discriminate].
  pose proof (H c' tds E) as Hmax.
  vm_compute in E. injection E as <- <-. vm_compute in Hmax. discriminate.
Qed.

(** ** Range retrieval *)

Section GetBlocksFacts.
Variable getBlock_ : blockTag → result Block.t.
Variables (maxBlocks skip : Z) (reverse : bool).
Hypothesis getBlock_calls_back : ∀ blockId, getBlock_ blockId ≠ Thrown.

Lemma nextBlock_stops fuel :
  ∀ i blocks blockId r,
    nextBlock getBlock_ maxBlocks skip reverse fuel i blocks blockId = Some r →
    ∃ more,
      r = Ok (blocks ++ more)
      ∧ Forall (λ b, ∃ x, visits getBlock_ reverse blockId x ∧ getBlock_ x = Ok b) more
      ∧ ((∃ x e, visits getBlock_ reverse blockId x ∧ getBlock_ x = Err e)
         ∨ Z.of_nat (length (blocks ++ more)) = maxBlocks).
Proof.
  induction fuel as [|fuel IH]; intros i blocks blockId r H;
    cbn [nextBlock] in H; [discriminate|].
  destruct (getBlock_ blockId) as [block|e|] eqn:Hget.
  - assert (Hnext : ∀ x,
              visits getBlock_ reverse
                (TagInteger (Block.number block + (if reverse then -1 else 1))) x →
              visits getBlock_ reverse blockId x)
      by (intros x; apply visits_next; exact Hget).
    destruct (negb (i + 1 =? 0) && negb (skip =? 0) && negb (Z.rem (i + 1) (skip + 1) =? 0)).
    + apply IH in H as (more & -> & Hfound & Hstop).
      exists more. split; [reflexivity|]. split.
      * eapply Forall_impl; [exact Hfound|]. intros b (x & Hx & Hb). eauto.
      * destruct Hstop as [(x & e & Hx & He)|Hlen]; [left; eauto|right; exact Hlen].
    + destruct (Z.of_nat (length (blocks ++ [block])) =? maxBlocks) eqn:Hmax.
      * injection H as <-. exists [block]. split; [reflexivity|]. split.
        -- constructor; [|constructor]. exists blockId. split; [constructor|exact Hget].
        -- right. apply Z.eqb_eq. exact Hmax.
      * apply IH in H as (more & -> & Hfound & Hstop).
        exists (block :: more). split; [by rewrite <- app_assoc|]. split.
        -- constructor; [exists blockId; split; [constructor|exact Hget]|].
           eapply Forall_impl; [exact Hfound|]. intros b (x & Hx & Hb). eauto.
        -- rewrite <- app_assoc in Hstop.
           destruct Hstop as [(x & e & Hx & He)|Hlen]; [left; eauto|right; exact Hlen].
  - injection H as <-. exists []. split; [by rewrite app_nil_r|]. split; [constructor|].
    left. exists blockId, e. split; [constructor|exact Hget].
  - destruct (getBlock_calls_back _ Hget).
Qed.

End GetBlocksFacts.

(** Counting the blocks pushed: before the lookup number [k] (from [0]),
    the list holds one block for every multiple of [skip + 1] below [k]. *)
Lemma pushed_when_skipped s k :
  0 < s → 0 ≤ k → Z.rem k s ≠ 0 → (k + 1 + (s - 1)) / s = (k + (s - 1)) / s.
Proof.
  intros Hs Hk Hr. rewrite Z.rem_mod_nonneg in Hr by lia.
  pose proof (Z.div_mod k s ltac:(lia)) as Hdm.
  pose proof (Z.mod_pos_bound k s Hs) as Hb.
  rewrite <- (Z.div_unique (k + 1 + (s - 1)) s (k / s + 1) (k mod s)) by lia.
  rewrite <- (Z.div_unique (k + (s - 1)) s (k / s + 1) (k mod s - 1)) by lia.
  reflexivity.
Qed.

Lemma pushed_when_kept s k :
  0 < s → 0 ≤ k → Z.rem k s = 0 → (k + 1 + (s - 1)) / s = (k + (s - 1)) / s + 1.
Proof.
  intros Hs Hk Hr. rewrite Z.rem_mod_nonneg in Hr by lia.
  pose proof (Z.div_mod k s ltac:(lia)) as Hdm.
  rewrite <- (Z.div_unique (k + 1 + (s - 1)) s (k / s + 1) 0) by lia.
  rewrite <- (Z.div_unique (k + (s - 1)) s (k / s) (s - 1)) by lia.
  reflexivity.
Qed.

Lemma pushed_below_max s k m :
  0 < s → 0 ≤ k → (k + (s - 1)) / s < m → k ≤ (m - 1) * s.
Proof.
  intros Hs Hk Hlt.
  pose proof (Z.div_mod (k + (s - 1)) s ltac:(lia)) as Hdm.
  pose proof (Z.mod_pos_bound (k + (s - 1)) s Hs) as Hb.
  nia.
Qed.

Section GetBlocksTermination.
Variable getBlock_ : blockTag → result Block.t.
Variables (maxBlocks skip : Z) (reverse : bool).
Hypothesis maxBlocks_pos : 1 ≤ maxBlocks.
Hypothesis skip_nonneg : 0 ≤ skip.

Lemma nextBlock_terminates fuel :
  ∀ k blocks blockId,
    0 ≤ k →
    Z.of_nat (length blocks) = (k + skip) / (skip + 1) →
    Z.of_nat (length blocks) < maxBlocks →
    (maxBlocks - 1) * (skip + 1) + 1 - k ≤ Z.of_nat fuel →
    is_Some (nextBlock getBlock_ maxBlocks skip reverse fuel (k - 1) blocks blockId).
Proof.
  induction fuel as [|fuel IH]; intros k blocks blockId Hk Hlen Hlt Hfuel.
  - exfalso. rewrite Hlen in Hlt.
    pose proof (pushed_below_max (skip + 1) k maxBlocks ltac:(lia) Hk) as Hb.
    replace (skip + 1 - 1) with skip in Hb by lia. specialize (Hb Hlt). simpl in Hfuel. lia.
  - cbn [nextBlock]. replace (k - 1 + 1) with k by lia.
    destruct (getBlock_ blockId) as [block|e|]; [|eauto|eauto].
    destruct (negb (k =? 0) && negb (skip =? 0) && negb (Z.rem k (skip + 1) =? 0)) eqn:Hc.
    + replace k with (k + 1 - 1) at 1 by lia. apply IH; try lia.
      rewrite Hlen. symmetry.
      replace (k + 1 + skip) with (k + 1 + (skip + 1 - 1)) by lia.
      replace (k + skip) with (k + (skip + 1 - 1)) by lia.
      apply pushed_when_skipped; lia.
    + assert (Hrem : Z.rem k (skip + 1) = 0).
      { apply andb_false_iff in Hc as [Hc|Hc].
        - apply andb_false_iff in Hc as [Hc|Hc];
            apply negb_false_iff, Z.eqb_eq in Hc; subst.
          + apply Z.rem_0_l. lia.
          + apply Z.rem_1_r.
        - apply negb_false_iff, Z.eqb_eq in Hc. exact Hc. }
      assert (Hlen' : Z.of_nat (length (blocks ++ [block])) = (k + 1 + skip) / (skip + 1)).
      { rewrite length_app, Nat2Z.inj_add, Hlen. simpl.
        replace (k + 1 + skip) with (k + 1 + (skip + 1 - 1)) by lia.
        replace (k + skip) with (k + (skip + 1 - 1)) by lia.
        symmetry. apply pushed_when_kept; lia. }
      destruct (Z.of_nat (length (blocks ++ [block])) =? maxBlocks) eqn:Hmax; [eauto|].
      apply Z.eqb_neq in Hmax.
      replace k with (k + 1 - 1) at 1 by lia. apply IH; try lia.
      rewrite length_app, Nat2Z.inj_add in *. simpl in *. lia.
Qed.

End GetBlocksTermination.

Lemma getBlock_calls_back c blockId : getBlock c blockId ≠ Thrown.
Proof.
  destruct blockId as [h|n|]; simpl; unfold lookupNumberToHash, lookupByHash.
  - destruct (blockDb c !! BufferKey h); discriminate.
  - destruct (numberIndex (detailsDb c) !! n) as [h|]; [|discriminate].
    destruct (blockDb c !! BufferKey h); discriminate.
  - discriminate.
Qed.

(** C6: whatever [self.getBlock] is, provided it calls back: a lookup that
    fails, for any reason, ends [getBlocks] with the blocks gathered so far
    passed as a success; when [getBlocks] calls back, it does so with a
    success, every block of the list was found on the walk from [blockId],
    and either the walk reached a lookup that failed or the list holds
    [maxBlocks] blocks; and for a positive [maxBlocks] and a [skip] that is
    not negative it does call back. *)
Theorem getBlocks_partial_or_full getBlock_ maxBlocks skip reverse :
  (∀ x, getBlock_ x ≠ Thrown) →
  (∀ fuel i blocks x e,
     getBlock_ x = Err e →
     nextBlock getBlock_ maxBlocks skip reverse (S fuel) i blocks x = Some (Ok blocks))
  ∧ (∀ fuel blockId r,
       getBlocks_with getBlock_ maxBlocks skip reverse fuel blockId = Some r →
       ∃ blocks,
         r = Ok blocks
         ∧ Forall (λ b, ∃ x, visits getBlock_ reverse blockId x ∧ getBlock_ x = Ok b) blocks
         ∧ ((∃ x e, visits getBlock_ reverse blockId x ∧ getBlock_ x = Err e)
            ∨ Z.of_nat (length blocks) = maxBlocks))
  ∧ (1 ≤ maxBlocks → 0 ≤ skip →
     ∀ fuel blockId,
       (maxBlocks - 1) * (skip + 1) + 1 ≤ Z.of_nat fuel →
       is_Some (getBlocks_with getBlock_ maxBlocks skip reverse fuel blockId)).
Proof.
  intros Hcb. split; [|split].
  - intros fuel i blocks x e He. cbn [nextBlock]. rewrite He. reflexivity.
  - intros fuel blockId r H. unfold getBlocks_with in H.
    apply nextBlock_stops in H as (more & -> & Hfound & Hstop); [|exact Hcb].
    exists more. auto.
  - intros Hmax Hskip fuel blockId Hfuel. unfold getBlocks_with.
    change (-1) with (0 - 1).
    apply nextBlock_terminates; try assumption; simpl; try lia.
    symmetry. apply Z.div_small. lia.
Qed.

Lemma getBlocks_partial_or_full_witness :
  getBlocks 8 chainGAC (TagBuffer "0a") 2 0 false = Some (Ok [blockG; blockA])
  ∧ getBlocks 8 chainGAC (TagBuffer "0a") 5 0 false = Some (Ok [blockG; blockA; blockC])
  ∧ ∃ x e, visits (getBlock chainGAC) false (TagBuffer "0a") x
           ∧ getBlock chainGAC x = Err e.
Proof.
  destruct (getBlocks_partial_or_full (getBlock chainGAC) 5 0 false
              (getBlock_calls_back chainGAC)) as (_ & Hstop & _).
  destruct (Hstop 8%nat (TagBuffer "0a") (Ok [blockG; blockA; blockC]))
    as (blocks & Hr & _ & [Hfail|Hlen]); [vm_compute; reflexivity| |].
  - split; [vm_compute; reflexivity|]. split; [vm_compute; reflexivity|]. exact Hfail.
  - exfalso. injection Hr as <-. vm_compute in Hlen. discriminate.
Defined.

(** ** The head *)

Lemma truthy_idem o : truthy (truthy o) = truthy o.
Proof.
  destruct o as [h|]; simpl; [|reflexivity].
  destruct (decide (h = ""%string)) as [|Hne]; simpl; [reflexivity|].
  destruct (decide (h = ""%string)); [contradiction|reflexivity].
Qed.

Lemma getBlock_buffer_not_NoHeadFound c h : getBlock c (TagBuffer h) ≠ Err NoHeadFound.
Proof. simpl. unfold lookupByHash. destruct (blockDb c !! BufferKey h); discriminate. Qed.

Lemma runGetHead_cases c name :
  name ∉ objectPrototype ∨ is_Some (Meta.heads (meta c) !! name) →
  runGetHead c name =
    match truthy (Meta.heads (meta c) !! name), truthy (Meta.rawHead (meta c)) with
    | Some h, _ => getBlock c (TagBuffer h)
    | None, Some h => getBlock c (TagBuffer h)
    | None, None => Err NoHeadFound
    end.
Proof.
  intros Hname. unfold runGetHead, getProperty, js_or.
  destruct (Meta.heads (meta c) !! name) as [own|] eqn:Hown.
  - destruct (truthy (Some own)) as [h|] eqn:Hh.
    + rewrite <- Hh, truthy_idem, Hh. reflexivity.
    + destruct (truthy (Meta.rawHead (meta c))); reflexivity.
  - destruct Hname as [Hname|[x Hx]]; [|discriminate].
    destruct (decide (name ∈ objectPrototype)); [contradiction|].
    cbn [truthy]. destruct (truthy (Meta.rawHead (meta c))); reflexivity.
Qed.

Lemma runGetHead_inherited c name :
  name ∈ objectPrototype → Meta.heads (meta c) !! name = None →
  runGetHead c name = Thrown.
Proof.
  intros Hname Hnone. unfold runGetHead, getProperty. rewrite Hnone.
  destruct (decide (name ∈ objectPrototype)); [reflexivity|contradiction].
Qed.

Lemma await_runGetHead (ext : Externals) fuel name (i : @Instance unit) :
  initLock i = true →
  getHead ext fuel name i
  = Some (i, Answered (OneBlock (runGetHead (self i) (headName name)))).
Proof.
  intros Hopen. destruct i. cbn in Hopen. subst. reflexivity.
Qed.

(** C10, as amended: once the init lock is released, and for a name that
    [Object.prototype] does not define, [getHead] calls back with the block
    stored under [heads[name]] when that is set, otherwise with the block
    stored under [rawHead] when that is set, otherwise with the error
    'No head found.', which comes up in no other case; a call without a name
    does so for the name ['vm'].  ("Set" is JavaScript truthiness: an empty
    string counts as not set.)  For a name that [Object.prototype] defines
    and [heads] does not hold, the call throws. *)
Theorem getHead_falls_back_to_rawHead (ext : Externals) fuel (i : @Instance unit) :
  initLock i = true →
  (∀ name, name ∉ objectPrototype → headOrRawHead ext fuel name i)
  ∧ (∀ name, name ∉ objectPrototype →
       (getHead ext fuel (Some name) i = Some (i, Answered (OneBlock (Err NoHeadFound)))
        ↔ truthy (Meta.heads (meta (self i)) !! name) = None
          ∧ truthy (Meta.rawHead (meta (self i))) = None))
  ∧ getHead ext fuel None i
    = Some (i, Answered (OneBlock
         match truthy (Meta.heads (meta (self i)) !! "vm"%string),
               truthy (Meta.rawHead (meta (self i))) with
         | Some h, _ => getBlock (self i) (TagBuffer h)
         | None, Some h => getBlock (self i) (TagBuffer h)
         | None, None => Err NoHeadFound
         end))
  ∧ (∀ name, name ∈ objectPrototype → Meta.heads (meta (self i)) !! name = None →
       getHead ext fuel (Some name) i = Some (i, Answered (OneBlock Thrown))).
Proof.
  intros Hopen. split; [|split; [|split]].
  - intros name Hname. unfold headOrRawHead.
    rewrite (await_runGetHead _ _ _ _ Hopen). cbn [headName].
    rewrite runGetHead_cases by (left; exact Hname). reflexivity.
  - intros name Hname.
    rewrite (await_runGetHead _ _ _ _ Hopen). cbn [headName].
    rewrite runGetHead_cases by (left; exact Hname).
    destruct (truthy (Meta.heads (meta (self i)) !! name)) as [h|].
    + split; [|intros [? _]; discriminate].
      intros [= H]. destruct (getBlock_buffer_not_NoHeadFound _ _ H).
    + destruct (truthy (Meta.rawHead (meta (self i)))) as [h|].
      * split; [|intros [_ ?]; discriminate].
        intros [= H]. destruct (getBlock_buffer_not_NoHeadFound _ _ H).
      * split; auto.
  - rewrite (await_runGetHead _ _ _ _ Hopen). cbn [headName].
    rewrite runGetHead_cases; [reflexivity|].
    left. compute_done.
  - intros name Hname Hnone.
    rewrite (await_runGetHead _ _ _ _ Hopen). cbn [headName].
    rewrite (runGetHead_inherited _ _ Hname Hnone). reflexivity.
Qed.

Lemma getHead_falls_back_to_rawHead_witness :
  initLock (opened chainNamed) = true
  ∧ getHead acceptAll 1 None (opened chainNamed)
    = Some (opened chainNamed, Answered (OneBlock (Ok blockA)))
  ∧ getHead acceptAll 1 (Some "evm"%string) (opened chainNamed)
    = Some (opened chainNamed, Answered (OneBlock (Ok blockC))).
Proof.
  split; [reflexivity|].
  destruct (getHead_falls_back_to_rawHead acceptAll 1 (opened chainNamed) eq_refl)
    as (Hname & _ & Hvm & _).
  split.
  - rewrite Hvm. vm_compute. reflexivity.
  - rewrite (Hname "evm"%string); [vm_compute; reflexivity|].
    compute_done.
Defined.

(** C10, as stated, fails: on an object that has no head of the name
    ['constructor'], [getHead('constructor', cb)] does not call back with the
    block at [rawHead]; it throws. *)
Lemma getHead_of_inherited_name_throws :
  getHead acceptAll 1 (Some "constructor"%string) (opened chainGA)
  = Some (opened chainGA, Answered (OneBlock Thrown))
  ∧ ¬ headOrRawHead acceptAll 1 "constructor" (opened chainGA).
Proof.
  split; [vm_compute; reflexivity|].
  unfold headOrRawHead. intros H. vm_compute in H. discriminate.
Qed.

(** ** The iterator *)

Section IteratorFacts.
Context {Consumer : Type}.
Variable func : Consumer → Block.t → bool → Consumer * option error.
Variable name : string.




End IteratorFacts.



(** ** Needed hashes *)

Section BinarySearch.
Variable f : hex → result Details.t.
Variable hashes : list hex.
(** The boundary: the hashes before position [n] are known, the others are
    not. *)
Variable n : Z.
Hypothesis n_range : 0 ≤ n ≤ Z.of_nat (length hashes).
Hypothesis known_prefix :
  ∀ i h, hashes !! i = Some h → ((∃ d, f h = Ok d) ↔ Z.of_nat i < n).
(** The lookup calls back. *)
Hypothesis calls_back : ∀ h, f h ≠ Thrown.

Lemma whilst_finds_boundary fuel :
  ∀ min max mid,
    0 ≤ min → max < Z.of_nat (length hashes) →
    min ≤ n ≤ max + 1 →
    (min ≤ max → min ≤ mid ≤ max) →
    max - min + 2 ≤ Z.of_nat fuel →
    whilst (Some f) hashes fuel min max mid = Some (Ok n).
Proof.
  induction fuel as [|fuel IH]; intros min max mid Hmin Hmax Hn Hmid Hfuel;
    [simpl in Hfuel; lia|].
  cbn [whilst].
  destruct (min <=? max) eqn:Hle.
  - apply Z.leb_le in Hle. specialize (Hmid Hle).
    destruct (0 <=? mid) eqn:H0; [|apply Z.leb_gt in H0; lia].
    destruct (hashes !! Z.to_nat mid) as [h|] eqn:Hh.
    + pose proof (known_prefix _ _ Hh) as Hk. rewrite Z2Nat.id in Hk by lia.
      destruct (f h) as [d|e|] eqn:Hf.
      * assert (mid < n) by (apply Hk; eauto).
        apply IH; try lia.
        intros. split; [apply Z.div_le_lower_bound|apply Z.div_le_upper_bound]; lia.
      * assert (¬ mid < n) by (intros Hlt; apply Hk in Hlt as [d Hd]; discriminate).
        apply IH; try lia.
        intros. split; [apply Z.div_le_lower_bound|apply Z.div_le_upper_bound]; lia.
      * destruct (calls_back _ Hf).
    + apply lookup_ge_None in Hh. lia.
  - apply Z.leb_gt in Hle. f_equal. f_equal. lia.
Qed.

(** With a lookup in the place of [self.getBlockInfo], the loop returns the
    hashes from the boundary on. *)
Lemma selectNeededHashes_with_lookup fuel :
  Z.of_nat (length hashes) + 1 ≤ Z.of_nat fuel →
  selectNeededHashes_with (Some f) hashes fuel = Some (Ok (drop (Z.to_nat n) hashes)).
Proof.
  intros Hfuel. unfold selectNeededHashes_with.
  assert (H : whilst (Some f) hashes fuel 0 (Z.of_nat (length hashes) - 1) 0 = Some (Ok n))
    by (apply whilst_finds_boundary; lia).
  rewrite H. reflexivity.
Qed.

End BinarySearch.

Lemma detailsMethod_getBlockInfo c : detailsMethod c "getBlockInfo" = None.
Proof. reflexivity. Qed.

(** C5, what the code does: [selectNeededHashes] throws on every list that
    is not empty, on the list of the example in particular, because its loop
    calls [self.getBlockInfo], which nothing defines; on the empty list it
    returns the empty list.  With [getDetails], the lookup that the loop was
    written for, in the place of [getBlockInfo], the example gives the two
    hashes that are not stored. *)
Theorem selectNeededHashes_throws :
  (∀ fuel c h hashes, selectNeededHashes (S fuel) c (h :: hashes) = Some Thrown)
  ∧ (∀ fuel c, selectNeededHashes (S fuel) c [] = Some (Ok []))
  ∧ selectNeededHashes 8 chainGAC ["0a"; "a1"; "c1"; "d1"; "e1"]%string = Some Thrown
  ∧ selectNeededHashes_with (Some (getDetails chainGAC))
                            ["0a"; "a1"; "c1"; "d1"; "e1"]%string 8
    = Some (Ok ["d1"; "e1"]%string).
Proof.
  split; [|split; [|split]].
  - intros fuel c h hashes. unfold selectNeededHashes, selectNeededHashes_with.
    rewrite detailsMethod_getBlockInfo. cbn [whilst].
    destruct (0 <=? Z.of_nat (length (h :: hashes)) - 1) eqn:Hle; [reflexivity|].
    apply Z.leb_gt in Hle. simpl length in Hle. lia.
  - reflexivity.
  - vm_compute. reflexivity.
  - vm_compute. reflexivity.
Qed.

(** ** Deletion *)

Lemma _delBlock_stages_deletes fuel c :
  ∀ blockhash dbOps resetHeads dbOps' resetHeads',
    Forall isDelete dbOps →
    _delBlock fuel c blockhash dbOps resetHeads = Some (Ok (dbOps', resetHeads')) →
    Forall isDelete dbOps'.
Proof.
  induction fuel as [|fuel IH]; intros blockhash dbOps resetHeads dbOps' resetHeads' Hall H;
    cbn [_delBlock] in H; [discriminate|].
  destruct (getDetails c blockhash) as [details|e|]; try discriminate.
  unfold staleChildern in H. cbn [fold_left] in H.
  assert (Hall' : Forall isDelete (dbOps ++ [DelDetail blockhash; DelBlock blockhash]))
    by (apply Forall_app; split; [exact Hall|repeat constructor]).
  destruct (truthy (Details.child details)) as [child|].
  - eapply IH; [exact Hall'|exact H].
  - injection H as <- <-. exact Hall'.
Qed.

Lemma deletes_keep_blocks hp m ops c h :
  Forall isDelete ops →
  blockDb (fold_left (applyOp hp m) ops c) !! BufferKey h = blockDb c !! BufferKey h.
Proof.
  revert c. induction ops as [|op ops IH]; intros c Hall; simpl; [reflexivity|].
  inversion Hall as [|? ? Hop Hrest]; subst.
  rewrite IH by assumption.
  destruct op; simpl in *; try tauto; try reflexivity.
  apply lookup_delete_ne. discriminate.
Qed.

(** No call of [delBlock] removes an encoded block: blocks are stored under
    the hash as a [Buffer], and the staged deletes name hex strings. *)
Lemma delBlock_keeps_blocks fuel c arg c' r h :
  delBlock fuel c arg = Some (c', r) →
  blockDb c' !! BufferKey h = blockDb c !! BufferKey h.
Proof.
  unfold delBlock. intros H.
  destruct (_delBlock fuel c _ [] []) as [[[dbOps resetHeads]|e|]|] eqn:Hdel;
    try discriminate; try (injection H as <- _; reflexivity).
  destruct (getDetails c _) as [details|e|]; try (injection H as <- _; reflexivity).
  injection H as <- _. unfold _batchDbOps.
  rewrite deletes_keep_blocks; [reflexivity|].
  eapply _delBlock_stages_deletes; [constructor|exact Hdel].
Qed.

(** C4, what the code does: deleting block A of the chain G, A, C with the
    stale child D of A succeeds, removes the details of A and of its child
    C, and moves [rawHead] to the parent of A; the details of the stale
    child D stay (the loop over [details.staleChildern] has nothing to go
    through), and so do the encoded blocks of A, C and D (the deletes of the
    block store name the hex string, not the [Buffer] the blocks are stored
    under). *)
Theorem delBlock_leaves_stale_children_and_blocks :
  ∃ c',
    delBlock 8 chainGACD (OfBuffer "a1") = Some (c', Ok tt)
    ∧ Details.staleChildren <$> getDetails_stored chainGACD "a1" = Some ["d1"%string]
    ∧ detailEntries (detailsDb c') !! "a1"%string = None
    ∧ detailEntries (detailsDb c') !! "c1"%string = None
    ∧ Meta.rawHead (meta c') = Some "0a"%string
    ∧ is_Some (detailEntries (detailsDb c') !! "d1"%string)
    ∧ blockDb c' !! BufferKey "d1" = Some blockD
    ∧ blockDb c' !! BufferKey "a1" = Some blockA
    ∧ blockDb c' !! BufferKey "c1" = Some blockC.
Proof.
  destruct (delBlock 8 chainGACD (OfBuffer "a1")) as [[c' r]|] eqn:E;
    [|vm_compute in E; discriminate].
  exists c'.
  pose proof (delBlock_keeps_blocks _ _ _ _ _ "d1"%string E) as Hd.
  pose proof (delBlock_keeps_blocks _ _ _ _ _ "a1"%string E) as Ha.
  pose proof (delBlock_keeps_blocks _ _ _ _ _ "c1"%string E) as Hc.
  vm_compute in E. injection E as <- <-.
  split; [reflexivity|].
  split; [vm_compute; reflexivity|].
  split; [vm_compute; reflexivity|].
  split; [vm_compute; reflexivity|].
  split; [vm_compute; reflexivity|].
  split; [vm_compute; eauto|].
  split; [rewrite Hd; vm_compute; reflexivity|].
  split; [rewrite Ha; vm_compute; reflexivity|].
  rewrite Hc; vm_compute; reflexivity.
Qed.

(** ** The init lock *)

Section GateFacts.
Variable ext : Externals.
Context {Consumer : Type}.





End GateFacts.



(** * Further properties *)

(** ** Ingestion: what a put leaves in the stores *)

Lemma fold_detailsOnly_blockDb hp m ops c :
  Forall detailsOnly ops → blockDb (fold_left (applyOp hp m) ops c) = blockDb c.
Proof.
  revert c. induction ops as [|op ops IH]; intros c Hall; simpl; [reflexivity|].
  inversion Hall as [|? ? Hop Hrest]; subst.
  rewrite IH by assumption. destruct op; simpl in *; tauto || reflexivity.
Qed.

Lemma fold_applyOp_metaEntry hp m ops c :
  metaEntry (detailsDb (fold_left (applyOp hp m) ops c))
  = if existsb isPutMeta ops then Some m else metaEntry (detailsDb c).
Proof.
  revert c. induction ops as [|op ops IH]; intros c; simpl; [reflexivity|].
  rewrite IH. destruct op; simpl; try reflexivity.
  destruct (existsb isPutMeta ops); reflexivity.
Qed.

Lemma rebuildOp_detailsOnly c p op : rebuildOp c p op → detailsOnly op.
Proof. destruct op as [k [v|]| | | | |]; simpl; tauto. Qed.

(** The staged operations of a successful [rebuildInfo]: the block's own
    details, the encoded block, then operations on the detail store only;
    the stored meta is staged exactly when the head moves. *)
Lemma rebuildInfo_ops fuel c block isGenesis parentDetails m hp ops :
  rebuildInfo fuel c block isGenesis parentDetails = (m, Some (Ok (hp, ops))) →
  ∃ v rest,
    ops = PutDetail (Block.hash block) v :: PutBlock (Block.hash block) block :: rest
    ∧ Forall detailsOnly rest
    ∧ existsb isPutMeta rest
      = (Block.isGenesis block
         || (Meta.td (meta c) <? totalDifficulty block isGenesis parentDetails)%N)
    ∧ (existsb isPutMeta rest = false → m = meta c).
Proof.
  unfold rebuildInfo. intros H.
  destruct (Block.isGenesis block
            || (Meta.td (meta c) <? totalDifficulty block isGenesis parentDetails)%N)
    eqn:Hhead.
  - destruct (Block.isGenesis block) eqn:Hgen.
    + injection H as <- <- <-. eexists _, _. split; [reflexivity|].
      split; [repeat constructor|]. split; [reflexivity|discriminate].
    + injection H as <- Hre.
      destruct parentDetails as [pd|]; [|destruct fuel; discriminate].
      apply _rebuildBlockchain_inv in Hre as (new & -> & Hnew & _).
      eexists _, _. split; [reflexivity|]. split.
      * constructor; [exact I|]. constructor; [exact I|].
        eapply Forall_impl; [exact Hnew|]. apply rebuildOp_detailsOnly.
      * split; [reflexivity|discriminate].
  - injection H as <- <- <-. eexists _, _. split; [reflexivity|].
    split; [repeat constructor|]. split; [reflexivity|reflexivity].
Qed.

Section PutFacts.
Variable ext : Externals.

Lemma lookupParentBlock_ingestedTd c block isGenesis parentDetails :
  lookupParentBlock c block isGenesis = Ok parentDetails →
  totalDifficulty block isGenesis parentDetails = ingestedTd c block isGenesis.
Proof.
  destruct isGenesis.
  - intros _. destruct parentDetails; reflexivity.
  - intros H. apply lookupParentBlock_false in H as (pd & -> & Hpd).
    symmetry. apply ingestedTd_parent, Hpd.
Qed.

Lemma put_blockDb_core fuel block isGenesis c c' :
  putVerified fuel block isGenesis c = Some (c', Ok tt) →
  blockDb c' = <[BufferKey (Block.hash block) := block]> (blockDb c)
  ∧ getBlock c' (TagBuffer (Block.hash block)) = Ok block.
Proof.
  intros Hput.
  apply putVerified_Ok in Hput as (parentDetails & m & hp & ops & Hpar & Hinfo & ->).
  apply rebuildInfo_ops in Hinfo as (v & rest & -> & Hrest & _).
  assert (Hdb : blockDb (_batchDbOps hp
                   (PutDetail (Block.hash block) v :: PutBlock (Block.hash block) block :: rest)
                   (set_meta m c))
                = <[BufferKey (Block.hash block) := block]> (blockDb c)).
  { unfold _batchDbOps. cbn [fold_left]. rewrite fold_detailsOnly_blockDb by assumption.
    reflexivity. }
  split; [exact Hdb|].
  cbn [getBlock]. unfold lookupByHash. rewrite Hdb, lookup_insert_eq. reflexivity.
Qed.

Lemma put_blockDb fuel block isGenesis c c' :
  _putBlock ext fuel block isGenesis c = Some (c', Ok tt) →
  blockDb c' = <[BufferKey (Block.hash block) := block]> (blockDb c)
  ∧ getBlock c' (TagBuffer (Block.hash block)) = Ok block.
Proof.
  intros Hput. apply _putBlock_verified, put_blockDb_core in Hput.
  autorewrite with afterPOW in Hput. exact Hput.
Qed.

(** X1: after a successful put, whatever its branch, the block store holds
    the block under its hash and is otherwise as before; [getBlock] by that
    hash returns the block. *)
Theorem put_then_getBlock fuel block isGenesis c c' :
  _putBlock ext fuel block isGenesis c = Some (c', Ok tt) →
  blockDb c' = <[BufferKey (Block.hash block) := block]> (blockDb c)
  ∧ getBlock c' (TagBuffer (Block.hash block)) = Ok block.
Proof. apply put_blockDb. Qed.

(** The stored meta after a successful run of the last three tasks. *)
Lemma put_metaEntry_core fuel block isGenesis c c' :
  putVerified fuel block isGenesis c = Some (c', Ok tt) →
  (becomesHead c block isGenesis = true ∧ metaEntry (detailsDb c') = Some (meta c'))
  ∨ (becomesHead c block isGenesis = false
     ∧ metaEntry (detailsDb c') = metaEntry (detailsDb c) ∧ meta c' = meta c).
Proof.
  intros Hput.
  apply putVerified_Ok in Hput as (parentDetails & m & hp & ops & Hpar & Hinfo & ->).
  apply rebuildInfo_ops in Hinfo as (v & rest & -> & Hrest & Hmeta & Hsame).
  rewrite (lookupParentBlock_ingestedTd _ _ _ _ Hpar) in Hmeta.
  fold (becomesHead c block isGenesis) in Hmeta.
  rewrite _batchDbOps_meta. unfold _batchDbOps. rewrite fold_applyOp_metaEntry.
  cbn [existsb isPutMeta orb meta set_meta detailsDb].
  destruct (existsb isPutMeta rest).
  - left. split; [symmetry; exact Hmeta|reflexivity].
  - right. split; [symmetry; exact Hmeta|]. split; [reflexivity|]. apply Hsame. reflexivity.
Qed.

(** The stored meta after a successful put. *)
Lemma put_metaEntry fuel block isGenesis c c' :
  _putBlock ext fuel block isGenesis c = Some (c', Ok tt) →
  (becomesHead c block isGenesis = true ∧ metaEntry (detailsDb c') = Some (meta c'))
  ∨ (becomesHead c block isGenesis = false
     ∧ metaEntry (detailsDb c') = metaEntry (detailsDb c) ∧ meta c' = meta c).
Proof.
  intros Hput. apply _putBlock_verified, put_metaEntry_core in Hput.
  autorewrite with afterPOW in Hput. exact Hput.
Qed.

(** X2: a successful put keeps the stored meta in step with [self.meta]:
    when the head moves the stored meta is [self.meta] as it is after the
    put; when it does not, neither changes.  So if they agreed before the
    put, they agree after it. *)
Theorem put_keeps_meta_persisted fuel block isGenesis c c' :
  _putBlock ext fuel block isGenesis c = Some (c', Ok tt) →
  (becomesHead c block isGenesis = true → metaEntry (detailsDb c') = Some (meta c'))
  ∧ (becomesHead c block isGenesis = false →
     metaEntry (detailsDb c') = metaEntry (detailsDb c) ∧ meta c' = meta c)
  ∧ (metaEntry (detailsDb c) = Some (meta c) → metaEntry (detailsDb c') = Some (meta c')).
Proof.
  intros Hput.
  destruct (put_metaEntry _ _ _ _ _ Hput) as [[Hb He]|(Hb & He & Hm)]; rewrite Hb.
  - split; [intros _; exact He|]. split; [discriminate|intros _; exact He].
  - split; [discriminate|]. split; [intros _; split; assumption|].
    intros H. rewrite He, Hm. exact H.
Qed.

(** A run of the last three tasks that does not succeed leaves both
    stores as they were. *)
Lemma putVerified_failed fuel block isGenesis c c' r :
  putVerified fuel block isGenesis c = Some (c', r) →
  r ≠ Ok tt →
  blockDb c' = blockDb c ∧ detailsDb c' = detailsDb c ∧ validate c' = validate c.
Proof.
  unfold putVerified. intros H Hr.
  destruct (lookupParentBlock c block isGenesis) as [pd| |];
    try (injection H as <- _; auto).
  destruct (rebuildInfo fuel c block isGenesis pd) as [m [[[hp ops]| |]|]];
    try discriminate; injection H as <- <-; auto.
  destruct Hr. reflexivity.
Qed.

(** X3: a put that does not succeed stages nothing: the block store, the
    stored details, the stored meta and the key of [_saveMeta] are as they
    were, whatever the failure.  The number index is as it was or,
    [validate] being on and the block no genesis block, as the verifier left
    it; with [validate] off the detail store as a whole is as it was.  (Of
    the object only [self.meta] can differ besides, when the failure comes
    after fork choice.) *)
Theorem failed_put_writes_nothing fuel block isGenesis c c' r :
  _putBlock ext fuel block isGenesis c = Some (c', r) →
  r ≠ Ok tt →
  blockDb c' = blockDb c
  ∧ validate c' = validate c
  ∧ metaEntry (detailsDb c') = metaEntry (detailsDb c)
  ∧ detailEntries (detailsDb c') = detailEntries (detailsDb c)
  ∧ quotedMetaEntry (detailsDb c') = quotedMetaEntry (detailsDb c)
  ∧ (numberIndex (detailsDb c') = numberIndex (detailsDb c)
     ∨ validate c = true ∧ Block.isGenesis block = false
       ∧ numberIndex (detailsDb c') = vapash_cache ext (numberIndex (detailsDb c)) block)
  ∧ (validate c = false → detailsDb c' = detailsDb c).
Proof.
  intros H Hr.
  assert (Hframe : ∀ c1, blockDb c1 = blockDb (afterPOW ext c block) →
                         detailsDb c1 = detailsDb (afterPOW ext c block) →
                         validate c1 = validate (afterPOW ext c block) →
            blockDb c1 = blockDb c
            ∧ validate c1 = validate c
            ∧ metaEntry (detailsDb c1) = metaEntry (detailsDb c)
            ∧ detailEntries (detailsDb c1) = detailEntries (detailsDb c)
            ∧ quotedMetaEntry (detailsDb c1) = quotedMetaEntry (detailsDb c)
            ∧ (numberIndex (detailsDb c1) = numberIndex (detailsDb c)
               ∨ validate c = true ∧ Block.isGenesis block = false
                 ∧ numberIndex (detailsDb c1)
                   = vapash_cache ext (numberIndex (detailsDb c)) block)
            ∧ (validate c = false → detailsDb c1 = detailsDb c)).
  { intros c1 Hb Hd Hv. rewrite Hb, Hd, Hv. autorewrite with afterPOW.
    repeat (split; [reflexivity|]). split.
    - rewrite afterPOW_numberIndex.
      destruct (validate c); [|left; reflexivity].
      destruct (Block.isGenesis block); [left; reflexivity|]. right. auto.
    - intros Hoff. rewrite (afterPOW_off _ _ _ Hoff). reflexivity. }
  destruct (_putBlock_cases ext fuel block isGenesis c)
    as [(e & _ & Hc)|[(_ & Hv & Hg & _ & Hc)|(_ & Hc)]]; rewrite Hc in H.
  - injection H as <- _. repeat (split; [reflexivity|]).
    split; [left; reflexivity|reflexivity].
  - injection H as <- _. apply Hframe; reflexivity.
  - apply putVerified_failed in H as (Hb & Hd & Hvl); [|exact Hr].
    apply Hframe; assumption.
Qed.

(** X4: with [validate] off the collaborators are not consulted: the put
    does the same whatever they are.  With it on, a genesis block put
    without [isGenesis] is refused with 'already have genesis set' and the
    object is as it was; a block that is no genesis block and that the
    verifier refuses, once the validator has passed it, is refused with
    'invalid POW', and the object is as it was but for what the verifier
    wrote under the keys of the number index; and for a genesis block put
    with [isGenesis] the verifier is not consulted. *)
Theorem validate_switch fuel block isGenesis c :
  (validate c = false →
   ∀ ext', _putBlock ext fuel block isGenesis c = _putBlock ext' fuel block isGenesis c)
  ∧ (validate c = true → Block.isGenesis block = true →
     _putBlock ext fuel block false c = Some (c, Err AlreadyHaveGenesis))
  ∧ (validate c = true → Block.isGenesis block = false →
     Block_validate ext c block = None → vapash_verifyPOW ext block = false →
     _putBlock ext fuel block isGenesis c
     = Some (set_detailsDb
               (set_numberIndex (vapash_cache ext (numberIndex (detailsDb c)) block)
                                (detailsDb c)) c,
             Err InvalidPOW))
  ∧ (validate c = true → Block.isGenesis block = true →
     Block_validate ext c block = None →
     _putBlock ext fuel block true c = putVerified fuel block true c).
Proof.
  split; [|split; [|split]].
  - intros Hv ext'. unfold _putBlock, verify, verifyPOW. rewrite Hv. reflexivity.
  - intros Hv Hgen. unfold _putBlock, verify. rewrite Hv, Hgen. reflexivity.
  - intros Hv Hgen Hval Hpow. unfold _putBlock, verify, verifyPOW.
    rewrite Hv, Hgen, Hval, Hpow, andb_false_r. reflexivity.
  - intros Hv Hgen Hval. unfold _putBlock, verify, verifyPOW.
    rewrite Hv, Hgen, Hval. reflexivity.
Qed.

End PutFacts.

(** ** Ingestion: the head *)

(** [self.meta] as [rebuildInfo] leaves it, whatever follows. *)
Lemma rebuildInfo_meta fuel c block isGenesis parentDetails m x :
  rebuildInfo fuel c block isGenesis parentDetails = (m, x) →
  m = if Block.isGenesis block
         || (Meta.td (meta c) <? totalDifficulty block isGenesis parentDetails)%N
      then
        let moved :=
          Meta.set_td (totalDifficulty block isGenesis parentDetails)
            (Meta.set_height (Some (Block.number block))
               (Meta.set_rawHead (Some (Block.hash block)) (meta c))) in
        if Block.isGenesis block then Meta.set_genesis (Some (Block.hash block)) moved
        else moved
      else meta c.
Proof.
  unfold rebuildInfo. intros H.
  destruct (Block.isGenesis block
            || (Meta.td (meta c) <? totalDifficulty block isGenesis parentDetails)%N).
  - destruct (Block.isGenesis block); injection H as <- _; reflexivity.
  - injection H as <- _. reflexivity.
Qed.

Section HeadFacts.
Variable ext : Externals.

Lemma put_head_meta_core fuel block isGenesis c c' :
  putVerified fuel block isGenesis c = Some (c', Ok tt) →
  Meta.heads (meta c') = Meta.heads (meta c)
  ∧ (becomesHead c block isGenesis = true →
     Meta.rawHead (meta c') = Some (Block.hash block)
     ∧ Meta.height (meta c') = Some (Block.number block)
     ∧ Meta.td (meta c') = ingestedTd c block isGenesis).
Proof.
  intros Hput.
  apply putVerified_Ok in Hput as (parentDetails & m & hp & ops & Hpar & Hinfo & ->).
  rewrite _batchDbOps_meta. cbn [meta set_meta].
  apply rebuildInfo_meta in Hinfo.
  rewrite (lookupParentBlock_ingestedTd _ _ _ _ Hpar) in Hinfo.
  fold (becomesHead c block isGenesis) in Hinfo.
  destruct (becomesHead c block isGenesis).
  - destruct (Block.isGenesis block); subst m; repeat split; reflexivity.
  - subst m. split; [reflexivity|discriminate].
Qed.

Lemma put_head_meta fuel block isGenesis c c' :
  _putBlock ext fuel block isGenesis c = Some (c', Ok tt) →
  Meta.heads (meta c') = Meta.heads (meta c)
  ∧ (becomesHead c block isGenesis = true →
     Meta.rawHead (meta c') = Some (Block.hash block)
     ∧ Meta.height (meta c') = Some (Block.number block)
     ∧ Meta.td (meta c') = ingestedTd c block isGenesis).
Proof.
  intros Hput. apply _putBlock_verified, put_head_meta_core in Hput.
  autorewrite with afterPOW in Hput. exact Hput.
Qed.

(** X5: no put moves a named head.  After a successful put that moves the
    raw head (a genesis block, or a heavier one), [getHead] for a name that
    has no head of its own, and that [Object.prototype] does not define,
    returns the block just put; for a name whose head is another hash it
    returns what it returned before. *)
Theorem getHead_after_put fuel block isGenesis c c' name :
  _putBlock ext fuel block isGenesis c = Some (c', Ok tt) →
  Meta.heads (meta c') = Meta.heads (meta c)
  ∧ (becomesHead c block isGenesis = true → Block.hash block ≠ ""%string →
     name ∉ objectPrototype →
     truthy (Meta.heads (meta c) !! name) = None →
     runGetHead c' name = Ok block)
  ∧ (∀ h, truthy (Meta.heads (meta c) !! name) = Some h → h ≠ Block.hash block →
          runGetHead c' name = runGetHead c name).
Proof.
  intros Hput.
  destruct (put_head_meta _ _ _ _ _ Hput) as (Hheads & Hhead).
  destruct (put_blockDb ext _ _ _ _ _ Hput) as (Hdb & Hget).
  split; [exact Hheads|]. split.
  - intros Hb Hne Hname Hnone. destruct (Hhead Hb) as (Hraw & _).
    rewrite runGetHead_cases by (left; exact Hname).
    rewrite Hheads, Hnone, Hraw. cbn [truthy].
    destruct (decide (Block.hash block = ""%string)); [contradiction|exact Hget].
  - intros h Hh Hne.
    assert (Hown : is_Some (Meta.heads (meta c) !! name)).
    { destruct (Meta.heads (meta c) !! name); [eauto|discriminate]. }
    rewrite !runGetHead_cases by (right; rewrite ?Hheads; exact Hown).
    rewrite Hheads, Hh.
    cbn [getBlock]. unfold lookupByHash. rewrite Hdb.
    rewrite lookup_insert_ne by congruence. reflexivity.
Qed.

Lemma genesis_put_core fuel block isGenesis c c' :
  Block.isGenesis block = true →
  putVerified fuel block isGenesis c = Some (c', Ok tt) →
  meta c' = Meta.mk (Meta.heads (meta c)) (Some (Block.hash block))
                    (Some (Block.number block)) (ingestedTd c block isGenesis)
                    (Some (Block.hash block))
  ∧ metaEntry (detailsDb c') = Some (meta c')
  ∧ numberIndex (detailsDb c')
    = <[Block.number block := Block.hash block]> (numberIndex (detailsDb c))
  ∧ detailEntries (detailsDb c')
    = <[Block.hash block :=
          Stored (Details.set_inChain true (freshDetails c block isGenesis))]>
        (detailEntries (detailsDb c))
  ∧ getBlock c' (TagInteger (Block.number block)) = Ok block.
Proof.
  intros Hgen Hput.
  destruct (put_blockDb_core _ _ _ _ _ Hput) as (Hdb & Hget).
  apply putVerified_Ok in Hput as (parentDetails & m & hp & ops & Hpar & Hinfo & ->).
  assert (Hstate :
    meta (_batchDbOps hp ops (set_meta m c))
    = Meta.mk (Meta.heads (meta c)) (Some (Block.hash block))
              (Some (Block.number block)) (ingestedTd c block isGenesis)
              (Some (Block.hash block))
    ∧ metaEntry (detailsDb (_batchDbOps hp ops (set_meta m c)))
      = Some (meta (_batchDbOps hp ops (set_meta m c)))
    ∧ numberIndex (detailsDb (_batchDbOps hp ops (set_meta m c)))
      = <[Block.number block := Block.hash block]> (numberIndex (detailsDb c))
    ∧ detailEntries (detailsDb (_batchDbOps hp ops (set_meta m c)))
      = <[Block.hash block :=
            Stored (Details.set_inChain true (freshDetails c block isGenesis))]>
          (detailEntries (detailsDb c))).
  { unfold freshDetails. destruct isGenesis.
    - unfold lookupParentBlock in Hpar. injection Hpar as <-.
      rewrite ingestedTd_genesis.
      unfold rebuildInfo in Hinfo. rewrite Hgen in Hinfo. cbn [orb] in Hinfo.
      injection Hinfo as <- <- <-. rewrite Hgen. repeat split; reflexivity.
    - apply lookupParentBlock_false in Hpar as (pd & -> & Hpd).
      rewrite (ingestedTd_parent _ _ _ Hpd).
      unfold rebuildInfo in Hinfo. rewrite Hgen in Hinfo. cbn [orb] in Hinfo.
      injection Hinfo as <- <- <-. rewrite Hgen. repeat split; reflexivity. }
  destruct Hstate as (Hm & He & Hn & Hd).
  repeat (split; [assumption|]).
  cbn [getBlock]. unfold lookupNumberToHash. rewrite Hn, lookup_insert_eq. exact Hget.
Qed.

Lemma genesis_put fuel block isGenesis c c' :
  Block.isGenesis block = true →
  _putBlock ext fuel block isGenesis c = Some (c', Ok tt) →
  meta c' = Meta.mk (Meta.heads (meta c)) (Some (Block.hash block))
                    (Some (Block.number block)) (ingestedTd c block isGenesis)
                    (Some (Block.hash block))
  ∧ metaEntry (detailsDb c') = Some (meta c')
  ∧ numberIndex (detailsDb c')
    = <[Block.number block := Block.hash block]> (numberIndex (detailsDb c))
  ∧ detailEntries (detailsDb c')
    = <[Block.hash block :=
          Stored (Details.set_inChain true (freshDetails c block isGenesis))]>
        (detailEntries (detailsDb c))
  ∧ getBlock c' (TagInteger (Block.number block)) = Ok block.
Proof.
  intros Hgen Hput. apply _putBlock_verified in Hput.
  rewrite (afterPOW_genesis _ _ _ Hgen) in Hput.
  exact (genesis_put_core _ _ _ _ _ Hgen Hput).
Qed.

(** X6: a successful put of a genesis block, with or without [isGenesis]:
    the block becomes [rawHead] and [genesis], [height] and [td] are its
    own, the stored meta is [self.meta], the number index points to it at
    its number, its details are stored with [inChain] set, and nothing else
    in the detail store changes; [getBlock] by its number returns it. *)
Theorem genesis_put_state fuel block isGenesis c c' :
  Block.isGenesis block = true →
  _putBlock ext fuel block isGenesis c = Some (c', Ok tt) →
  meta c' = Meta.mk (Meta.heads (meta c)) (Some (Block.hash block))
                    (Some (Block.number block)) (ingestedTd c block isGenesis)
                    (Some (Block.hash block))
  ∧ metaEntry (detailsDb c') = Some (meta c')
  ∧ numberIndex (detailsDb c')
    = <[Block.number block := Block.hash block]> (numberIndex (detailsDb c))
  ∧ detailEntries (detailsDb c')
    = <[Block.hash block :=
          Stored (Details.set_inChain true (freshDetails c block isGenesis))]>
        (detailEntries (detailsDb c))
  ∧ getBlock c' (TagInteger (Block.number block)) = Ok block.
Proof. apply genesis_put. Qed.

(** [relink], field by field. *)
Lemma relink_explicit hash d :
  relink hash d
  = Details.mk (Details.parent d) (Details.td d) (Details.number d) (Some hash)
      (spliceFirst hash (Details.staleChildren d)
       ++ match truthy (Details.child d) with
          | Some ch => if decide (ch = hash) then [] else [ch]
          | None => []
          end)
      (Details.genesis d) (Details.inChain d) (Details.marks d).
Proof.
  unfold relink. cbn.
  destruct (truthy (Details.child d)) as [ch|]; [destruct (decide (ch = hash))|];
    cbn; rewrite ?app_nil_r; reflexivity.
Qed.

Lemma extend_chain_core fuel block c c' pd :
  Block.isGenesis block = false →
  putVerified fuel block false c = Some (c', Ok tt) →
  getDetails c (Block.parentHash block) = Ok pd →
  Details.inChain pd = true →
  (Meta.td (meta c) < ingestedTd c block false)%N →
  meta c' = Meta.set_td (ingestedTd c block false)
              (Meta.set_height (Some (Block.number block))
                 (Meta.set_rawHead (Some (Block.hash block)) (meta c)))
  ∧ metaEntry (detailsDb c') = Some (meta c')
  ∧ numberIndex (detailsDb c')
    = <[Block.number block := Block.hash block]> (numberIndex (detailsDb c))
  ∧ detailEntries (detailsDb c')
    = <[Block.parentHash block :=
          Stored (relink (Block.hash block)
                    (Details.set_staleChildren
                       (Details.staleChildren pd ++ [Block.hash block]) pd))]>
        (<[Block.hash block :=
             Stored (Details.set_inChain true (freshDetails c block false))]>
           (detailEntries (detailsDb c))).
Proof.
  intros Hgen Hput Hpd Hin Hlt.
  apply putVerified_Ok in Hput as (parentDetails & m & hp & ops & Hpar & Hinfo & ->).
  apply lookupParentBlock_false in Hpar as (pd' & -> & Hpd').
  rewrite Hpd in Hpd'. injection Hpd' as <-.
  unfold freshDetails. rewrite (ingestedTd_parent _ _ _ Hpd) in *.
  apply N.ltb_lt in Hlt.
  unfold rebuildInfo in Hinfo. rewrite Hgen in Hinfo.
  cbn [totalDifficulty orb] in Hinfo. rewrite Hlt in Hinfo.
  injection Hinfo as <- Hre.
  destruct fuel as [|fuel]; [discriminate|].
  cbn -[relink] in Hre.
  destruct (relink_fields (Block.hash block)
              (Details.set_staleChildren
                 (Details.staleChildren pd ++ [Block.hash block]) pd)) as (Hri & _).
  cbn [Details.inChain Details.set_staleChildren] in Hri.
  rewrite Hri, Hin in Hre. injection Hre as <- <-.
  rewrite Hgen. repeat split; reflexivity.
Qed.

(** X7: a successful put that extends the chain (the parent has [inChain]
    set, the block is not a genesis block and is heavier than the head): the
    meta moves to the block and is stored; the number index, as the verifier
    left it when [validate] is on, points to the block at its number; the
    block's details are stored with [inChain] set; the parent's details are
    stored with the block as [child], a different former child moved to the
    end of [staleChildren], and the other fields as they were; and no other
    details change: a former child of the parent keeps its details, its
    [inChain] included. *)
Theorem extend_chain_state fuel block c c' pd :
  Block.isGenesis block = false →
  _putBlock ext fuel block false c = Some (c', Ok tt) →
  getDetails c (Block.parentHash block) = Ok pd →
  Details.inChain pd = true →
  (Meta.td (meta c) < Block.difficulty block + Details.td pd)%N →
  meta c' = Meta.mk (Meta.heads (meta c)) (Some (Block.hash block))
              (Some (Block.number block)) (Block.difficulty block + Details.td pd)
              (Meta.genesis (meta c))
  ∧ metaEntry (detailsDb c') = Some (meta c')
  ∧ numberIndex (detailsDb c')
    = <[Block.number block := Block.hash block]>
        (if validate c then vapash_cache ext (numberIndex (detailsDb c)) block
         else numberIndex (detailsDb c))
  ∧ detailEntries (detailsDb c')
    = <[Block.parentHash block :=
          Stored (Details.mk (Details.parent pd) (Details.td pd) (Details.number pd)
                    (Some (Block.hash block))
                    (spliceFirst (Block.hash block)
                                 (Details.staleChildren pd ++ [Block.hash block])
                     ++ match truthy (Details.child pd) with
                        | Some ch => if decide (ch = Block.hash block) then [] else [ch]
                        | None => []
                        end)
                    (Details.genesis pd) true (Details.marks pd))]>
        (<[Block.hash block :=
             Stored (Details.mk (Block.parentHash block)
                       (Block.difficulty block + Details.td pd) (Block.number block)
                       None [] false true ∅)]>
           (detailEntries (detailsDb c))).
Proof.
  intros Hgen Hput Hpd Hin Hlt. apply _putBlock_verified in Hput.
  rewrite <- (ingestedTd_parent _ _ _ Hpd) in Hlt.
  assert (Hpd' : getDetails (afterPOW ext c block) (Block.parentHash block) = Ok pd)
    by (rewrite afterPOW_getDetails; exact Hpd).
  assert (Hlt' : (Meta.td (meta (afterPOW ext c block))
                  < ingestedTd (afterPOW ext c block) block false)%N)
    by (autorewrite with afterPOW; exact Hlt).
  destruct (extend_chain_core _ _ _ _ _ Hgen Hput Hpd' Hin Hlt') as (Hm & He & Hn & Hd).
  autorewrite with afterPOW in *. rewrite (afterPOW_index _ _ _ Hgen) in Hn.
  rewrite relink_explicit in Hd. unfold freshDetails in Hd.
  rewrite (ingestedTd_parent _ _ _ Hpd) in *.
  cbn in Hd. rewrite Hgen, Hin in Hd.
  split; [exact Hm|]. split; [exact He|]. split; [exact Hn|exact Hd].
Qed.

End HeadFacts.

(** ** Ingestion: relinking and termination *)

Lemma spliceFirst_app_last hash l :
  hash ∉ l → spliceFirst hash (l ++ [hash]) = l.
Proof.
  induction l as [|x l IH]; intros Hnot; simpl.
  - destruct (decide (hash = hash)); [reflexivity|contradiction].
  - apply not_elem_of_cons in Hnot as [Hne Hnot].
    destruct (decide (x = hash)); [congruence|]. rewrite IH by assumption. reflexivity.
Qed.

Lemma truthy_Some o h : truthy o = Some h → o = Some h ∧ h ≠ ""%string.
Proof.
  destruct o as [x|]; simpl; [|discriminate].
  destruct (decide (x = ""%string)); [discriminate|]. intros [= ->]. auto.
Qed.

(** X8: what the put of a new child does to the parent's details, through
    the push of [rebuildInfo] and the head of [_rebuildBlockchain]: for a
    hash not yet among the [staleChildren] of tidy details (no hash twice,
    the [child] not among them), the hash becomes the [child], a different
    former child goes to the end of [staleChildren], nothing else enters or
    leaves, and the details are tidy again. *)
Theorem relink_after_push hash pd :
  tidy pd →
  hash ∉ Details.staleChildren pd →
  let pd' := relink hash (Details.set_staleChildren
                            (Details.staleChildren pd ++ [hash]) pd) in
  Details.child pd' = Some hash
  ∧ Details.staleChildren pd'
    = Details.staleChildren pd
      ++ match truthy (Details.child pd) with
         | Some ch => if decide (ch = hash) then [] else [ch]
         | None => []
         end
  ∧ tidy pd'.
Proof.
  intros [Hnodup Hchild] Hnot pd'. subst pd'. unfold relink, tidy.
  cbn [Details.staleChildren Details.child Details.set_staleChildren Details.set_child].
  rewrite spliceFirst_app_last by assumption.
  destruct (truthy (Details.child pd)) as [ch|] eqn:Hch.
  - apply truthy_Some in Hch as [Hch _].
    destruct (decide (ch = hash)) as [->|Hne];
      cbn [Details.staleChildren Details.child Details.set_staleChildren Details.set_child].
    + rewrite app_nil_r. split; [reflexivity|]. split; [reflexivity|].
      split; [assumption|]. intros ? [= <-]. assumption.
    + split; [reflexivity|]. split; [reflexivity|]. split.
      * apply NoDup_app. split; [assumption|]. split; [|apply NoDup_singleton].
        intros x Hx Hx'. apply list_elem_of_singleton in Hx'. subst x.
        exact (Hchild _ Hch Hx).
      * intros ? [= <-]. intros Hin. apply elem_of_app in Hin as [Hin|Hin];
          [contradiction|]. apply list_elem_of_singleton in Hin. congruence.
  - cbn [Details.staleChildren Details.child Details.set_staleChildren Details.set_child].
    rewrite app_nil_r. split; [reflexivity|]. split; [reflexivity|].
    split; [assumption|]. intros ? [= <-]. assumption.
Qed.

Lemma reachesChain_stored c h n : reachesChain c h n → ∃ d, getDetails c h = Ok d.
Proof. destruct 1; eauto. Qed.

Lemma _rebuildBlockchain_terminates c h n :
  reachesChain c h n →
  ∀ fuel hash r (hp : heap) ops pd d,
    hp !! r = Some pd →
    getDetails c h = Ok d →
    Details.inChain pd = Details.inChain d →
    Details.parent pd = Details.parent d →
    (n < fuel)%nat →
    ∃ res, _rebuildBlockchain fuel c hash h (Some r) hp ops = Some res ∧ res ≠ Thrown.
Proof.
  induction 1 as [h d0 Hd0 Hin0|h d0 n Hd0 Hin0 Hup IH];
    intros fuel hash r hp ops pd d Hr Hd Hin Hpar Hfuel;
    (destruct fuel as [|fuel]; [lia|]);
    rewrite Hd0 in Hd; injection Hd as <-;
    cbn [_rebuildBlockchain]; rewrite Hr;
    destruct (relink_fields hash pd) as (Hri & Hrp & _).
  - rewrite Hri, Hin, Hin0. eexists. split; [reflexivity|discriminate].
  - rewrite Hri, Hin, Hin0.
    destruct (lookupNumberToHash c _) as [staleHash|e|] eqn:Hn;
      [|eexists; split; [reflexivity|discriminate]|].
    2:{ unfold lookupNumberToHash in Hn.
        destruct (numberIndex (detailsDb c) !! _); discriminate. }
    destruct (getDetails c staleHash) as [sd|e|] eqn:Hs;
      [|eexists; split; [reflexivity|discriminate]|].
    2:{ unfold getDetails in Hs.
        destruct (detailEntries (detailsDb c) !! staleHash) as [[]|]; discriminate. }
    cbn [Details.parent Details.set_inChain]. rewrite Hrp, Hpar.
    destruct (reachesChain_stored _ _ _ Hup) as [d' Hd'].
    rewrite Hd'. eapply IH; try exact Hd'; try reflexivity; [|lia].
    rewrite lookup_app_r by lia. rewrite Nat.sub_diag. reflexivity.
Qed.

Lemma reachesChain_afterPOW (ext : Externals) c block h n :
  reachesChain c h n → reachesChain (afterPOW ext c block) h n.
Proof.
  induction 1 as [h d Hd Hin|h d n Hd Hin _ IH].
  - eapply reachesChain_here; [rewrite afterPOW_getDetails|]; eassumption.
  - eapply reachesChain_up; [rewrite afterPOW_getDetails| |]; eassumption.
Qed.

Lemma putVerified_calls_back fuel block c n :
  reachesChain c (Block.parentHash block) n →
  (n < fuel)%nat →
  ∃ c' r, putVerified fuel block false c = Some (c', r) ∧ r ≠ Thrown.
Proof.
  intros Hreach Hfuel. unfold putVerified.
  destruct (reachesChain_stored _ _ _ Hreach) as [pd Hpd].
  unfold lookupParentBlock. rewrite Hpd.
  assert (Hre : ∀ hash ops hp',
            ∃ res, _rebuildBlockchain fuel c hash (Block.parentHash block) (Some 0%nat)
                     (Details.set_staleChildren
                        (Details.staleChildren pd ++ [Block.hash block]) pd :: hp') ops
                   = Some res ∧ res ≠ Thrown).
  { intros hash ops hp'.
    eapply _rebuildBlockchain_terminates; try exact Hreach; try exact Hpd;
      try reflexivity; assumption. }
  unfold rebuildInfo.
  destruct (Block.isGenesis block
            || (Meta.td (meta c) <? totalDifficulty block false (Some pd))%N);
    [|eexists _, _; split; [reflexivity|discriminate]].
  destruct (Block.isGenesis block); [eexists _, _; split; [reflexivity|discriminate]|].
  match goal with |- context [_rebuildBlockchain fuel c ?a ?b ?r ?hp ?ops] =>
    assert (Hx : ∃ res, _rebuildBlockchain fuel c a b r hp ops = Some res ∧ res ≠ Thrown)
      by apply Hre end.
  destruct Hx as (res & Hx & Hres). rewrite Hx.
  destruct res as [[hp1 ops1]|e|]; [| |contradiction];
    eexists _, _; (split; [reflexivity|discriminate]).
Qed.

(** X9: a put calls back.  For a block whose number and difficulty are
    within the range of [bufferToInt], put with [isGenesis] unset, and a
    parent from which the canonical chain is met after [n] steps along
    [parent], the rebuilder needs no more than [n + 1] calls, and the put
    ends with a call of its callback, with or without an error: nothing is
    thrown. *)
Theorem put_calls_back (ext : Externals) fuel block c n :
  Z.of_N (Block.difficulty block) < maxSafe →
  0 ≤ Block.number block < maxSafe →
  reachesChain c (Block.parentHash block) n →
  (n < fuel)%nat →
  ∃ c' r, _putBlock ext fuel block false c = Some (c', r) ∧ r ≠ Thrown.
Proof.
  intros _ _ Hreach Hfuel.
  destruct (_putBlock_cases ext fuel block false c)
    as [(e & _ & Hc)|[(_ & _ & _ & _ & Hc)|(_ & Hc)]]; rewrite Hc.
  - eexists _, _. split; [reflexivity|discriminate].
  - eexists _, _. split; [reflexivity|discriminate].
  - apply putVerified_calls_back with (n := n); [|exact Hfuel].
    apply reachesChain_afterPOW, Hreach.
Qed.

(** ** Range retrieval: bounds *)

Section GetBlocksBounds.
Variable getBlock_ : blockTag → result Block.t.
Variables (maxBlocks skip : Z) (reverse : bool).

Lemma nextBlock_extends fuel :
  ∀ i blocks blockId bs,
    nextBlock getBlock_ maxBlocks skip reverse fuel i blocks blockId = Some (Ok bs) →
    ∃ more, bs = blocks ++ more.
Proof.
  induction fuel as [|fuel IH]; intros i blocks blockId bs H;
    cbn [nextBlock] in H; [discriminate|].
  destruct (getBlock_ blockId) as [block|e|]; [| |discriminate].
  - destruct (negb (i + 1 =? 0) && negb (skip =? 0) && negb (Z.rem (i + 1) (skip + 1) =? 0)).
    + eapply IH, H.
    + destruct (Z.of_nat (length (blocks ++ [block])) =? maxBlocks).
      * injection H as <-. eauto.
      * apply IH in H as [more ->]. exists (block :: more). by rewrite <- app_assoc.
  - injection H as <-. exists []. by rewrite app_nil_r.
Qed.

Lemma nextBlock_at_most fuel :
  ∀ i blocks blockId bs,
    Z.of_nat (length blocks) < maxBlocks →
    nextBlock getBlock_ maxBlocks skip reverse fuel i blocks blockId = Some (Ok bs) →
    Z.of_nat (length bs) ≤ maxBlocks.
Proof.
  induction fuel as [|fuel IH]; intros i blocks blockId bs Hlt H;
    cbn [nextBlock] in H; [discriminate|].
  destruct (getBlock_ blockId) as [block|e|]; [| |discriminate].
  - destruct (negb (i + 1 =? 0) && negb (skip =? 0) && negb (Z.rem (i + 1) (skip + 1) =? 0)).
    + eapply IH; [exact Hlt|exact H].
    + destruct (Z.of_nat (length (blocks ++ [block])) =? maxBlocks) eqn:Hmax.
      * injection H as <-. apply Z.eqb_eq in Hmax. lia.
      * apply Z.eqb_neq in Hmax. eapply IH; [|exact H].
        rewrite length_app, Nat2Z.inj_add in *. simpl in *. lia.
  - injection H as <-. lia.
Qed.

Lemma nextBlock_runs_to_failure fuel :
  maxBlocks ≤ 0 →
  ∀ i blocks blockId bs,
    nextBlock getBlock_ maxBlocks skip reverse fuel i blocks blockId = Some (Ok bs) →
    ∃ x e, visits getBlock_ reverse blockId x ∧ getBlock_ x = Err e.
Proof.
  intros Hmax.
  induction fuel as [|fuel IH]; intros i blocks blockId bs H;
    cbn [nextBlock] in H; [discriminate|].
  destruct (getBlock_ blockId) as [block|e|] eqn:Hget; [| |discriminate].
  - assert (Hnext : ∀ x e,
              visits getBlock_ reverse
                (TagInteger (Block.number block + (if reverse then -1 else 1))) x
              ∧ getBlock_ x = Err e →
              ∃ x e, visits getBlock_ reverse blockId x ∧ getBlock_ x = Err e).
    { intros x e [Hx He]. exists x, e. split; [eapply visits_next; eassumption|exact He]. }
    destruct (negb (i + 1 =? 0) && negb (skip =? 0) && negb (Z.rem (i + 1) (skip + 1) =? 0)).
    + apply IH in H as (x & e & Hx). eauto.
    + destruct (Z.of_nat (length (blocks ++ [block])) =? maxBlocks) eqn:Hlen.
      * apply Z.eqb_eq in Hlen. rewrite length_app, Nat2Z.inj_add in Hlen. simpl in Hlen. lia.
      * apply IH in H as (x & e & Hx). eauto.
  - exists blockId, e. split; [constructor|exact Hget].
Qed.

End GetBlocksBounds.

(** X10: the list that [getBlocks] calls back with begins with the block
    found under the starting id, and for a positive [maxBlocks] it holds no
    more than [maxBlocks] blocks. *)
Theorem getBlocks_first_and_bound getBlock_ maxBlocks skip reverse fuel blockId bs :
  getBlocks_with getBlock_ maxBlocks skip reverse fuel blockId = Some (Ok bs) →
  (∀ block, getBlock_ blockId = Ok block → ∃ rest, bs = block :: rest)
  ∧ (1 ≤ maxBlocks → Z.of_nat (length bs) ≤ maxBlocks).
Proof.
  intros H. split.
  - intros block Hget. unfold getBlocks_with in H.
    destruct fuel as [|fuel]; [discriminate|]. cbn [nextBlock] in H.
    rewrite Hget in H. change (-1 + 1 =? 0) with true in H. cbn [negb andb] in H.
    destruct (Z.of_nat (length ([] ++ [block])) =? maxBlocks).
    + injection H as <-. eauto.
    + apply nextBlock_extends in H as [more ->]. eauto.
  - intros Hmax. eapply nextBlock_at_most; [|exact H]. simpl. lia.
Qed.

(** X11: with a [maxBlocks] of zero or less the count is never met:
    whenever [getBlocks] calls back, the walk has run into a lookup that
    failed. *)
Theorem getBlocks_without_maximum getBlock_ maxBlocks skip reverse fuel blockId bs :
  maxBlocks ≤ 0 →
  getBlocks_with getBlock_ maxBlocks skip reverse fuel blockId = Some (Ok bs) →
  ∃ x e, visits getBlock_ reverse blockId x ∧ getBlock_ x = Err e.
Proof. intros Hmax H. eapply nextBlock_runs_to_failure; eassumption. Qed.

(** ** Needed hashes: the search with a lookup in place *)

Section LogarithmicSearch.
Variable f : hex → result Details.t.
Variable hashes : list hex.
Variable n : Z.
Hypothesis n_range : 0 ≤ n ≤ Z.of_nat (length hashes).
Hypothesis known_prefix :
  ∀ i h, hashes !! i = Some h → ((∃ d, f h = Ok d) ↔ Z.of_nat i < n).
Hypothesis calls_back : ∀ h, f h ≠ Thrown.

Lemma whilst_halves fuel :
  ∀ (k : nat) min max,
    0 ≤ min → max < Z.of_nat (length hashes) →
    min ≤ n ≤ max + 1 →
    max - min + 1 < 2 ^ Z.of_nat k →
    (k < fuel)%nat →
    whilst (Some f) hashes fuel min max ((min + max) / 2) = Some (Ok n).
Proof.
  induction fuel as [|fuel IH]; intros k min max Hmin Hmax Hn Hw Hfuel; [lia|].
  cbn [whilst].
  destruct (min <=? max) eqn:Hle.
  - apply Z.leb_le in Hle.
    destruct k as [|k]; [simpl in Hw; lia|].
    rewrite Nat2Z.inj_succ, Z.pow_succ_r in Hw by lia.
    pose proof (Z.div_mod (min + max) 2 ltac:(lia)) as Hdm.
    pose proof (Z.mod_pos_bound (min + max) 2 ltac:(lia)) as Hb.
    set (mid := (min + max) / 2) in *.
    destruct (0 <=? mid) eqn:H0; [|apply Z.leb_gt in H0; lia].
    destruct (hashes !! Z.to_nat mid) as [h|] eqn:Hh;
      [|apply lookup_ge_None in Hh; lia].
    pose proof (known_prefix _ _ Hh) as Hk. rewrite Z2Nat.id in Hk by lia.
    destruct (f h) as [d|e|] eqn:Hf.
    + assert (mid < n) by (apply Hk; eauto).
      apply (IH k); lia.
    + assert (¬ mid < n) by (intros Hlt; apply Hk in Hlt as [d Hd]; discriminate).
      apply (IH k); lia.
    + destruct (calls_back _ Hf).
  - apply Z.leb_gt in Hle. f_equal. f_equal. lia.
Qed.

End LogarithmicSearch.

(** X12: the loop of [selectNeededHashes], run with a lookup [f] as
    [self.getBlockInfo] that calls back for every hash (with details or with
    an error, never throwing), on a list whose first [n] hashes are the ones
    that [f] finds: it calls back with the hashes from position [n] on, and
    for a list of fewer than [2 ^ k] hashes it does so within [k + 2] tests
    of the loop condition, that is after at most [k + 1] lookups.  A lookup
    that throws at the first hash makes the call throw. *)
Theorem selectNeededHashes_logarithmic f hashes n (k fuel : nat) :
  0 ≤ n ≤ Z.of_nat (length hashes) →
  (∀ i h, hashes !! i = Some h → ((∃ d, f h = Ok d) ↔ Z.of_nat i < n)) →
  Z.of_nat (length hashes) < 2 ^ Z.of_nat k →
  (k + 2 ≤ fuel)%nat →
  ((∀ h, f h ≠ Thrown) →
   selectNeededHashes_with (Some f) hashes fuel = Some (Ok (drop (Z.to_nat n) hashes)))
  ∧ (∀ h, hashes !! 0%nat = Some h → f h = Thrown →
          selectNeededHashes_with (Some f) hashes fuel = Some Thrown).
Proof.
  intros Hn Hknown Hlen Hfuel. split.
  2:{ intros h Hh Hf. unfold selectNeededHashes_with.
      destruct fuel as [|fuel]; [lia|]. cbn [whilst].
      assert (Hlen' : (0 < length hashes)%nat) by (apply lookup_lt_is_Some; eauto).
      destruct (0 <=? Z.of_nat (length hashes) - 1) eqn:Hle;
        [|apply Z.leb_gt in Hle; lia].
      change (0 <=? 0) with true. change (Z.to_nat 0) with 0%nat. cbv iota.
      rewrite Hh, Hf. reflexivity. }
  intros Hcb. unfold selectNeededHashes_with.
  assert (H : whilst (Some f) hashes fuel 0 (Z.of_nat (length hashes) - 1) 0 = Some (Ok n));
    [|rewrite H; reflexivity].
  destruct fuel as [|fuel]; [lia|]. cbn [whilst].
  destruct (0 <=? Z.of_nat (length hashes) - 1) eqn:Hle.
  - apply Z.leb_le in Hle. change (0 <=? 0) with true.
    change (Z.to_nat 0) with 0%nat. cbv iota.
    destruct (hashes !! 0%nat) as [h|] eqn:Hh; [|apply lookup_ge_None in Hh; lia].
    pose proof (Hknown _ _ Hh) as Hk. cbn [Z.of_nat] in Hk.
    destruct (f h) as [d|e|] eqn:Hf.
    + assert (0 < n) by (apply Hk; eauto).
      apply (whilst_halves f hashes n Hknown Hcb fuel k); lia.
    + assert (¬ 0 < n) by (intros Hlt; apply Hk in Hlt as [d Hd]; discriminate).
      apply (whilst_halves f hashes n Hknown Hcb fuel k);
        first [lia | pose proof (Z.pow_pos_nonneg 2 (Z.of_nat k)); lia].
    + destruct (Hcb _ Hf).
  - apply Z.leb_gt in Hle. f_equal. f_equal. lia.
Qed.

(** ** Deletion: what a successful [delBlock] leaves *)

Lemma headsAt_spec m k name : name ∈ headsAt m k ↔ Meta.heads m !! name = Some k.
Proof.
  unfold headsAt. rewrite list_elem_of_fmap. split.
  - intros ([n v] & -> & Hin). apply list_elem_of_filter in Hin as [Hv Hin].
    simpl in Hv. subst v. apply elem_of_map_to_list in Hin. exact Hin.
  - intros H. exists (name, k). split; [reflexivity|].
    apply list_elem_of_filter. split; [reflexivity|]. apply elem_of_map_to_list. exact H.
Qed.

Lemma onChildChain_inv c h k :
  onChildChain c h k →
  k = h ∨ ∃ d child, getDetails c h = Ok d ∧ truthy (Details.child d) = Some child
                      ∧ onChildChain c child k.
Proof. destruct 1; eauto 6. Qed.

(** What [_delBlock] adds to the two arrays: deletes for the blocks of the
    child chain, and the names of the heads at these blocks. *)
Lemma _delBlock_adds fuel c :
  ∀ h dbOps resetHeads dbOps' resetHeads',
    _delBlock fuel c h dbOps resetHeads = Some (Ok (dbOps', resetHeads')) →
    ∃ new names,
      dbOps' = dbOps ++ new ∧ resetHeads' = resetHeads ++ names
      ∧ Forall isDelete new
      ∧ (∀ k, DelDetail k ∈ new ↔ onChildChain c h k)
      ∧ (∀ name, name ∈ names ↔
                 ∃ k, onChildChain c h k ∧ Meta.heads (meta c) !! name = Some k).
Proof.
  induction fuel as [|fuel IH]; intros h dbOps resetHeads dbOps' resetHeads' H;
    cbn [_delBlock] in H; [discriminate|].
  destruct (getDetails c h) as [details|e|] eqn:Hd; try discriminate.
  unfold staleChildern in H. cbn [fold_left] in H.
  destruct (truthy (Details.child details)) as [child|] eqn:Hch.
  - apply IH in H as (new & names & -> & -> & Hdel & Hops & Hnames).
    exists ([DelDetail h; DelBlock h] ++ new), (headsAt (meta c) h ++ names).
    split; [by rewrite <- app_assoc|]. split; [by rewrite <- app_assoc|].
    split; [repeat constructor; exact Hdel|]. split.
    + intros k. cbn [app]. rewrite !elem_of_cons, Hops. split.
      * intros [[= ->]|[Hk|Hk]]; [constructor|discriminate|].
        eapply onChildChain_down; eassumption.
      * intros Hk. apply onChildChain_inv in Hk as [->|(d & ch & Hd' & Hch' & Hk)];
          [left; reflexivity|].
        rewrite Hd in Hd'. injection Hd' as <-. rewrite Hch in Hch'. injection Hch' as <-.
        right; right. exact Hk.
    + intros name. rewrite elem_of_app, headsAt_spec, Hnames. split.
      * intros [Hh|(k & Hk & Hh)]; [exists h; split; [constructor|exact Hh]|].
        exists k. split; [eapply onChildChain_down; eassumption|exact Hh].
      * intros (k & Hk & Hh).
        apply onChildChain_inv in Hk as [->|(d & ch & Hd' & Hch' & Hk)]; [left; exact Hh|].
        rewrite Hd in Hd'. injection Hd' as <-. rewrite Hch in Hch'. injection Hch' as <-.
        right. eauto.
  - injection H as <- <-.
    exists [DelDetail h; DelBlock h], (headsAt (meta c) h).
    split; [reflexivity|]. split; [reflexivity|].
    split; [repeat constructor|]. split.
    + intros k. rewrite !elem_of_cons. split.
      * intros [[= ->]|[Hk|Hk]]; [constructor|discriminate|]. inversion Hk.
      * intros Hk. apply onChildChain_inv in Hk as [->|(d & ch & Hd' & Hch' & Hk)];
          [left; reflexivity|].
        rewrite Hd in Hd'. injection Hd' as <-. rewrite Hch in Hch'. discriminate.
    + intros name. rewrite headsAt_spec. split.
      * intros Hh. exists h. split; [constructor|exact Hh].
      * intros (k & Hk & Hh).
        apply onChildChain_inv in Hk as [->|(d & ch & Hd' & Hch' & Hk)]; [exact Hh|].
        rewrite Hd in Hd'. injection Hd' as <-. rewrite Hch in Hch'. discriminate.
Qed.

Lemma deletes_remove hp m ops :
  Forall isDelete ops →
  ∀ c k,
    detailEntries (detailsDb c) !! k = None ∨ DelDetail k ∈ ops →
    detailEntries (detailsDb (fold_left (applyOp hp m) ops c)) !! k = None.
Proof.
  induction 1 as [|op ops Hop Hrest IH]; intros c k Hk; cbn [fold_left].
  - destruct Hk as [Hk|Hk]; [exact Hk|inversion Hk].
  - apply IH. destruct Hk as [Hk|Hk].
    + left. destruct op; simpl in *; try tauto.
      destruct (decide (h = k)) as [->|Hne];
        [apply lookup_delete_eq|rewrite lookup_delete_ne by exact Hne; exact Hk].
    + apply elem_of_cons in Hk as [<-|Hk]; [|right; exact Hk].
      left. simpl. apply lookup_delete_eq.
Qed.

Lemma deletes_frame hp m ops c k :
  Forall isDelete ops → DelDetail k ∉ ops →
  detailEntries (detailsDb (fold_left (applyOp hp m) ops c)) !! k
  = detailEntries (detailsDb c) !! k.
Proof.
  intros Hall Hnot. apply fold_applyOp_detail_frame.
  apply Forall_forall. intros op Hop Htouch.
  rewrite Forall_forall in Hall. specialize (Hall _ Hop).
  destruct op; simpl in *; try tauto. subst. contradiction.
Qed.

Lemma deletes_keep_index hp m ops c :
  Forall isDelete ops →
  numberIndex (detailsDb (fold_left (applyOp hp m) ops c)) = numberIndex (detailsDb c)
  ∧ metaEntry (detailsDb (fold_left (applyOp hp m) ops c)) = metaEntry (detailsDb c)
  ∧ quotedMetaEntry (detailsDb (fold_left (applyOp hp m) ops c))
    = quotedMetaEntry (detailsDb c).
Proof.
  revert c. induction ops as [|op ops IH]; intros c Hall; [auto|].
  inversion Hall as [|? ? Hop Hrest]; subst. cbn [fold_left].
  destruct (IH (applyOp hp m c op) Hrest) as (-> & -> & ->).
  destruct op; simpl in *; tauto.
Qed.

Lemma reset_heads_lookup (parent : hex) names (hs : gmap string hex) name :
  fold_left (λ hs head, <[head := parent]> hs) names hs !! name
  = if decide (name ∈ names) then Some parent else hs !! name.
Proof.
  revert hs. induction names as [|n names IH]; intros hs; cbn [fold_left].
  - destruct (decide (name ∈ [])) as [Hin|]; [inversion Hin|reflexivity].
  - rewrite IH. destruct (decide (name ∈ names)) as [Hin|Hnot].
    + destruct (decide (name ∈ n :: names)) as [|Hn]; [reflexivity|].
      destruct Hn. by right.
    + destruct (decide (name = n)) as [->|Hne].
      * rewrite lookup_insert_eq. destruct (decide (n ∈ n :: names)) as [|Hn]; [reflexivity|].
        destruct Hn. by left.
      * rewrite lookup_insert_ne by congruence.
        destruct (decide (name ∈ n :: names)) as [Hn|]; [|reflexivity].
        apply elem_of_cons in Hn as [|]; contradiction.
Qed.

(** A successful [delBlock] in its parts. *)
Lemma delBlock_Ok fuel c h c' :
  delBlock fuel c (OfBuffer h) = Some (c', Ok tt) →
  ∃ dbOps names details,
    getDetails c h = Ok details
    ∧ Forall isDelete dbOps
    ∧ (∀ k, DelDetail k ∈ dbOps ↔ onChildChain c h k)
    ∧ (∀ name, name ∈ names ↔
               ∃ k, onChildChain c h k ∧ Meta.heads (meta c) !! name = Some k)
    ∧ c' = _batchDbOps [] dbOps
             (set_meta
                (Meta.set_heads
                   (fold_left (λ hs head, <[head := Details.parent details]> hs) names
                      (Meta.heads (meta c)))
                   (if Details.inChain details
                    then Meta.set_rawHead (Some (Details.parent details)) (meta c)
                    else meta c)) c).
Proof.
  unfold delBlock. intros H.
  destruct (_delBlock fuel c h [] []) as [[[dbOps resetHeads]|e|]|] eqn:Hdel;
    try discriminate.
  destruct (getDetails c h) as [details|e|] eqn:Hd; try discriminate.
  injection H as <-.
  apply _delBlock_adds in Hdel as (new & names & -> & -> & Hall & Hops & Hnames).
  exists new, names, details. repeat split; try assumption; try apply Hops; try apply Hnames.
  destruct (Details.inChain details); reflexivity.
Qed.

(** X13: after a successful [delBlock], the detail store has lost the
    details of the block and of every block met from it by following
    [child], and holds all other details as before (those of the stale
    children among them). *)
Theorem delBlock_removes_child_chain fuel c h c' :
  delBlock fuel c (OfBuffer h) = Some (c', Ok tt) →
  ∀ k, (onChildChain c h k → detailEntries (detailsDb c') !! k = None)
       ∧ (¬ onChildChain c h k →
          detailEntries (detailsDb c') !! k = detailEntries (detailsDb c) !! k).
Proof.
  intros H k.
  apply delBlock_Ok in H as (dbOps & names & details & _ & Hall & Hops & _ & ->).
  unfold _batchDbOps. split; intros Hk.
  - apply deletes_remove; [exact Hall|]. right. apply Hops, Hk.
  - rewrite deletes_frame; [reflexivity|exact Hall|]. intros Hin. apply Hk, Hops, Hin.
Qed.

(** X14: a successful [delBlock] leaves every lookup of a block as it was:
    [getBlock], by hash or by number, returns after it what it returned
    before, for the deleted blocks too.  The number index and the stored
    meta are not written, and [td], [height] and [genesis] of [self.meta]
    stay. *)
Theorem delBlock_keeps_lookups fuel c h c' :
  delBlock fuel c (OfBuffer h) = Some (c', Ok tt) →
  (∀ blockTag, getBlock c' blockTag = getBlock c blockTag)
  ∧ numberIndex (detailsDb c') = numberIndex (detailsDb c)
  ∧ metaEntry (detailsDb c') = metaEntry (detailsDb c)
  ∧ Meta.td (meta c') = Meta.td (meta c)
  ∧ Meta.height (meta c') = Meta.height (meta c)
  ∧ Meta.genesis (meta c') = Meta.genesis (meta c).
Proof.
  intros H.
  pose proof (λ k, delBlock_keeps_blocks _ _ _ _ _ k H) as Hblocks.
  apply delBlock_Ok in H as (dbOps & names & details & _ & Hall & _ & _ & ->).
  destruct (deletes_keep_index [] 
              (meta (set_meta
                (Meta.set_heads
                   (fold_left (λ hs head, <[head := Details.parent details]> hs) names
                      (Meta.heads (meta c)))
                   (if Details.inChain details
                    then Meta.set_rawHead (Some (Details.parent details)) (meta c)
                    else meta c)) c)) dbOps
              (set_meta
                (Meta.set_heads
                   (fold_left (λ hs head, <[head := Details.parent details]> hs) names
                      (Meta.heads (meta c)))
                   (if Details.inChain details
                    then Meta.set_rawHead (Some (Details.parent details)) (meta c)
                    else meta c)) c) Hall) as (Hn & Hm & _).
  split; [|split; [exact Hn|split; [exact Hm|]]].
  - intros [k|n|]; cbn [getBlock]; unfold lookupNumberToHash, lookupByHash.
    + rewrite Hblocks. reflexivity.
    + unfold _batchDbOps. rewrite Hn. cbn [detailsDb set_meta].
      destruct (numberIndex (detailsDb c) !! n) as [k|]; [|reflexivity].
      rewrite Hblocks. reflexivity.
    + reflexivity.
  - rewrite _batchDbOps_meta. cbn [meta set_meta].
    destruct (Details.inChain details); repeat split; reflexivity.
Qed.

(** X15: what a successful [delBlock] does to the heads: [rawHead] becomes
    the parent of the deleted block when that block had [inChain] set and
    stays otherwise; every named head that pointed at the block or at a
    block of its child chain is set to the parent of the deleted block;
    every other named head stays. *)
Theorem delBlock_resets_heads fuel c h c' :
  delBlock fuel c (OfBuffer h) = Some (c', Ok tt) →
  ∃ details,
    getDetails c h = Ok details
    ∧ Meta.rawHead (meta c')
      = (if Details.inChain details then Some (Details.parent details)
         else Meta.rawHead (meta c))
    ∧ ∀ name,
        ((∃ k, onChildChain c h k ∧ Meta.heads (meta c) !! name = Some k) →
         Meta.heads (meta c') !! name = Some (Details.parent details))
        ∧ ((∀ k, onChildChain c h k → Meta.heads (meta c) !! name ≠ Some k) →
           Meta.heads (meta c') !! name = Meta.heads (meta c) !! name).
Proof.
  intros H.
  apply delBlock_Ok in H as (dbOps & names & details & Hd & _ & _ & Hnames & ->).
  exists details. split; [exact Hd|].
  rewrite _batchDbOps_meta. cbn [meta set_meta Meta.rawHead Meta.heads Meta.set_heads].
  split; [destruct (Details.inChain details); reflexivity|].
  intros name.
  assert (Hheads : ∀ m, Meta.heads (if Details.inChain details
                                    then Meta.set_rawHead (Some (Details.parent details)) m
                                    else m) = Meta.heads m)
    by (intros m; destruct (Details.inChain details); reflexivity).
  rewrite reset_heads_lookup. split.
  - intros Hk. destruct (decide (name ∈ names)) as [|Hnot]; [reflexivity|].
    destruct Hnot. apply Hnames, Hk.
  - intros Hk. destruct (decide (name ∈ names)) as [Hin|]; [|reflexivity].
    apply Hnames in Hin as (k & Hon & Hh). destruct (Hk k Hon Hh).
Qed.

(** ** The iterator: what its callback receives *)

Lemma getDetails_calls_back c h : getDetails c h ≠ Thrown.
Proof.
  unfold getDetails. destruct (detailEntries (detailsDb c) !! h) as [[d|]|]; discriminate.
Qed.


(** ** The init lock, once released *)

Section LockFacts.
Variable ext : Externals.
Context {Consumer : Type}.

(** The body of a put, run: with the mutex taken it waits and changes
    nothing; with the mutex free it ends, and leaves the mutex taken exactly
    when it threw. *)
Lemma released_put fuel block isGenesis rest c taken c' taken' (r : reply) :
  released ext fuel (@body_putBlock Consumer block isGenesis rest) c taken
  = Some (c', taken', r) →
  (taken = true → r = Pending ∧ c' = c ∧ taken' = true)
  ∧ (taken = false →
     ∃ res, r = Answered (Unit res) ∧ (taken' = true ↔ res = Thrown)).
Proof.
  cbn [released]. destruct taken.
  - intros [= <- <- <-]. split; [auto|discriminate].
  - intros H. split; [discriminate|]. intros _.
    destruct (_putBlock ext fuel block isGenesis c) as [[c1 [[]|e|]]|]; try discriminate.
    + destruct (eachSeries_putBlock ext fuel rest c1) as [[c2 [[]|e|]]|]; try discriminate;
        cbn in H; injection H as <- <- <-; eexists; (split; [reflexivity|]);
        cbn; split; congruence.
    + injection H as <- <- <-. eexists. split; [reflexivity|]. cbn. split; congruence.
    + injection H as <- <- <-. eexists. split; [reflexivity|]. cbn. split; congruence.
Qed.

(** X17: the init lock and the put mutex across calls.  No call changes the
    init lock.  Of the calls made once it is released, none touches the queue
    of waiting functions; a call that is no put leaves the mutex as it is
    and does not wait; a put that finds the mutex taken waits and changes
    nothing; and a put that finds it free does not wait, and leaves the
    mutex taken exactly when it threw, in which case every later put
    waits. *)
Theorem lock_is_left_alone fuel (cl : @call Consumer) i i' r :
  invoke ext fuel cl i = Some (i', r) →
  initLock i' = initLock i
  ∧ metaIsNull i' = metaIsNull i
  ∧ (initLock i = true →
     waiting i' = waiting i
     ∧ (isPut cl = false → putSemaphore i' = putSemaphore i ∧ r ≠ Pending)
     ∧ (isPut cl = true → putSemaphore i = true → r = Pending ∧ i' = i)
     ∧ (isPut cl = true → putSemaphore i = false →
        ∃ res, r = Answered (Unit res) ∧ (putSemaphore i' = true ↔ res = Thrown))).
Proof.
  assert (Hput : ∀ block isGenesis rest,
            await ext fuel (body_putBlock block isGenesis rest) i = Some (i', r) →
            initLock i' = initLock i ∧ metaIsNull i' = metaIsNull i
            ∧ (initLock i = true →
               waiting i' = waiting i
               ∧ (true = false → putSemaphore i' = putSemaphore i ∧ r ≠ Pending)
               ∧ (true = true → putSemaphore i = true → r = Pending ∧ i' = i)
               ∧ (true = true → putSemaphore i = false →
                  ∃ res, r = Answered (Unit res)
                         ∧ (putSemaphore i' = true ↔ res = Thrown)))).
  { intros block isGenesis rest. unfold await. destruct (initLock i) eqn:Hl.
    - destruct (released ext fuel _ (self i) (putSemaphore i)) as [[[c t] r0]|] eqn:Hrel;
        [|discriminate].
      cbn. intros [= <- <-]. cbn.
      apply released_put in Hrel as (Htaken & Hfree).
      split; [reflexivity|]. split; [reflexivity|]. intros _.
      split; [reflexivity|]. split; [discriminate|]. split.
      + intros _ Ht. destruct (Htaken Ht) as (-> & -> & ->).
        split; [reflexivity|]. destruct i; cbn in *. congruence.
      + intros _ Ht. exact (Hfree Ht).
    - intros [= <- <-]. cbn. rewrite ?Hl. split; [reflexivity|].
      split; [reflexivity|discriminate]. }
  assert (Hother : ∀ fn, (∀ block isGenesis rest, fn ≠ body_putBlock block isGenesis rest) →
            await ext fuel fn i = Some (i', r) →
            initLock i' = initLock i ∧ metaIsNull i' = metaIsNull i
            ∧ (initLock i = true →
               waiting i' = waiting i
               ∧ (false = false → putSemaphore i' = putSemaphore i ∧ r ≠ Pending)
               ∧ (false = true → putSemaphore i = true → r = Pending ∧ i' = i)
               ∧ (false = true → putSemaphore i = false →
                  ∃ res, r = Answered (Unit res)
                         ∧ (putSemaphore i' = true ↔ res = Thrown)))).
  { intros fn Hfn. unfold await. destruct (initLock i) eqn:Hl.
    - destruct fn as [block isGenesis rest|name|name onBlock s];
        [destruct (Hfn _ _ _ eq_refl)| |]; cbn [released].
      + cbn. intros [= <- <-]. cbn. repeat split; try discriminate; reflexivity.
      + destruct (_iterator onBlock name fuel (self i) s) as [st [e|]]; [|discriminate].
        cbn. intros [= <- <-]. cbn. repeat split; try discriminate; reflexivity.
    - intros [= <- <-]. cbn. rewrite ?Hl. split; [reflexivity|].
      split; [reflexivity|discriminate]. }
  destruct cl as [genesis|block isGenesis|[|block blocks]|name|blockTag|
                  blockId maxBlocks skip reverse|h|h val|hashes|arg|name onBlock s];
    cbn [invoke isPut]; unfold putGenesis, putBlock, putBlocks, getHead, iterator;
    try apply Hput; try (apply Hother; discriminate);
    try (intros [= <- <-]; cbn; repeat split; try discriminate; reflexivity).
  - destruct (getBlocks fuel (self i) blockId maxBlocks skip reverse); [|discriminate].
    cbn. intros [= <- <-]. repeat split; try discriminate; reflexivity.
  - destruct (selectNeededHashes fuel (self i) hashes); [|discriminate].
    cbn. intros [= <- <-]. repeat split; try discriminate; reflexivity.
  - destruct (metaIsNull i) eqn:Hnull.
    + intros H. injection H as <- <-. rewrite Hnull.
      repeat split; try discriminate; reflexivity.
    + destruct (delBlock fuel (self i) arg) as [[c r0]|]; [|discriminate].
      cbn. intros H. injection H as <- <-. cbn. rewrite Hnull.
      repeat split; try discriminate; reflexivity.
Qed.

(** X18: the end of the constructor's [_init].  On stores without a stored
    meta, with collaborators that accept the default genesis block: the
    default genesis block is put as genesis, the lock is released, the meta
    has no named head and has that block as [rawHead] and [genesis], the
    stored meta is that meta, and [getBlock] by its hash returns the block.
    On stores with a stored meta, nothing is put or written: the stored meta
    becomes [self.meta], its [td] read back through [BN], and the lock is
    released. *)
Theorem init_without_and_with_meta fuel bdb ddb v :
  (metaEntry ddb = None →
   Block.isGenesis (canonicalGenesis ext) = true →
   (∀ c, Block_validate ext c (canonicalGenesis ext) = None) →
   vapash_verifyPOW ext (canonicalGenesis ext) = true →
   ∃ i', initDone ext fuel (@construct Consumer bdb ddb v) = Some (i', Ok [])
         ∧ initLock i' = true ∧ metaIsNull i' = false ∧ waiting i' = []
         ∧ meta (self i')
           = Meta.mk ∅ (Some (Block.hash (canonicalGenesis ext)))
                     (Some (Block.number (canonicalGenesis ext)))
                     (Block.difficulty (canonicalGenesis ext))
                     (Some (Block.hash (canonicalGenesis ext)))
         ∧ metaEntry (detailsDb (self i')) = Some (meta (self i'))
         ∧ getBlock (self i') (TagBuffer (Block.hash (canonicalGenesis ext)))
           = Ok (canonicalGenesis ext))
  ∧ (∀ m, metaEntry ddb = Some m →
          initDone ext fuel (@construct Consumer bdb ddb v)
          = Some (mkInstance
                    (mkBlockchain (match v with Some b => b | None => true end)
                                  (Meta.set_td (BN_ofJSON ext (Meta.td m)) m) bdb ddb)
                    false true [] false, Ok [])).
Proof.
  split.
  - intros Hnone Hgen Hval Hpow.
    unfold initDone, _init, construct, _setCanonicalGenesisBlock.
    cbn [self detailsDb waiting putSemaphore]. rewrite Hnone.
    match goal with |- context [_putBlock ext fuel _ true ?c0] =>
      assert (Hput : ∃ c', _putBlock ext fuel (canonicalGenesis ext) true c0
                           = Some (c', Ok tt)) end.
    { match goal with |- context [_putBlock ext fuel _ true ?c0] =>
        destruct (_putBlock_cases ext fuel (canonicalGenesis ext) true c0)
          as [(e & Hv & _)|[(_ & _ & Hg & _)|(_ & Hc)]] end.
      - unfold verify in Hv. rewrite Hval in Hv.
        destruct (negb (validate _)); discriminate.
      - congruence.
      - rewrite Hc, afterPOW_genesis by exact Hgen.
        unfold putVerified. cbn [lookupParentBlock]. unfold rebuildInfo.
        rewrite Hgen. cbn [orb]. eauto. }
    destruct Hput as [c' Hput]. rewrite Hput.
    destruct (genesis_put ext _ _ _ _ _ Hgen Hput) as (Hm & He & _).
    destruct (put_blockDb ext _ _ _ _ _ Hput) as (_ & Hget).
    cbn [go mbind option_bind]. eexists. split; [reflexivity|].
    cbn [initLock metaIsNull waiting self].
    repeat (split; [reflexivity|]). split; [exact Hm|]. split; [exact He|exact Hget].
  - intros m Hm. unfold initDone, _init, construct.
    cbn [self detailsDb waiting putSemaphore].
    rewrite Hm. reflexivity.
Qed.

End LockFacts.

(** ** Details put by hand, and puts in series *)

(** X19: [getDetails] after [putDetails] of the same hash calls back with
    the value put, whatever was stored there, an undecodable entry
    included; for every other hash it calls back as before; no block
    lookup and nothing of [self.meta] changes. *)
Theorem putDetails_then_getDetails c h val :
  getDetails (putDetails c h val) h = Ok val
  ∧ (∀ k, k ≠ h → getDetails (putDetails c h val) k = getDetails c k)
  ∧ (∀ blockTag, getBlock (putDetails c h val) blockTag = getBlock c blockTag)
  ∧ meta (putDetails c h val) = meta c.
Proof.
  split; [|split; [|split]].
  - unfold getDetails, putDetails. cbn. rewrite lookup_insert_eq. reflexivity.
  - intros k Hk. unfold getDetails, putDetails. cbn.
    rewrite lookup_insert_ne by congruence. reflexivity.
  - intros [k|n|]; reflexivity.
  - reflexivity.
Qed.

(** X20: [putBlocks] over two lists one after the other is [putBlocks] over
    the first and then, when that succeeded, over the second on the object
    it left; when the first fails, its failure is the result and no block
    of the second list is put. *)
Theorem putBlocks_in_series (ext : Externals) fuel l1 l2 c :
  eachSeries_putBlock ext fuel (l1 ++ l2) c
  = match eachSeries_putBlock ext fuel l1 c with
    | Some (c1, Ok _) => eachSeries_putBlock ext fuel l2 c1
    | other => other
    end.
Proof.
  revert c. induction l1 as [|block l1 IH]; intros c; cbn [app eachSeries_putBlock].
  - reflexivity.
  - destruct (_putBlock ext fuel block false c) as [[c1 [[]|e|]]|]; try reflexivity.
    apply IH.
Qed.

(** ** Instances *)

Lemma put_then_getBlock_witness :
  _putBlock acceptAll 8 blockC false chainGA = Some (chainGAC, Ok tt)
  ∧ getBlock chainGAC (TagBuffer "c1") = Ok blockC.
Proof.
  assert (H : _putBlock acceptAll 8 blockC false chainGA = Some (chainGAC, Ok tt))
    by (vm_compute; reflexivity).
  split; [exact H|].
  exact (proj2 (put_then_getBlock acceptAll 8 blockC false chainGA chainGAC H)).
Defined.

Lemma put_keeps_meta_persisted_witness :
  _putBlock acceptAll 8 blockC false chainGA = Some (chainGAC, Ok tt)
  ∧ becomesHead chainGA blockC false = true
  ∧ metaEntry (detailsDb chainGAC) = Some (meta chainGAC).
Proof.
  assert (H : _putBlock acceptAll 8 blockC false chainGA = Some (chainGAC, Ok tt))
    by (vm_compute; reflexivity).
  assert (Hb : becomesHead chainGA blockC false = true) by (vm_compute; reflexivity).
  split; [exact H|]. split; [exact Hb|].
  exact (proj1 (put_keeps_meta_persisted acceptAll 8 blockC false chainGA chainGAC H) Hb).
Defined.

(** A put that fails in the rebuilder, after fork choice moved [self.meta]:
    the parent P is off the chain and the number index has no entry at its
    number. *)
Lemma failed_put_writes_nothing_witness :
  ∃ c', _putBlock acceptAll 8 blockQ false chainGAP = Some (c', Err NotFound)
        ∧ @Err unit NotFound ≠ Ok tt
        ∧ Meta.rawHead (meta c') = Some "q6"%string
        ∧ blockDb c' = blockDb chainGAP
        ∧ detailsDb c' = detailsDb chainGAP.
Proof.
  destruct (_putBlock acceptAll 8 blockQ false chainGAP) as [[c' r]|] eqn:H;
    [|vm_compute in H; discriminate].
  assert (Hr : r = Err NotFound) by (vm_compute in H; congruence). subst r.
  assert (Hne : @Err unit NotFound ≠ Ok tt) by discriminate.
  destruct (failed_put_writes_nothing acceptAll 8 blockQ false chainGAP c' _ H Hne)
    as (Hb & _ & _ & _ & _ & _ & Hd).
  exists c'. split; [reflexivity|]. split; [exact Hne|].
  split; [vm_compute in H; injection H as <-; reflexivity|].
  split; [exact Hb|exact (Hd eq_refl)].
Defined.

(** A put refused for its proof of work leaves the verifier's cache under
    key 0, where the number index had the genesis block. *)
Lemma validate_switch_witness :
  validate emptyChain = false
  ∧ _putBlock acceptAll 8 blockG true emptyChain = _putBlock rejectAll 8 blockG true emptyChain
  ∧ validate validatingChain = true
  ∧ _putBlock acceptAll 8 blockG false validatingChain
    = Some (validatingChain, Err AlreadyHaveGenesis)
  ∧ ∃ c', _putBlock refusingVerifier 8 blockA false validatingChain
          = Some (c', Err InvalidPOW)
          ∧ getBlock validatingChain (TagInteger 0) = Ok blockG
          ∧ getBlock c' (TagInteger 0) = Err NotFound.
Proof.
  split; [reflexivity|]. split.
  - exact (proj1 (validate_switch acceptAll 8 blockG true emptyChain) eq_refl rejectAll).
  - split; [reflexivity|]. split.
    + exact (proj1 (proj2 (validate_switch acceptAll 8 blockG false validatingChain))
                   eq_refl eq_refl).
    + eexists. split.
      * exact (proj1 (proj2 (proj2
                 (validate_switch refusingVerifier 8 blockA false validatingChain)))
                 eq_refl eq_refl eq_refl eq_refl).
      * split; vm_compute; reflexivity.
Defined.

Lemma getHead_after_put_witness :
  _putBlock acceptAll 8 blockC false chainGA = Some (chainGAC, Ok tt)
  ∧ runGetHead chainGAC "vm" = Ok blockC
  ∧ _putBlock acceptAll 8 blockE false chainNamed = Some (chainNamedE, Ok tt)
  ∧ runGetHead chainNamedE "vm" = runGetHead chainNamed "vm".
Proof.
  assert (H1 : _putBlock acceptAll 8 blockC false chainGA = Some (chainGAC, Ok tt))
    by (vm_compute; reflexivity).
  assert (H2 : _putBlock acceptAll 8 blockE false chainNamed = Some (chainNamedE, Ok tt))
    by (vm_compute; reflexivity).
  split; [exact H1|]. split.
  - apply (proj1 (proj2 (getHead_after_put acceptAll 8 blockC false chainGA chainGAC
                           "vm" H1))).
    + vm_compute. reflexivity.
    + vm_compute. discriminate.
    + compute_done.
    + vm_compute. reflexivity.
  - split; [exact H2|].
    apply (proj2 (proj2 (getHead_after_put acceptAll 8 blockE false chainNamed chainNamedE
                           "vm" H2)) "a1"%string).
    + vm_compute. reflexivity.
    + vm_compute. discriminate.
Defined.

Lemma genesis_put_state_witness :
  Block.isGenesis blockG = true
  ∧ _putBlock acceptAll 8 blockG true emptyChain = Some (chainG, Ok tt)
  ∧ Meta.genesis (meta chainG) = Some "0a"%string
  ∧ getBlock chainG (TagInteger 0) = Ok blockG.
Proof.
  assert (H : _putBlock acceptAll 8 blockG true emptyChain = Some (chainG, Ok tt))
    by (vm_compute; reflexivity).
  destruct (genesis_put_state acceptAll 8 blockG true emptyChain chainG eq_refl H)
    as (Hm & _ & _ & _ & Hget).
  split; [reflexivity|]. split; [exact H|]. split; [rewrite Hm; reflexivity|exact Hget].
Defined.

Lemma extend_chain_state_witness :
  ∃ pd,
    Block.isGenesis blockC = false
    ∧ _putBlock acceptAll 8 blockC false chainGA = Some (chainGAC, Ok tt)
    ∧ getDetails chainGA "a1" = Ok pd
    ∧ Details.inChain pd = true
    ∧ (Meta.td (meta chainGA) < Block.difficulty blockC + Details.td pd)%N
    ∧ numberIndex (detailsDb chainGAC) = <[2 := "c1"%string]> (numberIndex (detailsDb chainGA))
    ∧ getDetails chainGAC "a1"
      = Ok (Details.mk "0a" 15 1 (Some "c1") [] false true ∅)%string.
Proof.
  destruct (getDetails chainGA "a1") as [pd| |] eqn:Hpd;
    [|vm_compute in Hpd; discriminate|vm_compute in Hpd; discriminate].
  exists pd.
  assert (H : _putBlock acceptAll 8 blockC false chainGA = Some (chainGAC, Ok tt))
    by (vm_compute; reflexivity).
  assert (Epd : pd = Details.mk "0a" 15 1 None [] false true ∅)
    by (vm_compute in Hpd; injection Hpd as <-; reflexivity).
  assert (Hin : Details.inChain pd = true) by (rewrite Epd; reflexivity).
  assert (Hlt : (Meta.td (meta chainGA) < Block.difficulty blockC + Details.td pd)%N)
    by (rewrite Epd; vm_compute; reflexivity).
  destruct (extend_chain_state acceptAll 8 blockC chainGA chainGAC pd eq_refl H Hpd Hin Hlt)
    as (_ & _ & Hn & Hd).
  split; [reflexivity|]. split; [exact H|]. split; [reflexivity|]. split; [exact Hin|].
  split; [exact Hlt|]. split; [exact Hn|].
  unfold getDetails. rewrite Hd. cbn [Block.parentHash Block.hash blockC].
  rewrite lookup_insert_eq, Epd. reflexivity.
Defined.

Lemma relink_after_push_witness :
  let pd := Details.mk "00" 10 0 (Some "a1"%string) [] true true ∅ in
  tidy pd
  ∧ ("b2"%string ∉ Details.staleChildren pd)
  ∧ Details.staleChildren
      (relink "b2" (Details.set_staleChildren (Details.staleChildren pd ++ ["b2"%string]) pd))
    = ["a1"%string].
Proof.
  intros pd.
  assert (Ht : tidy pd).
  { split; [constructor|]. intros ch _ Hin. inversion Hin. }
  assert (Hn : ("b2"%string ∉ Details.staleChildren pd)) by (intros Hin; inversion Hin).
  split; [exact Ht|]. split; [exact Hn|].
  exact (proj1 (proj2 (relink_after_push "b2" pd Ht Hn))).
Defined.

Lemma put_calls_back_witness :
  Z.of_N (Block.difficulty blockC) < maxSafe
  ∧ 0 ≤ Block.number blockC < maxSafe
  ∧ reachesChain chainGA (Block.parentHash blockC) 0
  ∧ ∃ c' r, _putBlock acceptAll 1 blockC false chainGA = Some (c', r) ∧ r ≠ Thrown.
Proof.
  assert (Hd : Z.of_N (Block.difficulty blockC) < maxSafe) by reflexivity.
  assert (Hn : 0 ≤ Block.number blockC < maxSafe) by (split; [discriminate|reflexivity]).
  assert (H : reachesChain chainGA (Block.parentHash blockC) 0).
  { destruct (getDetails chainGA "a1") as [pd| |] eqn:Hpd;
      [|vm_compute in Hpd; discriminate|vm_compute in Hpd; discriminate].
    eapply reachesChain_here; [exact Hpd|].
    vm_compute in Hpd. injection Hpd as <-. reflexivity. }
  split; [exact Hd|]. split; [exact Hn|]. split; [exact H|].
  exact (put_calls_back acceptAll 1 blockC chainGA 0 Hd Hn H (le_n 1)).
Defined.

Lemma getBlocks_first_and_bound_witness :
  getBlocks_with (getBlock chainGAC) 2 0 false 8 (TagBuffer "0a") = Some (Ok [blockG; blockA])
  ∧ (∃ rest, [blockG; blockA] = blockG :: rest)
  ∧ Z.of_nat (length [blockG; blockA]) ≤ 2.
Proof.
  assert (H : getBlocks_with (getBlock chainGAC) 2 0 false 8 (TagBuffer "0a")
              = Some (Ok [blockG; blockA])) by (vm_compute; reflexivity).
  destruct (getBlocks_first_and_bound _ _ _ _ _ _ _ H) as (Hfirst & Hbound).
  split; [exact H|]. split.
  - apply Hfirst. vm_compute. reflexivity.
  - apply Hbound. lia.
Defined.

Lemma getBlocks_without_maximum_witness :
  getBlocks_with (getBlock chainGAC) 0 0 false 8 (TagBuffer "0a")
  = Some (Ok [blockG; blockA; blockC])
  ∧ ∃ x e, visits (getBlock chainGAC) false (TagBuffer "0a") x
           ∧ getBlock chainGAC x = Err e.
Proof.
  assert (H : getBlocks_with (getBlock chainGAC) 0 0 false 8 (TagBuffer "0a")
              = Some (Ok [blockG; blockA; blockC])) by (vm_compute; reflexivity).
  split; [exact H|].
  exact (getBlocks_without_maximum _ 0 0 false 8 _ _ (Z.le_refl 0) H).
Defined.

Lemma selectNeededHashes_logarithmic_witness :
  selectNeededHashes_with (Some (getDetails chainGAC))
                          ["0a"; "a1"; "c1"; "d1"; "e1"]%string 5
  = Some (Ok ["d1"; "e1"]%string).
Proof.
  apply (selectNeededHashes_logarithmic (getDetails chainGAC)
           ["0a"; "a1"; "c1"; "d1"; "e1"]%string 3 3 5);
    [| | | |apply getDetails_calls_back].
  - simpl. lia.
  - intros i h Hh.
    do 3 (destruct i as [|i];
          [injection Hh as <-; split; [intros _; simpl; lia|intros _; vm_compute; eauto]|]).
    do 2 (destruct i as [|i];
          [injection Hh as <-; split;
           [intros [d Hd]; vm_compute in Hd; discriminate|simpl; lia]|]).
    destruct i; discriminate.
  - vm_compute. reflexivity.
  - lia.
Defined.

Lemma delBlock_removes_child_chain_witness :
  delBlock 8 chainGACDNamed (OfBuffer "a1") = Some (chainDeleted, Ok tt)
  ∧ onChildChain chainGACDNamed "a1" "c1"
  ∧ ¬ onChildChain chainGACDNamed "a1" "d1"
  ∧ detailEntries (detailsDb chainDeleted) !! "c1"%string = None
  ∧ detailEntries (detailsDb chainDeleted) !! "d1"%string
    = detailEntries (detailsDb chainGACDNamed) !! "d1"%string.
Proof.
  assert (H : delBlock 8 chainGACDNamed (OfBuffer "a1") = Some (chainDeleted, Ok tt))
    by (vm_compute; reflexivity).
  assert (Hc : onChildChain chainGACDNamed "a1" "c1").
  { destruct (getDetails chainGACDNamed "a1") as [d| |] eqn:Hd;
      [|vm_compute in Hd; discriminate|vm_compute in Hd; discriminate].
    eapply onChildChain_down; [exact Hd| |constructor].
    vm_compute in Hd. injection Hd as <-. reflexivity. }
  assert (Hd : ¬ onChildChain chainGACDNamed "a1" "d1").
  { intros Hon.
    apply onChildChain_inv in Hon as [Heq|(d & ch & Hd & Hch & Hon)]; [discriminate|].
    vm_compute in Hd. injection Hd as <-. vm_compute in Hch. injection Hch as <-.
    apply onChildChain_inv in Hon as [Heq|(d & ch & Hd & Hch & Hon)]; [discriminate|].
    vm_compute in Hd. injection Hd as <-. vm_compute in Hch. discriminate. }
  split; [exact H|]. split; [exact Hc|]. split; [exact Hd|]. split.
  - exact (proj1 (delBlock_removes_child_chain 8 chainGACDNamed "a1" chainDeleted H "c1") Hc).
  - exact (proj2 (delBlock_removes_child_chain 8 chainGACDNamed "a1" chainDeleted H "d1") Hd).
Defined.

Lemma delBlock_keeps_lookups_witness :
  delBlock 8 chainGACDNamed (OfBuffer "a1") = Some (chainDeleted, Ok tt)
  ∧ getBlock chainDeleted (TagBuffer "a1") = Ok blockA
  ∧ getBlock chainDeleted (TagInteger 2) = Ok blockC.
Proof.
  assert (H : delBlock 8 chainGACDNamed (OfBuffer "a1") = Some (chainDeleted, Ok tt))
    by (vm_compute; reflexivity).
  destruct (delBlock_keeps_lookups 8 chainGACDNamed "a1" chainDeleted H) as (Hget & _).
  split; [exact H|]. split; rewrite Hget; vm_compute; reflexivity.
Defined.

Lemma delBlock_resets_heads_witness :
  delBlock 8 chainGACDNamed (OfBuffer "a1") = Some (chainDeleted, Ok tt)
  ∧ Meta.heads (meta chainGACDNamed) !! "vm"%string = Some "c1"%string
  ∧ Meta.rawHead (meta chainDeleted) = Some "0a"%string
  ∧ Meta.heads (meta chainDeleted) !! "vm"%string = Some "0a"%string.
Proof.
  assert (H : delBlock 8 chainGACDNamed (OfBuffer "a1") = Some (chainDeleted, Ok tt))
    by (vm_compute; reflexivity).
  assert (Hv : Meta.heads (meta chainGACDNamed) !! "vm"%string = Some "c1"%string)
    by (vm_compute; reflexivity).
  assert (Hc : onChildChain chainGACDNamed "a1" "c1").
  { destruct (getDetails chainGACDNamed "a1") as [d| |] eqn:Hd;
      [|vm_compute in Hd; discriminate|vm_compute in Hd; discriminate].
    eapply onChildChain_down; [exact Hd| |constructor].
    vm_compute in Hd. injection Hd as <-. reflexivity. }
  destruct (delBlock_resets_heads 8 chainGACDNamed "a1" chainDeleted H)
    as (details & Hd & Hraw & Hheads).
  vm_compute in Hd. injection Hd as <-.
  split; [exact H|]. split; [exact Hv|]. split; [exact Hraw|].
  exact (proj1 (Hheads "vm"%string) (ex_intro _ "c1"%string (conj Hc Hv))).
Defined.


(** [putGenesis] of a block that is no genesis block and is heavier than the
    head throws; the mutex stays taken, and a later [putBlock] waits. *)
Lemma lock_is_left_alone_witness :
  ∃ i', invoke acceptAll 8 (call_putGenesis blockH) (opened chainGA)
        = Some (i', Answered (Unit Thrown))
        ∧ initLock (opened chainGA) = true
        ∧ putSemaphore i' = true
        ∧ invoke acceptAll 8 (call_putBlock blockC false) i' = Some (i', Pending).
Proof.
  destruct (invoke acceptAll 8 (call_putGenesis blockH) (opened chainGA))
    as [[i' r]|] eqn:H; [|vm_compute in H; discriminate].
  assert (Hr : r = Answered (Unit Thrown)) by (vm_compute in H; congruence). subst r.
  destruct (lock_is_left_alone acceptAll 8 _ _ _ _ H) as (Hl & _ & Hopen).
  destruct (Hopen eq_refl) as (_ & _ & _ & Hfree).
  destruct (Hfree eq_refl eq_refl) as (res & [= <-] & Htaken).
  assert (Ht : putSemaphore i' = true) by (apply Htaken; reflexivity).
  exists i'. split; [reflexivity|]. split; [reflexivity|]. split; [exact Ht|].
  destruct (invoke acceptAll 8 (call_putBlock blockC false) i') as [[i'' r]|] eqn:H2.
  - destruct (lock_is_left_alone acceptAll 8 _ _ _ _ H2) as (_ & _ & Hopen2).
    destruct (Hopen2 Hl) as (_ & _ & Hwait & _).
    destruct (Hwait eq_refl Ht) as (-> & ->). reflexivity.
  - exfalso. revert H2. unfold invoke, putBlock, await. rewrite Hl, Ht. discriminate.
Defined.

Lemma init_without_and_with_meta_witness :
  metaEntry emptyDetailsDb = None
  ∧ (∃ i', initDone acceptAll 1 (@construct unit ∅ emptyDetailsDb None) = Some (i', Ok [])
           ∧ initLock i' = true
           ∧ Meta.rawHead (meta (self i')) = Some "d4e5"%string)
  ∧ metaEntry (detailsDb chainG) = Some (meta chainG)
  ∧ initDone acceptAll 1 (@construct unit (blockDb chainG) (detailsDb chainG) (Some false))
    = Some (opened chainG, Ok []).
Proof.
  split; [reflexivity|]. split.
  - destruct (proj1 (init_without_and_with_meta acceptAll (Consumer := unit) 1 ∅
                       emptyDetailsDb None) eq_refl eq_refl (λ _, eq_refl) eq_refl)
      as (i' & Hi & Hl & _ & _ & Hm & _).
    exists i'. split; [exact Hi|]. split; [exact Hl|]. rewrite Hm. reflexivity.
  - split; [vm_compute; reflexivity|].
    rewrite (proj2 (init_without_and_with_meta acceptAll (Consumer := unit) 1
                      (blockDb chainG) (detailsDb chainG) (Some false))
                   (meta chainG) ltac:(vm_compute; reflexivity)).
    vm_compute. reflexivity.
Defined.

Lemma putDetails_then_getDetails_witness :
  "0a"%string ≠ "a1"%string
  ∧ getDetails (putDetails chainGA "a1" (freshDetails chainGA blockA false)) "0a"
    = getDetails chainGA "0a".
Proof.
  assert (H : "0a"%string ≠ "a1"%string) by discriminate.
  split; [exact H|].
  exact (proj1 (proj2 (putDetails_then_getDetails chainGA "a1"
                         (freshDetails chainGA blockA false))) "0a"%string H).
Defined.

(** ** Ingestion: a reorganization one level deep *)

Lemma reorg_one_level_core fuel block c c' pd staleHash sd ppd :
  Block.isGenesis block = false →
  putVerified fuel block false c = Some (c', Ok tt) →
  (Meta.td (meta c) < ingestedTd c block false)%N →
  getDetails c (Block.parentHash block) = Ok pd →
  Details.inChain pd = false →
  lookupNumberToHash c (Details.number pd) = Ok staleHash →
  getDetails c staleHash = Ok sd →
  getDetails c (Details.parent pd) = Ok ppd →
  Details.inChain ppd = true →
  detailEntries (detailsDb c')
  = <[Details.parent pd := Stored (relink (Block.parentHash block) ppd)]>
      (<[staleHash := Stored (Details.set_inChain false sd)]>
         (<[Block.parentHash block :=
              Stored (Details.set_inChain true
                        (relink (Block.hash block)
                           (Details.set_staleChildren
                              (Details.staleChildren pd ++ [Block.hash block]) pd)))]>
            (<[Block.hash block :=
                 Stored (Details.set_inChain true (freshDetails c block false))]>
               (detailEntries (detailsDb c)))))
  ∧ numberIndex (detailsDb c')
    = <[Details.number sd := Block.parentHash block]>
        (<[Block.number block := Block.hash block]> (numberIndex (detailsDb c)))
  ∧ Meta.rawHead (meta c') = Some (Block.hash block).
Proof.
  intros Hgen Hput Hlt Hpd Hin Hnum Hsd Hppd Hpin.
  apply putVerified_Ok in Hput as (parentDetails & m & hp & ops & Hpar & Hinfo & ->).
  apply lookupParentBlock_false in Hpar as (pd' & -> & Hpd').
  rewrite Hpd in Hpd'. injection Hpd' as <-.
  unfold freshDetails. rewrite (ingestedTd_parent _ _ _ Hpd) in *.
  apply N.ltb_lt in Hlt.
  unfold rebuildInfo in Hinfo. rewrite Hgen in Hinfo.
  cbn [totalDifficulty orb] in Hinfo. rewrite Hlt in Hinfo.
  injection Hinfo as <- Hre.
  destruct fuel as [|[|fuel]]; [discriminate| |].
  - exfalso. cbn -[relink] in Hre.
    destruct (relink_fields (Block.hash block)
                (Details.set_staleChildren
                   (Details.staleChildren pd ++ [Block.hash block]) pd))
      as (Hri & Hrp & Hrn & _).
    cbn [Details.inChain Details.parent Details.number Details.set_staleChildren]
      in Hri, Hrp, Hrn.
    rewrite Hri, Hin, Hrn, Hnum, Hsd, Hrp, Hppd in Hre. discriminate.
  - cbn -[relink] in Hre.
    destruct (relink_fields (Block.hash block)
                (Details.set_staleChildren
                   (Details.staleChildren pd ++ [Block.hash block]) pd))
      as (Hri & Hrp & Hrn & _).
    cbn [Details.inChain Details.parent Details.number Details.set_staleChildren]
      in Hri, Hrp, Hrn.
    rewrite Hri, Hin, Hrn, Hnum, Hsd, Hrp, Hppd in Hre.
    destruct (relink_fields (Block.parentHash block) ppd) as (Hqi & _).
    rewrite Hqi, Hpin in Hre. injection Hre as <- <-.
    rewrite Hgen. repeat split; reflexivity.
Qed.

(** X21: a successful put on a parent that is off the canonical chain and
    whose own parent is on it (a heavier block on a side branch one level
    deep), [index] being the number index as the put finds it: as it was,
    or, with [validate] on, as the verifier left it.  The writes are, in
    this order: the block's details with [inChain] set; the parent's details
    with the block as [child], a different former child moved to the end of
    [staleChildren], and [inChain] set; the details of the block that
    [index] had at the parent's number, with [inChain] cleared; the
    grandparent's details with the parent as [child], the parent taken out
    of [staleChildren] and a different former child moved to their end.  The
    number index gets the block at its number and the parent at the number
    of the demoted block.  Nothing else is written: blocks above the demoted
    one keep [inChain] and their number index entries. *)
Theorem reorg_one_level_state (ext : Externals) fuel block c c' pd staleHash sd ppd :
  let index := if validate c then vapash_cache ext (numberIndex (detailsDb c)) block
               else numberIndex (detailsDb c) in
  Block.isGenesis block = false →
  _putBlock ext fuel block false c = Some (c', Ok tt) →
  (Meta.td (meta c) < Block.difficulty block + Details.td pd)%N →
  getDetails c (Block.parentHash block) = Ok pd →
  Details.inChain pd = false →
  index !! Details.number pd = Some staleHash →
  getDetails c staleHash = Ok sd →
  getDetails c (Details.parent pd) = Ok ppd →
  Details.inChain ppd = true →
  detailEntries (detailsDb c')
  = <[Details.parent pd :=
        Stored (Details.mk (Details.parent ppd) (Details.td ppd) (Details.number ppd)
                  (Some (Block.parentHash block))
                  (spliceFirst (Block.parentHash block) (Details.staleChildren ppd)
                   ++ match truthy (Details.child ppd) with
                      | Some ch => if decide (ch = Block.parentHash block) then [] else [ch]
                      | None => []
                      end)
                  (Details.genesis ppd) true (Details.marks ppd))]>
      (<[staleHash :=
           Stored (Details.mk (Details.parent sd) (Details.td sd) (Details.number sd)
                     (Details.child sd) (Details.staleChildren sd) (Details.genesis sd)
                     false (Details.marks sd))]>
         (<[Block.parentHash block :=
              Stored (Details.mk (Details.parent pd) (Details.td pd) (Details.number pd)
                        (Some (Block.hash block))
                        (spliceFirst (Block.hash block)
                                     (Details.staleChildren pd ++ [Block.hash block])
                         ++ match truthy (Details.child pd) with
                            | Some ch => if decide (ch = Block.hash block) then [] else [ch]
                            | None => []
                            end)
                        (Details.genesis pd) true (Details.marks pd))]>
            (<[Block.hash block :=
                 Stored (Details.mk (Block.parentHash block)
                           (Block.difficulty block + Details.td pd) (Block.number block)
                           None [] false true ∅)]>
               (detailEntries (detailsDb c)))))
  ∧ numberIndex (detailsDb c')
    = <[Details.number sd := Block.parentHash block]>
        (<[Block.number block := Block.hash block]> index)
  ∧ Meta.rawHead (meta c') = Some (Block.hash block).
Proof.
  intros index Hgen Hput Hlt Hpd Hin Hnum Hsd Hppd Hpin.
  apply _putBlock_verified in Hput.
  assert (Hindex : numberIndex (detailsDb (afterPOW ext c block)) = index)
    by (apply afterPOW_index, Hgen).
  destruct (reorg_one_level_core fuel block (afterPOW ext c block) c' pd staleHash sd ppd)
    as (Hd & Hn & Hraw); try assumption.
  - autorewrite with afterPOW. rewrite (ingestedTd_parent _ _ _ Hpd). exact Hlt.
  - rewrite afterPOW_getDetails. exact Hpd.
  - unfold lookupNumberToHash. rewrite Hindex, Hnum. reflexivity.
  - rewrite afterPOW_getDetails. exact Hsd.
  - rewrite afterPOW_getDetails. exact Hppd.
  - autorewrite with afterPOW in Hd. rewrite Hindex in Hn.
    rewrite !relink_explicit in Hd. unfold freshDetails in Hd.
    rewrite (ingestedTd_parent _ _ _ Hpd) in Hd.
    cbn in Hd. rewrite Hgen, Hpin in Hd.
    split; [exact Hd|]. split; [exact Hn|exact Hraw].
Qed.

Lemma reorg_one_level_state_witness :
  _putBlock acceptAll 8 blockF false chainGAB = Some (chainGABF, Ok tt)
  ∧ Meta.rawHead (meta chainGABF) = Some "f1"%string
  ∧ numberIndex (detailsDb chainGABF)
    = <[1 := "b1"%string]> (<[2 := "f1"%string]> (numberIndex (detailsDb chainGAB)))
  ∧ (Details.inChain <$> getDetails_stored chainGABF "a1") = Some false
  ∧ (Details.inChain <$> getDetails_stored chainGABF "b1") = Some true.
Proof.
  assert (H : _putBlock acceptAll 8 blockF false chainGAB = Some (chainGABF, Ok tt))
    by (vm_compute; reflexivity).
  destruct (getDetails chainGAB "b1") as [pd| |] eqn:Hpd;
    [|vm_compute in Hpd; discriminate|vm_compute in Hpd; discriminate].
  destruct (getDetails chainGAB "a1") as [sd| |] eqn:Hsd;
    [|vm_compute in Hsd; discriminate|vm_compute in Hsd; discriminate].
  destruct (getDetails chainGAB "0a") as [ppd| |] eqn:Hppd;
    [|vm_compute in Hppd; discriminate|vm_compute in Hppd; discriminate].
  assert (Hpd' := Hpd). assert (Hsd' := Hsd). assert (Hppd' := Hppd).
  vm_compute in Hpd'. injection Hpd' as Epd.
  vm_compute in Hsd'. injection Hsd' as Esd.
  vm_compute in Hppd'. injection Hppd' as Eppd.
  assert (Hlt : (Meta.td (meta chainGAB) < Block.difficulty blockF + Details.td pd)%N)
    by (rewrite <- Epd; vm_compute; reflexivity).
  assert (Hin : Details.inChain pd = false) by (rewrite <- Epd; reflexivity).
  assert (Hnum : numberIndex (detailsDb chainGAB) !! Details.number pd = Some "a1"%string)
    by (rewrite <- Epd; vm_compute; reflexivity).
  assert (Hpp : getDetails chainGAB (Details.parent pd) = Ok ppd)
    by (rewrite <- Epd; exact Hppd).
  assert (Hpin : Details.inChain ppd = true) by (rewrite <- Eppd; reflexivity).
  destruct (reorg_one_level_state acceptAll 8 blockF chainGAB chainGABF pd "a1" sd ppd
              eq_refl H Hlt Hpd Hin Hnum Hsd Hpp Hpin) as (Hd & Hn & Hraw).
  split; [exact H|]. split; [exact Hraw|].
  split; [rewrite Hn; rewrite <- Esd; reflexivity|].
  unfold getDetails_stored, getDetails. rewrite Hd. rewrite <- Epd.
  split; vm_compute; reflexivity.
Defined.

(** ** Ingestion: [isGenesis] passed for a block that is no genesis block *)



(** ** The iterator: one step *)

(** X22: one step of the iterator, for a consumer name that is no property
    of block details and not ['__proto__'] (for such a name the assignments
    [details[name] = true] and [heads[name] = blockhash] do something
    else).  A step that ends without error found the details and the block
    under the hash, called the consumer with the block, and left a
    checkpoint: the details are stored again with the consumer's mark added
    and their fields as they were, [heads[name]] is the hash, the stored
    meta is [self.meta], and the next hash is the [child] of the details;
    the block store and the number index are untouched.  A step that ends
    with an error, the consumer's included, writes nothing to either
    store. *)
Theorem iterator_step_checkpoints {Consumer : Type}
    (func : Consumer → Block.t → bool → Consumer * option error)
    (name : string) (st st' : @iteration Consumer) (h : hex) r :
  name ∉ detailsFields →
  name ≠ "__proto__"%string →
  run func name st h = (st', r) →
  (∀ next, r = Ok next →
     ∃ d block reorg,
       getDetails (it_self st) h = Ok d
       ∧ getBlock (it_self st) (TagBuffer h) = Ok block
       ∧ next = Details.child d
       ∧ delivered st' = delivered st ++ [(block, reorg)]
       ∧ getDetails (it_self st') h
         = Ok (Details.mk (Details.parent d) (Details.td d) (Details.number d)
                 (Details.child d) (Details.staleChildren d) (Details.genesis d)
                 (Details.inChain d) ({[ name ]} ∪ Details.marks d))
       ∧ (∀ k, k ≠ h → getDetails (it_self st') k = getDetails (it_self st) k)
       ∧ Meta.heads (meta (it_self st')) = <[name := h]> (Meta.heads (meta (it_self st)))
       ∧ metaEntry (detailsDb (it_self st')) = Some (meta (it_self st'))
       ∧ blockDb (it_self st') = blockDb (it_self st)
       ∧ numberIndex (detailsDb (it_self st')) = numberIndex (detailsDb (it_self st)))
  ∧ ((∀ next, r ≠ Ok next) →
     blockDb (it_self st') = blockDb (it_self st)
     ∧ detailsDb (it_self st') = detailsDb (it_self st)).
Proof.
  intros _ _. unfold run.
  destruct (getDetails (it_self st) h) as [d|e|] eqn:Hd;
    [|intros [= <- <-]; split; [discriminate|auto]
     |intros [= <- <-]; split; [discriminate|auto]].
  destruct (getBlock _ (TagBuffer h)) as [block|e|] eqn:Hb;
    [|intros [= <- <-]; split; [discriminate|auto]
     |intros [= <- <-]; split; [discriminate|auto]].
  cbn [lastBlock with_self it_consumer delivered].
  destruct (func (it_consumer st) block _) as [s [e|]] eqn:Hf.
  - intros [= <- <-]. split; [discriminate|auto].
  - intros [= <- <-]. split; [|intros Hno; destruct (Hno _ eq_refl)].
    intros next [= <-]. eexists d, block, _.
    split; [reflexivity|]. split; [reflexivity|]. split; [reflexivity|].
    split; [reflexivity|].
    unfold getDetails. cbn. rewrite lookup_insert_eq.
    split; [reflexivity|]. split; [|repeat split; reflexivity].
    intros k Hk. rewrite lookup_insert_ne by congruence. reflexivity.
Qed.

Lemma iterator_step_checkpoints_witness :
  ∃ st' d,
    ("vm"%string ∉ detailsFields)
    ∧ "vm"%string ≠ "__proto__"%string
    ∧ run (λ (n : nat) _ _, (S n, None)) "vm" (mkIteration chainGAC 0%nat None []) "a1"
      = (st', Ok (Some "c1"%string))
    ∧ Details.marks <$> getDetails_stored (it_self st') "a1" = Some ({[ "vm"%string ]} ∪ Details.marks d)
    ∧ Meta.heads (meta (it_self st')) !! "vm"%string = Some "a1"%string.
Proof.
  destruct (run (λ (n : nat) _ _, (S n, None)) "vm" (mkIteration chainGAC 0%nat None []) "a1")
    as [st' r] eqn:Hrun.
  assert (Hr : r = Ok (Some "c1"%string))
    by (vm_compute in Hrun; injection Hrun as _ <-; reflexivity).
  assert (H1 : "vm"%string ∉ detailsFields) by compute_done.
  assert (H2 : "vm"%string ≠ "__proto__"%string) by discriminate.
  destruct (proj1 (iterator_step_checkpoints _ _ _ _ _ _ H1 H2 Hrun) _ Hr)
    as (d & block & reorg & _ & _ & _ & _ & Hd & _ & Hheads & _).
  exists st', d. rewrite Hr. split; [exact H1|]. split; [exact H2|].
  split; [reflexivity|]. split.
  - unfold getDetails_stored. rewrite Hd. reflexivity.
  - rewrite Hheads. apply lookup_insert_eq.
Defined.
